(** * PyVM: a shallow embedding of the x86 emulator core

    The development follows the layout of the Python package [VM]:
    - [util.py]      : byte order and integer conversion ([to_int]);
    - [internals.py] : the instruction semantics library
                       ([_VM__mov_*], [_VM__jmp_rel], [_VM__addsub_*]);
    - [__init__.py]  : the class [VM] with the mnemonic dispatchers
                       ([_mov], [_jmp], [_int], [_push], [_pop], [_call],
                       [_ret]);
    - [kernel.py]    : the syscall layer ([SyscallsMixin]).

    Python integers are unbounded, so every integer is a [Z]; a [bytes]
    value is a list of [Z] in [0, 256).  A Python exception is a value of
    [exn] carried by the [Raise] constructor of [result]; a call that
    raises yields no state, since nothing is stated of the state an
    exception leaves behind. *)

From stdpp Require Import prelude strings pretty.
From Stdlib Require Import ZArith Lia HexString.

Open Scope Z_scope.

(** ** Exceptions and results *)

Inductive exn : Type :=
| RuntimeError (msg : string)
| IndexError
| KeyError
| AttributeError
| UnsupportedOperation
| OSError
| TypeError
| ValueError
| OverflowError
| UnicodeError
| MemoryFault.

Inductive result (A : Type) : Type :=
| Ok (a : A)
| Raise (e : exn).

Arguments Ok {A} a.
Arguments Raise {A} e.

(** [result] is a monad; stdpp's [x ← e; k] is the sequencing of two
    Python statements, an exception of the first one skipping the rest. *)
#[global] Instance result_ret : MRet result := fun _ a => Ok a.
#[global] Instance result_bind : MBind result := fun _ _ k r =>
  match r with Ok a => k a | Raise e => Raise e end.

(** ** util.py *)

Module Util.

(** [int.from_bytes(data, 'little', signed=False)] *)
Fixpoint from_bytes_le (data : list Z) : Z :=
  match data with
  | [] => 0
  | b :: rest => b + 256 * from_bytes_le rest
  end.

(** [to_int(data, signed=False)]: [int.from_bytes(data, byteorder, signed=signed)] *)
Definition to_int (data : list Z) (signed : bool) : Z :=
  let u := from_bytes_le data in
  let bits := 8 * Z.of_nat (length data) in
  if signed && (0 <? bits) && (2 ^ (bits - 1) <=? u) then u - 2 ^ bits else u.

(** the little-endian digits of [v], [n] of them *)
Fixpoint le_digits (n : nat) (v : Z) : list Z :=
  match n with
  | O => []
  | S k => v mod 256 :: le_digits k (v / 256)
  end.

(** [v.to_bytes(n, byteorder)]: unsigned, raises [OverflowError] when [v]
    is negative or does not fit in [n] bytes *)
Definition to_bytes (v : Z) (n : Z) : result (list Z) :=
  if (0 <=? v) && (v <? 2 ^ (8 * n)) && (0 <=? n)
  then Ok (le_digits (Z.to_nat n) v)
  else Raise OverflowError.

(** [v.to_bytes(n, byteorder, signed=True)] *)
Definition to_bytes_signed (v : Z) (n : Z) : result (list Z) :=
  if (0 <? n) && (- 2 ^ (8 * n - 1) <=? v) && (v <? 2 ^ (8 * n - 1))
  then Ok (le_digits (Z.to_nat n) (v mod 2 ^ (8 * n)))
  else Raise OverflowError.

(** [to_signed(num, bytes)] *)
Definition to_signed (num bytes : Z) : Z :=
  if bytes =? 1 then (if 127 <? num then num - 256 else num)
  else if bytes =? 2 then (if 32767 <? num then num - 65536 else num)
  else if bytes =? 4 then (if 2147483647 <? num then num - 4294967296 else num)
  else num.

(** [is_signed_out_of_range(num, size)] *)
Definition is_signed_out_of_range (num size : Z) : result bool :=
  if size =? 1 then Ok ((-128 <=? num) && (num <=? 127))
  else if size =? 2 then Ok ((-32768 <=? num) && (num <=? 32767))
  else if size =? 4 then Ok ((-2147483648 <=? num) && (num <=? 2147483647))
  else Raise ValueError.

End Util.

(** ** internals.py: the arithmetic shared by the ADD/SUB handlers *)

Module Arith.

(** [MAXVALS = [None, (1 << 8) - 1, (1 << 16) - 1, None, (1 << 32) - 1]] *)
Definition MAXVALS : list (option Z) :=
  [None; Some (Z.shiftl 1 8 - 1); Some (Z.shiftl 1 16 - 1); None; Some (Z.shiftl 1 32 - 1)].

(** [MAXVALS[off]]: an index past the end raises [IndexError]; the entry
    [None] makes the arithmetic that follows raise [TypeError].  The
    handlers are only called with [off] in {1, 2, 4}; a negative [off]
    has already failed in the memory read before this point. *)
Definition maxval (off : Z) : result Z :=
  if off <? 0 then Raise IndexError else
  match MAXVALS !! Z.to_nat off with
  | None => Raise IndexError
  | Some None => Raise TypeError
  | Some (Some m) => Ok m
  end.

(** The two statements every ADD/SUB handler runs on its operands:
    [tmp = a + (b if not sub else MAXVALS[off] + 1 - b)]
    [tmp &= MAXVALS[off]] *)
Definition addsub_tmp (off : Z) (sub : bool) (a b : Z) : result Z :=
  m ← maxval off;
  let tmp := a + (if negb sub then b else m + 1 - b) in
  Ok (Z.land tmp m).

End Arith.

(** ** The guest state: memory and registers *)

(** The class [Memory] belongs to the module [CPU].  The sources use it
    through [mem.size], [mem.program_break] and the accessors [get],
    [set], [get_bytes], [set_bytes] and [memset]. *)
Module Memory.

(** Modelled from the spec: the class [Memory] of the module [CPU], which
    is missing.  "Memory: a fixed-size, byte-addressable flat store
    created once at VM construction", with the watermark field
    [program_break] ("mutable heap-top"). *)
Record t : Type := mk {
  size : Z;
  cells : Z → Z;
  program_break : Z
}.

(** Modelled from the spec: the bounds of an access to [Memory], which is
    missing.  "Memory-access bounds checking against the configured
    memory size is not evidenced": an access outside [0, size) is given
    no value here, it raises [MemoryFault]. *)
Definition in_range (m : t) (addr n : Z) : bool :=
  (0 <=? addr) && (0 <=? n) && (addr + n <=? size m).

(** Modelled from the spec: the [n] bytes of the missing [Memory] from
    [addr] on ("byte-addressable flat store"). *)
Definition read (m : t) (addr n : Z) : list Z :=
  (λ i, cells m (addr + i)) <$> seqZ 0 n.

(** Modelled from the spec: the cells of the missing [Memory] after
    [data] has been stored from [addr] on. *)
Definition write (c : Z → Z) (addr : Z) (data : list Z) : Z → Z :=
  λ a, if (addr <=? a) && (a <? addr + Z.of_nat (length data))
       then nth (Z.to_nat (a - addr)) data 0
       else c a.

(** Modelled from the spec: [Memory.get_bytes(addr, n)], which is
    missing; called as [mem.get_bytes(addr, n)] in [kernel.py] and as
    [mem.get(addr, n)] in [__init__.py] and [internals.py] ("byte
    read/write helpers"). *)
Definition get_bytes (m : t) (addr n : Z) : result (list Z) :=
  if in_range m addr n then Ok (read m addr n) else Raise MemoryFault.

(** Modelled from the spec: [Memory.set_bytes(addr, n, data)], which is
    missing; called as [mem.set_bytes(addr, n, data)] in [kernel.py] and
    as [mem.set(addr, data)] in [__init__.py] and [internals.py]. *)
Definition set_bytes (m : t) (addr : Z) (data : list Z) : result t :=
  if in_range m addr (Z.of_nat (length data))
  then Ok (mk (size m) (write (cells m) addr data) (program_break m))
  else Raise MemoryFault.

(** Modelled from the spec: [Memory.get(addr, n)] as [kernel.py] calls
    it, which is missing: the unsigned little-endian integer held by the
    [n] bytes ("32-bit little-endian fields"). *)
Definition get (m : t) (addr n : Z) : result Z :=
  data ← get_bytes m addr n;
  Ok (Util.to_int data false).

(** Modelled from the spec: [Memory.set(addr, n, value)] as [kernel.py]
    calls it, which is missing: a fixed-width little-endian store, the
    value truncated to [n] bytes. *)
Definition set (m : t) (addr n value : Z) : result t :=
  set_bytes m addr (Util.le_digits (Z.to_nat n) (value mod 2 ^ (8 * n))).

(** Modelled from the spec: [Memory.memset(addr, value, n)], which is
    missing: fills [n] bytes and returns [addr] ("grows break by length,
    zero-fills, returns old break"). *)
Definition memset (m : t) (addr value n : Z) : result (Z * t) :=
  m' ← set_bytes m addr (replicate (Z.to_nat n) value);
  Ok (addr, m').

(** the assignment [mem.program_break = brk] *)
Definition with_program_break (m : t) (brk : Z) : t :=
  mk (size m) (cells m) brk.

End Memory.

(** The register file belongs to the module [CPU].  The sources use it
    through [reg.get], [reg.set] and the attribute [reg.eax]. *)
Module Reg.

(** Modelled from the spec: the register file of the module [CPU], which
    is missing.  "8 general-purpose slots (conventionally EAX..EDI), each
    a 32-bit cell". *)
Definition t : Type := Z → Z.

(** Modelled from the spec: the missing register file at construction
    ("register file zeroed"). *)
Definition zero : t := λ _, 0.

(** Modelled from the spec: what a "32-bit cell" of the missing register
    file keeps of an integer. *)
Definition wrap32 (v : Z) : Z := v mod 2 ^ 32.

(** Modelled from the spec: a full-width store in slot [r] of the missing
    register file. *)
Definition upd (rf : t) (r v : Z) : t :=
  λ i, if i =? r then wrap32 v else rf i.

(** Modelled from the spec: the integer that the missing register file
    holds for index [r] at width [sz].  "addressable at 1/2/4-byte
    granularity using x86 sub-register aliasing rules (e.g., slot 0
    accessed as 1 byte = low byte, 2 bytes = low half, 4 bytes = full)":
    at width 1, indices 0..3 are the low bytes of slots 0..3 and indices
    4..7 the second bytes of slots 0..3. *)
Definition get_int (rf : t) (r sz : Z) : result Z :=
  if sz =? 4 then Ok (wrap32 (rf r))
  else if sz =? 2 then Ok (rf r mod 2 ^ 16)
  else if sz =? 1 then
    (if r <? 4 then Ok (rf r mod 2 ^ 8) else Ok ((rf (r - 4) / 2 ^ 8) mod 2 ^ 8))
  else Raise ValueError.

(** Modelled from the spec: storing the [sz]-byte integer [v] at index
    [r] of the missing register file, under the same aliasing rules. *)
Definition set_int (rf : t) (r sz v : Z) : result t :=
  if sz =? 4 then Ok (upd rf r v)
  else if sz =? 2 then
    Ok (upd rf r (wrap32 (rf r) / 2 ^ 16 * 2 ^ 16 + v mod 2 ^ 16))
  else if sz =? 1 then
    (if r <? 4
     then Ok (upd rf r (wrap32 (rf r) / 2 ^ 8 * 2 ^ 8 + v mod 2 ^ 8))
     else let old := wrap32 (rf (r - 4)) in
          Ok (upd rf (r - 4)
                (old / 2 ^ 16 * 2 ^ 16 + (v mod 2 ^ 8) * 2 ^ 8 + old mod 2 ^ 8)))
  else Raise ValueError.

(** Modelled from the spec: [reg.get(r, sz)] as [__init__.py] and
    [internals.py] call it, which is missing: the value as [sz]
    little-endian bytes. *)
Definition get (rf : t) (r sz : Z) : result (list Z) :=
  v ← get_int rf r sz;
  Ok (Util.le_digits (Z.to_nat sz) v).

(** Modelled from the spec: [reg.set(r, data)] as [__init__.py] and
    [internals.py] call it, which is missing: the width is the length of
    [data]. *)
Definition set (rf : t) (r : Z) (data : list Z) : result t :=
  set_int rf r (Z.of_nat (length data)) (Util.from_bytes_le data).

End Reg.

(** ** The host: file objects and the operating system *)

(** An entry of [VM.descriptors] that is not [None] is a Python file
    object.  The handlers first try [obj.fileno()] and fall back on the
    object's own [read]/[write] when that raises [AttributeError] or
    [UnsupportedOperation]:
    - [HostFile n] has a file number ([sys.stdin], the result of [open]);
    - [TextStream k] is a file-like object without one (an [io.StringIO]). *)
Inductive stream : Type :=
| HostFile (fileno : Z)
| TextStream (id : Z).

(** The calls the syscall layer makes on the host, in the order made. *)
Inductive host_call : Type :=
| CallRead (fileno count : Z)
| CallWrite (fileno : Z) (buf : list Z)
| CallLseek (fileno offset whence : Z)
| CallObjRead (s : stream) (count : Z)
| CallObjWrite (s : stream) (text : list Z)
| CallExists (pathname : list Z)
| CallOpen (pathname : list Z) (mode : string)
| CallClose (s : stream).

(** What the host answers: [os.read], [os.write], [os.lseek], the methods
    [read] and [write] (followed by [flush]) of a file object, on text
    given as code points, [os.path.exists], [open] and [close].  Each
    answer is a value or a raised exception; the theorems below hold for
    every host. *)
Record Host : Type := mkHost {
  os_read : Z → Z → result (list Z);
  os_write : Z → list Z → result Z;
  os_lseek : Z → Z → Z → result Z;
  obj_read : stream → Z → result (list Z);
  obj_write : stream → list Z → result (option Z);
  path_exists : list Z → bool;
  host_open : list Z → string → result stream;
  host_close : stream → result unit
}.

(** [io.UnsupportedOperation] derives from [OSError] *)
Definition is_OSError (e : exn) : bool :=
  match e with
  | OSError | UnsupportedOperation => true
  | _ => false
  end.

(** ** The class [VM] *)

Record VM : Type := mkVM {
  eip : Z;
  reg : Reg.t;
  mem : Memory.t;
  current_mode : nat;
  descriptors : list (option stream);
  running : bool;
  code_segment_end : Z;
  RETCODE : option Z;
  host_log : list host_call
}.

Definition with_eip (vm : VM) (v : Z) : VM :=
  mkVM v (reg vm) (mem vm) (current_mode vm) (descriptors vm) (running vm)
       (code_segment_end vm) (RETCODE vm) (host_log vm).
Definition with_reg (vm : VM) (rf : Reg.t) : VM :=
  mkVM (eip vm) rf (mem vm) (current_mode vm) (descriptors vm) (running vm)
       (code_segment_end vm) (RETCODE vm) (host_log vm).
Definition with_mem (vm : VM) (m : Memory.t) : VM :=
  mkVM (eip vm) (reg vm) m (current_mode vm) (descriptors vm) (running vm)
       (code_segment_end vm) (RETCODE vm) (host_log vm).
Definition with_descriptors (vm : VM) (d : list (option stream)) : VM :=
  mkVM (eip vm) (reg vm) (mem vm) (current_mode vm) d (running vm)
       (code_segment_end vm) (RETCODE vm) (host_log vm).
Definition with_exit (vm : VM) (code : Z) : VM :=
  mkVM (eip vm) (reg vm) (mem vm) (current_mode vm) (descriptors vm) false
       (code_segment_end vm) (Some code) (host_log vm).
Definition log_call (vm : VM) (c : host_call) : VM :=
  mkVM (eip vm) (reg vm) (mem vm) (current_mode vm) (descriptors vm) (running vm)
       (code_segment_end vm) (RETCODE vm) (host_log vm ++ [c]).

(** [self.sizes = (4, 2)], indexed by [self.current_mode] *)
Definition sizes : list Z := [4; 2].

Definition operand_size (vm : VM) : result Z :=
  match sizes !! current_mode vm with
  | Some sz => Ok sz
  | None => Raise IndexError
  end.

(** [sys.stdin], [sys.stdout], [sys.stderr] *)
Definition sys_stdin : stream := HostFile 0.
Definition sys_stdout : stream := HostFile 1.
Definition sys_stderr : stream := HostFile 2.

(** [VM.__init__(memsize)]: the mode, the three standard descriptors and
    the [running] flag are set as in [__init__.py].  The base class
    ("register file zeroed, memory sized") and the image loader, which
    sets [code_segment_end] and the break, are not part of the sources;
    the end of the loaded image is taken here as the argument [cse]. *)
Definition VM__init__ (memsize cse : Z) : VM :=
  {| eip := 0;
     reg := Reg.zero;
     mem := Memory.mk memsize (λ _, 0) cse;
     current_mode := 0;
     descriptors := [Some sys_stdin; Some sys_stdout; Some sys_stderr];
     running := true;
     code_segment_end := cse;
     RETCODE := None;
     host_log := [] |}.

(** An operand descriptor [(type, loc, size)] of [process_ModRM]. *)
Definition operand : Type := (bool * Z * Z)%type.

(** Modelled from the spec: the displacement read of [process_ModRM],
    which is missing: [n] bytes at EIP, signed ("displacement bytes from
    Memory at EIP, advancing EIP by the number of bytes consumed"). *)
Definition read_disp (n : Z) (vm : VM) : result (Z * VM) :=
  data ← Memory.get_bytes (mem vm) (eip vm) n;
  Ok (Util.to_int data true, with_eip vm (eip vm + n)).

(** Modelled from the spec: the base-plus-index form of [process_ModRM],
    which is missing ("computes a memory address from base (+
    index/displacement as encoded)"): the scale/index/base byte that
    follows a ModRM byte whose rm field is 4. *)
Definition sib_address (MOD : Z) (vm : VM) : result (Z * VM) :=
  data ← Memory.get_bytes (mem vm) (eip vm) 1;
  let sib := Util.to_int data false in
  let vm := with_eip vm (eip vm + 1) in
  let base := Z.land sib 7 in
  let index := Z.land (Z.shiftr sib 3) 7 in
  let scale := Z.shiftr sib 6 in
  '(b, vm) ← (if (base =? 5) && (MOD =? 0) then read_disp 4 vm
              else (v ← Reg.get_int (reg vm) base 4; Ok (v, vm)));
  i ← (if index =? 4 then Ok 0
       else (v ← Reg.get_int (reg vm) index 4; Ok (Z.shiftl v scale)));
  Ok (b + i, vm).

(** Modelled from the spec: [process_ModRM] of the module [misc], which
    is missing.  "consume one ModRM byte (and, if the addressing form
    requires it, displacement bytes) from Memory at EIP, advancing EIP by
    the number of bytes consumed, and return two operand descriptors";
    "mod==3 is register-direct (no memory touch, no displacement
    consumed); mod∈{0,1,2} computes a memory address from base (+
    index/displacement as encoded), with mod==0 and a reserved rm pattern
    read as pure displacement."  The second descriptor carries the ModRM
    reg field, the sub-opcode of a group opcode. *)
Definition process_ModRM (size1 size2 : Z) (vm : VM)
  : result (operand * operand * VM) :=
  data ← Memory.get_bytes (mem vm) (eip vm) 1;
  let ModRM := Util.to_int data false in
  let vm := with_eip vm (eip vm + 1) in
  let RM := Z.land ModRM 7 in
  let REG := Z.land (Z.shiftr ModRM 3) 7 in
  let MOD := Z.shiftr ModRM 6 in
  if MOD =? 3 then Ok ((false, RM, size1), (false, REG, size2), vm)
  else
    '(addr, vm) ← (if RM =? 4 then sib_address MOD vm
                   else if (MOD =? 0) && (RM =? 5) then read_disp 4 vm
                   else (v ← Reg.get_int (reg vm) RM 4; Ok (v, vm)));
    '(d, vm) ← (if MOD =? 1 then read_disp 1 vm
                else if MOD =? 2 then read_disp 4 vm
                else Ok (0, vm));
    Ok ((true, addr + d, size1), (false, REG, size2), vm).

(** Modelled from the spec: [stack_push] of the module [CPU], which is
    missing.  "push writes a fixed-width value to [ESP − width] then
    decrements a stack pointer register by width (ESP is itself GPR index
    4, manipulated through ordinary register read/modify/write)". *)
Definition stack_push (data : list Z) (vm : VM) : result VM :=
  let width := Z.of_nat (length data) in
  esp ← Reg.get_int (reg vm) 4 4;
  m ← Memory.set_bytes (mem vm) (esp - width) data;
  rf ← Reg.set_int (reg vm) 4 4 (esp - width);
  Ok (with_reg (with_mem vm m) rf).

(** Modelled from the spec: [stack_pop] of the module [CPU], which is
    missing.  "pop does the inverse, reading before incrementing." *)
Definition stack_pop (width : Z) (vm : VM) : result (list Z * VM) :=
  esp ← Reg.get_int (reg vm) 4 4;
  data ← Memory.get_bytes (mem vm) esp width;
  rf ← Reg.set_int (reg vm) 4 4 (esp + width);
  Ok (data, with_reg vm rf).

(** ** internals.py: the instruction semantics library

    [debug(...)] only formats a log line and is left out. *)

Module Internals.

Import Arith.

Definition _VM__mov_r_imm (off op : Z) (vm : VM) : result VM :=
  imm ← Memory.get_bytes (mem vm) (eip vm) off;
  let vm := with_eip vm (eip vm + off) in
  let r := Z.land op 7 in
  rf ← Reg.set (reg vm) r imm;
  Ok (with_reg vm rf).

Definition _VM__mov_rm_imm (off : Z) (vm : VM) : result (bool * VM) :=
  '(RM, R, vm) ← process_ModRM off off vm;
  if negb (R.1.2 =? 0) then Ok (false, vm) else
  let '(type, loc, _) := RM in
  imm ← Memory.get_bytes (mem vm) (eip vm) off;
  let vm := with_eip vm (eip vm + off) in
  if negb type then
    rf ← Reg.set (reg vm) loc imm;
    Ok (true, with_reg vm rf)
  else
    m ← Memory.set_bytes (mem vm) loc imm;
    Ok (true, with_mem vm m).

Definition _VM__mov_rm_r (off : Z) (vm : VM) : result VM :=
  '(RM, R, vm) ← process_ModRM off off vm;
  let '(type, loc, _) := RM in
  data ← Reg.get (reg vm) R.1.2 R.2;
  if negb type then
    rf ← Reg.set (reg vm) loc data;
    Ok (with_reg vm rf)
  else
    m ← Memory.set_bytes (mem vm) loc data;
    Ok (with_mem vm m).

Definition _VM__mov_r_rm (off : Z) (vm : VM) : result VM :=
  '(RM, R, vm) ← process_ModRM off off vm;
  let '(type, loc, sz) := RM in
  if negb type then
    data ← Reg.get (reg vm) loc sz;
    rf ← Reg.set (reg vm) R.1.2 data;
    Ok (with_reg vm rf)
  else
    data ← Memory.get_bytes (mem vm) loc sz;
    rf ← Reg.set (reg vm) R.1.2 data;
    Ok (with_reg vm rf).

(** "There's probably a bug here" *)
Definition _VM__mov_eax_moffs (off : Z) (vm : VM) : result VM :=
  raw ← Memory.get_bytes (mem vm) (eip vm) off;
  let loc := Util.to_int raw false in
  let vm := with_eip vm (eip vm + off) in
  data ← Memory.get_bytes (mem vm) loc off;
  rf ← Reg.set (reg vm) 0 data;
  Ok (with_reg vm rf).

Definition _VM__mov_moffs_eax (off : Z) (vm : VM) : result VM :=
  raw ← Memory.get_bytes (mem vm) (eip vm) off;
  let loc := Util.to_int raw false in
  let vm := with_eip vm (eip vm + off) in
  data ← Reg.get (reg vm) 0 off;
  m ← Memory.set_bytes (mem vm) loc data;
  Ok (with_mem vm m).

Definition _VM__jmp_rel (off : Z) (vm : VM) : result VM :=
  raw ← Memory.get_bytes (mem vm) (eip vm) off;
  let d := Util.to_int raw true in
  let vm := with_eip vm (eip vm + off) in
  Ok (with_eip vm (eip vm + d)).

Definition _VM__addsub_al_imm (off : Z) (sub : bool) (vm : VM) : result VM :=
  raw ← Memory.get_bytes (mem vm) (eip vm) off;
  let vm := with_eip vm (eip vm + off) in
  let imm := Util.to_int raw false in
  araw ← Reg.get (reg vm) 0 off;
  let a := Util.to_int araw false in
  tmp ← addsub_tmp off sub a imm;
  data ← Util.to_bytes tmp off;
  rf ← Reg.set (reg vm) 0 data;
  Ok (with_reg vm rf).

Definition _VM__addsub_rm_imm (off imm_sz : Z) (sub : bool) (vm : VM)
  : result (bool * VM) :=
  let old_eip := eip vm in
  '(RM, R, vm) ← process_ModRM off off vm;
  raw ← Memory.get_bytes (mem vm) (eip vm) imm_sz;
  let vm := with_eip vm (eip vm + off) in
  let imm := Util.to_int raw false in
  if negb sub && negb (R.1.2 =? 0) then Ok (false, with_eip vm old_eip)
  else if sub && negb (R.1.2 =? 5) then Ok (false, with_eip vm old_eip)
  else
  let '(type, loc, _) := RM in
  if negb type then
    araw ← Reg.get (reg vm) loc off;
    let a := Util.to_int araw false in
    tmp ← addsub_tmp off sub a imm;
    data ← Util.to_bytes tmp off;
    rf ← Reg.set (reg vm) loc data;
    Ok (true, with_reg vm rf)
  else
    araw ← Memory.get_bytes (mem vm) loc off;
    let a := Util.to_int araw false in
    tmp ← addsub_tmp off sub a imm;
    data ← Util.to_bytes tmp off;
    m ← Memory.set_bytes (mem vm) loc data;
    Ok (true, with_mem vm m).

Definition _VM__addsub_rm_r (off : Z) (sub : bool) (vm : VM) : result VM :=
  '(RM, R, vm) ← process_ModRM off off vm;
  let '(type, loc, _) := RM in
  if negb type then
    araw ← Reg.get (reg vm) loc off;
    braw ← Reg.get (reg vm) R.1.2 off;
    tmp ← addsub_tmp off sub (Util.to_int araw false) (Util.to_int braw false);
    data ← Util.to_bytes tmp off;
    rf ← Reg.set (reg vm) loc data;
    Ok (with_reg vm rf)
  else
    araw ← Memory.get_bytes (mem vm) loc off;
    braw ← Reg.get (reg vm) R.1.2 off;
    tmp ← addsub_tmp off sub (Util.to_int araw false) (Util.to_int braw false);
    data ← Util.to_bytes tmp off;
    m ← Memory.set_bytes (mem vm) loc data;
    Ok (with_mem vm m).

(** In the memory branch the source spells the sum out,
    [tmp = a + b] or [tmp = a + MAXVALS[off] + 1 - b], before the mask. *)
Definition _VM__addsub_r_rm (off : Z) (sub : bool) (vm : VM) : result VM :=
  '(RM, R, vm) ← process_ModRM off off vm;
  let '(type, loc, _) := RM in
  if negb type then
    araw ← Reg.get (reg vm) loc off;
    braw ← Reg.get (reg vm) R.1.2 off;
    tmp ← addsub_tmp off sub (Util.to_int araw false) (Util.to_int braw false);
    data ← Util.to_bytes tmp off;
    rf ← Reg.set (reg vm) R.1.2 data;
    Ok (with_reg vm rf)
  else
    araw ← Memory.get_bytes (mem vm) loc off;
    braw ← Reg.get (reg vm) R.1.2 off;
    let a := Util.to_int araw false in
    let b := Util.to_int braw false in
    tmp ← (if negb sub then Ok (a + b)
           else (m ← maxval off; Ok (a + m + 1 - b)));
    m ← maxval off;
    data ← Util.to_bytes (Z.land tmp m) off;
    rf ← Reg.set (reg vm) R.1.2 data;
    Ok (with_reg vm rf).

End Internals.

(** ** kernel.py: the syscall layer [SyscallsMixin]

    Each handler takes the host and the guest state.  A handler that
    returns yields the new state; [logger] calls are left out. *)

Module Kernel.

(** the code points of a Python [str] literal *)
Definition codes (s : string) : list Z :=
  (λ c, Z.of_N (Ascii.N_of_ascii c)) <$> String.list_ascii_of_string s.

(** [bytes.decode('ascii')] and [str.encode('ascii')] *)
Definition ascii_codec (data : list Z) : result (list Z) :=
  if forallb (λ b, b <? 128) data then Ok data else Raise UnicodeError.

(** [bytearray.decode()]: strict UTF-8.  [need] continuation bytes are
    still expected, the next one within [lo, hi].  A decoded [str] is
    represented by its UTF-8 bytes. *)
Fixpoint utf8_valid (need : nat) (lo hi : Z) (data : list Z) : bool :=
  match data with
  | [] => match need with O => true | S _ => false end
  | b :: rest =>
    match need with
    | S n => (lo <=? b) && (b <=? hi) && utf8_valid n 0x80 0xBF rest
    | O =>
      if b <=? 0x7F then utf8_valid 0 0x80 0xBF rest
      else if (0xC2 <=? b) && (b <=? 0xDF) then utf8_valid 1 0x80 0xBF rest
      else if b =? 0xE0 then utf8_valid 2 0xA0 0xBF rest
      else if b =? 0xED then utf8_valid 2 0x80 0x9F rest
      else if (0xE1 <=? b) && (b <=? 0xEF) then utf8_valid 2 0x80 0xBF rest
      else if b =? 0xF0 then utf8_valid 3 0x90 0xBF rest
      else if (0xF1 <=? b) && (b <=? 0xF3) then utf8_valid 3 0x80 0xBF rest
      else if b =? 0xF4 then utf8_valid 3 0x80 0x8F rest
      else false
    end
  end.

Definition decode (data : list Z) : result (list Z) :=
  if utf8_valid 0 0x80 0xBF data then Ok data else Raise UnicodeError.

(** The loop of [__read_string]: one iteration per unit of [fuel]. *)
Fixpoint read_string_loop (fuel : nat) (m : Memory.t) (address : Z)
  : result (list Z) :=
  match fuel with
  | O => Raise MemoryFault
  | S k =>
    byte ← Memory.get m address 1;
    if negb (byte =? 0) then
      rest ← read_string_loop k m (address + 1);
      Ok (byte :: rest)
    else Ok []
  end.

(** [__read_string(address)].  The loop reads one byte further at each
    turn, so it leaves the memory after at most [size - address] turns;
    that many turns and one more are granted. *)
Definition __read_string (address : Z) (vm : VM) : result (list Z) :=
  read_string_loop (S (Z.to_nat (Memory.size (mem vm) - address)))
                   (mem vm) address.

(** [__return(value)]: [self.reg.eax = value], a 32-bit cell *)
Definition __return (value : Z) (vm : VM) : VM :=
  with_reg vm (Reg.upd (reg vm) 0 value).

(** [__args(types)]: one full-width register read per character of
    [types], over [registers = [3, 1, 2, 6, 7]]; the characters
    themselves are not looked at. *)
Definition registers : list Z := [3; 1; 2; 6; 7].

Definition __args (types : string) (vm : VM) : list Z :=
  (λ r, Reg.wrap32 (reg vm r)) <$> take (String.length types) registers.

(** [self.descriptors[fd]] *)
Definition descriptor (vm : VM) (fd : Z) : result (option stream) :=
  match descriptors vm !! Z.to_nat fd with
  | Some d => Ok d
  | None => Raise IndexError
  end.

(** [self.descriptors[fd].fileno()] *)
Definition fileno (vm : VM) (fd : Z) : result Z :=
  d ← descriptor vm fd;
  match d with
  | None => Raise AttributeError
  | Some (HostFile n) => Ok n
  | Some (TextStream _) => Raise UnsupportedOperation
  end.

(** the clause [except (AttributeError, UnsupportedOperation)] *)
Definition no_fileno (e : exn) : bool :=
  match e with
  | AttributeError | UnsupportedOperation => true
  | _ => false
  end.

Definition exit_message (code : Z) : list Z :=
  codes "[!] Process exited with code " ++ codes (pretty code) ++ [10].

Definition sys_exit (h : Host) (vm : VM) : result VM :=
  match __args "s" vm with
  | [code] =>
    let vm := with_mem vm (Memory.with_program_break (mem vm) (code_segment_end vm)) in
    d ← descriptor vm 2;
    match d with
    | None => Raise AttributeError
    | Some s =>
      let vm := log_call vm (CallObjWrite s (exit_message code)) in
      _ ← obj_write h s (exit_message code);
      Ok (with_exit vm code)
    end
  | _ => Raise ValueError
  end.

Definition sys_exit_group (h : Host) (vm : VM) : result VM := sys_exit h vm.

Definition sys_read (h : Host) (vm : VM) : result VM :=
  match __args "uuu" vm with
  | [fd; data_addr; count] =>
    let finish (data : list Z) (vm : VM) : result VM :=
      let l := Z.of_nat (length data) in
      m ← Memory.set_bytes (mem vm) data_addr data;
      Ok (__return l (with_mem vm m)) in
    let handler (e : exn) (vm : VM) : result VM :=
      if no_fileno e then
        d ← descriptor vm fd;
        match d with
        | None => Raise AttributeError
        | Some s =>
          let vm := log_call vm (CallObjRead s count) in
          text ← obj_read h s count;
          data ← ascii_codec (text ++ [10]);
          finish data vm
        end
      else Ok (__return (-1) vm) in
    match fileno vm fd with
    | Ok n =>
      let vm := log_call vm (CallRead n count) in
      match os_read h n count with
      | Ok data => finish data vm
      | Raise e => handler e vm
      end
    | Raise e => handler e vm
    end
  | _ => Raise ValueError
  end.

Definition sys_write (h : Host) (vm : VM) : result VM :=
  match __args "uuu" vm with
  | [fd; buf_addr; count] =>
    buf ← Memory.get_bytes (mem vm) buf_addr count;
    let finish (ret : option Z) (vm : VM) : result VM :=
      let size := match ret with Some r => r | None => count end in
      Ok (__return size vm) in
    let fallback (vm : VM) : result VM :=
      d ← descriptor vm fd;
      match d with
      | None => Raise AttributeError
      | Some s =>
        text ← ascii_codec buf;
        let vm := log_call vm (CallObjWrite s text) in
        ret ← obj_write h s text;
        finish ret vm
      end in
    match fileno vm fd with
    | Ok n =>
      let vm := log_call vm (CallWrite n buf) in
      match os_write h n buf with
      | Ok ret => finish (Some ret) vm
      | Raise e => if no_fileno e then fallback vm else Raise e
      end
    | Raise e => if no_fileno e then fallback vm else Raise e
    end
  | _ => Raise ValueError
  end.

Definition sys_brk (vm : VM) : result VM :=
  match __args "u" vm with
  | [brk] =>
    let min_brk := code_segment_end vm in
    if brk <? min_brk then Ok (__return (Memory.program_break (mem vm)) vm)
    else
      let newbrk := brk in
      let oldbrk := Memory.program_break (mem vm) in
      if oldbrk =? newbrk then Ok (__return (Memory.program_break (mem vm)) vm)
      else
        let vm := with_mem vm (Memory.with_program_break (mem vm) brk) in
        Ok (__return (Memory.program_break (mem vm)) vm)
  | _ => Raise ValueError
  end.

Definition sys_llseek (h : Host) (vm : VM) : result VM :=
  match __args "uuuuu" vm with
  | [fd; offset_high; offset_low; result_addr; whence] =>
    let offset := Z.lor (Z.shiftl offset_high 32) offset_low in
    match fileno vm fd with
    | Ok n =>
      let vm := log_call vm (CallLseek n (Z.land offset 0xFFFFFFFF) whence) in
      match os_lseek h n (Z.land offset 0xFFFFFFFF) whence with
      | Ok ret =>
        m ← Memory.set (mem vm) result_addr 4 ret;
        Ok (__return 0 (with_mem vm m))
      | Raise e => if is_OSError e then Ok (__return (-1) vm) else Raise e
      end
    | Raise e => if is_OSError e then Ok (__return (-1) vm) else Raise e
    end
  | _ => Raise ValueError
  end.

(** [O_MODE]: the members the handler tests *)
Definition O_RDONLY : Z := 0.
Definition O_WRONLY : Z := 1.
Definition O_RDWR : Z := 2.
Definition O_TRUNC : Z := 512.       (* 0o00001000 *)
Definition O_LARGEFILE : Z := 32768. (* 0o00100000 *)

(** a flag test [if flags & MEMBER:] *)
Definition flag_set (flags member : Z) : bool := negb (Z.land flags member =? 0).

(** the search loop of [open_file]: the first index holding [None] *)
Fixpoint first_free (l : list (option stream)) (descr : nat) : option nat :=
  match l with
  | [] => None
  | None :: _ => Some descr
  | Some _ :: rest => first_free rest (S descr)
  end.

Definition open_file (h : Host) (name : list Z) (mode : string) (vm : VM)
  : result (Z * VM) :=
  let vm := log_call vm (CallOpen name mode) in
  match first_free (descriptors vm) 0 with
  | None =>
    let descriptor := Z.of_nat (length (descriptors vm)) in
    f ← host_open h name mode;
    Ok (descriptor, with_descriptors vm (descriptors vm ++ [Some f]))
  | Some descr =>
    f ← host_open h name mode;
    Ok (Z.of_nat descr, with_descriptors vm (<[descr := Some f]> (descriptors vm)))
  end.

Definition sys_open (h : Host) (vm : VM) : result VM :=
  match __args "usu" vm with
  | [pathname_addr; flags; mode] =>
    raw ← __read_string pathname_addr vm;
    pathname ← decode raw;
    if flag_set flags O_RDONLY then
      let vm := log_call vm (CallExists pathname) in
      if negb (path_exists h pathname) then Ok (__return (-1) vm)
      else
        '(descr, vm) ← open_file h pathname "r" vm;
        Ok (__return descr vm)
    else if flag_set flags O_WRONLY then
      '(descr, vm) ← (if flag_set flags O_TRUNC
                      then open_file h pathname "w" vm
                      else open_file h pathname "x" vm);
      Ok (__return descr vm)
    else if flag_set flags O_RDWR then
      '(descr, vm) ← open_file h pathname "r+" vm;
      Ok (__return descr vm)
    else if flag_set flags O_LARGEFILE then
      if bool_decide (take 4 pathname = codes "/etc") then Ok (__return (-1) vm)
      else
        '(descr, vm) ← open_file h pathname "r" vm;
        Ok (__return descr vm)
    else Ok (__return (-1) vm)
  | _ => Raise ValueError
  end.

Definition sys_close (h : Host) (vm : VM) : result VM :=
  match __args "u" vm with
  | [fd] =>
    if Z.of_nat (length (descriptors vm)) <=? fd then Ok (__return (-1) vm)
    else
      d ← descriptor vm fd;
      match d with
      | None => Ok (__return (-1) vm)
      | Some s =>
        let vm := log_call vm (CallClose s) in
        _ ← host_close h s;
        let vm := with_descriptors vm (<[Z.to_nat fd := None]> (descriptors vm)) in
        Ok (__return 0 vm)
      end
  | _ => Raise ValueError
  end.

(** [MAP_FLAGS(flags)] and [MAP_PROT(prot)]: the value that the
    [enum.Flag] member built from an integer holds.  [enum.Flag] is
    declared with [boundary=CONFORM] (CPython 3.11): the bits that no
    member has are dropped and the others are kept, [value & flag_mask],
    and no value is refused.  The members of [MAP_FLAGS] are 0x01, 0x02,
    0x10, 0 and 0x20 (mask [all] = 0x33); those of [MAP_PROT] are 1, 2, 4
    and 0 (mask 0x7). *)
Definition flag_value (all value : Z) : Z := Z.land value all.

Definition MAP_ANONYMOUS : Z := 0x20.

Definition sys_mmap_pgoff (vm : VM) : result VM :=
  match __args "uusss" vm with
  | [addr; length; prot; flags; fd] =>
    let flags := flag_value 0x33 flags in
    let prot := flag_value 0x7 prot in
    if flag_set flags MAP_ANONYMOUS then
      '(old_brk, m) ← Memory.memset (mem vm) (Memory.program_break (mem vm)) 0 length;
      let vm := with_mem vm m in
      let vm := with_mem vm (Memory.with_program_break (mem vm)
                               (Memory.program_break (mem vm) + length)) in
      Ok (__return old_brk vm)
    else Ok (__return (-1) vm)
  | _ => Raise ValueError
  end.

Definition sys_munmap (vm : VM) : result VM :=
  match __args "uu" vm with
  | [addr; length] =>
    let vm :=
      if addr + length =? Memory.program_break (mem vm)
      then with_mem vm (Memory.with_program_break (mem vm) addr)
      else vm in
    Ok (__return 0 vm)
  | _ => Raise ValueError
  end.

(** [struct_iovec = struct.Struct('<II')]: its size, and [unpack] on the
    8 bytes that [get_bytes] returns *)
Definition struct_iovec_size : Z := 8.

Definition struct_iovec_unpack (data : list Z) : Z * Z :=
  (Util.to_int (take 4 data) false, Util.to_int (drop 4 data) false).

(** The body of the [for x in range(iovcnt)] loop of [sys_writev], run
    [n] times: [iov_addr] and [size] are the loop's two variables. *)
Fixpoint writev_loop (h : Host) (n : nat) (fd iov_addr size : Z) (vm : VM)
  : result (Z * VM) :=
  match n with
  | O => Ok (size, vm)
  | S n' =>
    raw ← Memory.get_bytes (mem vm) iov_addr struct_iovec_size;
    let '(iov_base, iov_len) := struct_iovec_unpack raw in
    if iov_len =? 0 then
      writev_loop h n' fd (iov_addr + struct_iovec_size) size vm
    else
      buf ← Memory.get_bytes (mem vm) iov_base iov_len;
      let fallback (vm : VM) : result (option Z * VM) :=
        d ← descriptor vm fd;
        match d with
        | None => Raise AttributeError
        | Some s =>
          text ← ascii_codec buf;
          let vm := log_call vm (CallObjWrite s text) in
          ret ← obj_write h s text;
          Ok (ret, vm)
        end in
      '(ret, vm) ←
        match fileno vm fd with
        | Ok fno =>
          let vm := log_call vm (CallWrite fno buf) in
          match os_write h fno buf with
          | Ok ret => Ok (Some ret, vm)
          | Raise e => if no_fileno e then fallback vm else Raise e
          end
        | Raise e => if no_fileno e then fallback vm else Raise e
        end;
      let size := size + match ret with Some r => r | None => iov_len end in
      writev_loop h n' fd (iov_addr + struct_iovec_size) size vm
  end.

Definition sys_writev (h : Host) (vm : VM) : result VM :=
  match __args "sus" vm with
  | [fd; iov_addr; iovcnt] =>
    '(size, vm) ← writev_loop h (Z.to_nat iovcnt) fd iov_addr 0 vm;
    Ok (__return size vm)
  | _ => Raise ValueError
  end.

(** [struct.Struct('<HHHH').pack(256, 256, 0, 0)] *)
Definition winsize_packed : list Z := [0; 1; 0; 1; 0; 0; 0; 0].

(** [sys_ioctl]: [_IOC_TYPE], [_IOC_NR] and [_IOC_DIR] of the request;
    [b'T'] is the byte 0x54, and the member [_IOC_NONE] of [directions]
    has the value 0. *)
Definition _IOC_TYPE (nr : Z) : Z := Z.land (Z.shiftr nr 8) (Z.shiftl 1 8 - 1).
Definition _IOC_NR (nr : Z) : Z := Z.land (Z.shiftr nr 0) (Z.shiftl 1 8 - 1).
Definition _IOC_DIR (nr : Z) : Z := Z.land (Z.shiftr nr 30) (Z.shiftl 1 2 - 1).

Definition sys_ioctl (vm : VM) : result VM :=
  match __args "suu" vm with
  | [fd; request; data_addr] =>
    let request_type := _IOC_TYPE request in
    let request_number := _IOC_NR request in
    let request_direction := _IOC_DIR request in
    if (request_type =? 0x54) && ((request_number =? 19) && (request_direction =? 0)) then
      match descriptor vm fd with
      | Raise IndexError => Ok (__return (-1) vm)
      | Raise e => Raise e
      | Ok _ =>
        m ← Memory.set_bytes (mem vm) data_addr winsize_packed;
        Ok (__return 0 (with_mem vm m))
      end
    else Ok (__return (-1) vm)
  | _ => Raise ValueError
  end.

(** The table that [SyscallsMixin_Meta] builds from the [code=] default
    of every [sys_] method, [{y.__defaults__[0]: y}], for the handlers
    embedded here. *)
Definition syscalls : list (Z * (Host → VM → result VM)) :=
  [ (0x01, sys_exit);
    (0x03, sys_read);
    (0x04, sys_write);
    (0x2d, λ _, sys_brk);
    (0xfc, sys_exit_group);
    (0x92, sys_writev);
    (0x8c, sys_llseek);
    (0x36, λ _, sys_ioctl);
    (0x05, sys_open);
    (0x06, sys_close);
    (0xc0, λ _, sys_mmap_pgoff);
    (0x5b, λ _, sys_munmap) ].

End Kernel.

(** ** __init__.py: the mnemonic dispatchers of [VM]

    Each takes the opcode byte and answers [True] or [False], or raises.
    [_add] is not embedded: it calls [__add_al_imm], [__add_rm_imm],
    [__add_rm_r] and [__add_r_rm], names that [internals.py] does not
    define; the handlers [_VM__addsub_*] that [internals.py] does define
    are embedded above. *)

Module Dispatch.

Import Internals.

Definition in_range (lo hi op : Z) : bool := (lo <=? op) && (op <? hi).

Definition mask (sz : Z) : Z := Z.shiftl 1 (sz * 8) - 1.

Definition _mov (op : Z) (vm : VM) : result (bool * VM) :=
  sz ← operand_size vm;
  if in_range 0xB0 0xB8 op then
    vm ← _VM__mov_r_imm 1 op vm; Ok (true, vm)
  else if in_range 0xB8 (0xB8 + 8) op then
    vm ← _VM__mov_r_imm sz op vm; Ok (true, vm)
  else if op =? 0xC6 then _VM__mov_rm_imm 1 vm
  else if op =? 0xC7 then _VM__mov_rm_imm sz vm
  else if op =? 0x88 then
    vm ← _VM__mov_rm_r 1 vm; Ok (true, vm)
  else if op =? 0x89 then
    vm ← _VM__mov_rm_r sz vm; Ok (true, vm)
  else if op =? 0x8A then
    vm ← _VM__mov_r_rm 1 vm; Ok (true, vm)
  else if op =? 0x8B then
    vm ← _VM__mov_r_rm sz vm; Ok (true, vm)
  else if op =? 0x8C then
    Raise (RuntimeError "Segment registers not implemented yet")
  else if op =? 0x8E then
    Raise (RuntimeError "Segment registers not implemented yet")
  else Ok (false, vm).

Definition _jmp (op : Z) (vm : VM) : result (bool * VM) :=
  sz ← operand_size vm;
  if op =? 0xEB then
    vm ← _VM__jmp_rel 1 vm; Ok (true, vm)
  else if op =? 0xE9 then
    vm ← _VM__jmp_rel sz vm; Ok (true, vm)
  else if op =? 0xFF then
    '(RM, R, vm) ← process_ModRM sz sz vm;
    if R.1.2 =? 4 then
      d ← Memory.get_bytes (mem vm) (eip vm) sz;
      Ok (true, with_eip vm (Z.land (Util.to_int d false) (mask sz)))
    else if R.1.2 =? 5 then
      _d ← Memory.get_bytes (mem vm) (eip vm) sz;
      d ← Memory.get_bytes (mem vm) (Util.to_int _d false) sz;
      Ok (true, with_eip vm (Z.land (Util.to_int d false) (mask sz)))
    else Ok (false, vm)
  else if op =? 0xEA then
    Raise (RuntimeError "Jumps to pointers not implemented yet")
  else Ok (false, vm).

Definition _push (op : Z) (vm : VM) : result (bool * VM) :=
  sz ← operand_size vm;
  if op =? 0xFF then
    '(RM, R, vm) ← process_ModRM sz sz vm;
    if negb (R.1.2 =? 6) then Ok (false, vm) else
    let '(type, loc, _) := RM in
    data ← (if negb type then Reg.get (reg vm) loc sz
            else Memory.get_bytes (mem vm) loc sz);
    vm ← stack_push data vm; Ok (true, vm)
  else if in_range 0x50 0x58 op then
    let loc := Z.land op 7 in
    data ← Reg.get (reg vm) loc sz;
    vm ← stack_push data vm; Ok (true, vm)
  else if op =? 0x6A then
    data ← Memory.get_bytes (mem vm) (eip vm) 1;
    let vm := with_eip vm (eip vm + 1) in
    vm ← stack_push data vm; Ok (true, vm)
  else if op =? 0x68 then
    data ← Memory.get_bytes (mem vm) (eip vm) sz;
    let vm := with_eip vm (eip vm + sz) in
    vm ← stack_push data vm; Ok (true, vm)
  else Ok (false, vm).

Definition _pop (op : Z) (vm : VM) : result (bool * VM) :=
  sz ← operand_size vm;
  if op =? 0x8F then
    '(RM, R, vm) ← process_ModRM sz sz vm;
    if negb (R.1.2 =? 0) then Ok (false, vm) else
    let '(type, loc, _) := RM in
    '(data, vm) ← stack_pop sz vm;
    if negb type then
      rf ← Reg.set (reg vm) loc data; Ok (true, with_reg vm rf)
    else
      rf ← Reg.set (reg vm) loc data; Ok (true, with_reg vm rf)
  else if in_range 0x58 (0x58 + 8) op then
    let loc := Z.land op 7 in
    '(data, vm) ← stack_pop sz vm;
    rf ← Reg.set (reg vm) loc data; Ok (true, with_reg vm rf)
  else Ok (false, vm).

Definition _call (op : Z) (vm : VM) : result (bool * VM) :=
  sz ← operand_size vm;
  if op =? 0xE8 then
    raw ← Memory.get_bytes (mem vm) (eip vm) sz;
    let vm := with_eip vm (eip vm + sz) in
    let dest := Z.land (Util.to_int raw true) (mask sz) in
    let tmpEIP := eip vm + dest in
    ret ← Util.to_bytes_signed (eip vm) sz;
    vm ← stack_push ret vm;
    Ok (true, with_eip vm tmpEIP)
  else if op =? 0xFF then
    '(RM, R, vm) ← process_ModRM sz sz vm;
    let '(type, loc, _) := RM in
    if R.1.2 =? 2 then
      dest ← (if negb type then Reg.get (reg vm) loc sz
              else Memory.get_bytes (mem vm) loc sz);
      let tmpEIP := Z.land (Util.to_int dest true) (mask sz) in
      ret ← Util.to_bytes_signed (eip vm) sz;
      vm ← stack_push ret vm;
      Ok (true, with_eip vm tmpEIP)
    else if R.1.2 =? 3 then
      Raise (RuntimeError "far calls (mem) not implemented yet")
    else Ok (false, vm)
  else if op =? 0x9A then
    Raise (RuntimeError "far calls (ptr) not implemented yet")
  else Ok (false, vm).

Definition _ret (op : Z) (vm : VM) : result (bool * VM) :=
  sz ← operand_size vm;
  if op =? 0xC3 then
    '(raw, vm) ← stack_pop sz vm;
    Ok (true, with_eip vm (Z.land (Util.to_int raw true) (mask sz)))
  else if op =? 0xC2 then
    '(raw, vm) ← stack_pop sz vm;
    let vm := with_eip vm (Z.land (Util.to_int raw true) (mask sz)) in
    nraw ← Memory.get_bytes (mem vm) (eip vm) sz;
    let nbytes_to_pop := Util.to_int nraw false in
    let vm := with_eip vm (eip vm + sz) in
    '(_, vm) ← stack_pop nbytes_to_pop vm;
    Ok (true, vm)
  else if op =? 0xCB then
    Raise (RuntimeError "far returns not implemented yet")
  else if op =? 0xCA then
    Raise (RuntimeError "far returns (imm) not implemented yet")
  else Ok (false, vm).

(** [from .kernel import __sys_exit, __sys_read, __sys_write]: the three
    names that [interrupt] calls.  [kernel.py] defines no function of
    these names (its handlers are the methods [sys_exit], [sys_read] and
    [sys_write] of [SyscallsMixin]), so nothing is known of what they do:
    [interrupt] is taken over whatever the three names are bound to, a
    call without arguments that returns or raises. *)
Record imported : Type := mkImported {
  __sys_exit : VM → result VM;
  __sys_read : VM → result VM;
  __sys_write : VM → result VM
}.

(** [interrupt(code)]; [valid_syscalls] is the dictionary
    [{0x1: self.__sys_exit, 0x3: self.__sys_read, 0x4: self.__sys_write}],
    and a number that is no key of it raises [KeyError]. *)
Definition interrupt (k : imported) (code : Z) (vm : VM) : result VM :=
  if negb (code =? 0x80) then
    Raise (RuntimeError ("Invalid interrupt: " +:+ HexString.of_Z code))
  else
    raw ← Reg.get (reg vm) 0 4;
    let syscall := Util.to_int raw false in
    if syscall =? 0x1 then __sys_exit k vm
    else if syscall =? 0x3 then __sys_read k vm
    else if syscall =? 0x4 then __sys_write k vm
    else Raise KeyError.

Definition _int (k : imported) (h : Host) (op : Z) (vm : VM)
  : result (bool * VM) :=
  if op =? 0xCC then
    let text := Kernel.codes "[!] It's a trap! (literally)" in
    let vm := log_call vm (CallObjWrite sys_stderr text) in
    _ ← obj_write h sys_stderr text;
    Ok (true, vm)
  else if op =? 0xCD then
    raw ← Memory.get_bytes (mem vm) (eip vm) 1;
    let imm := Util.to_int raw false in
    let vm := with_eip vm (eip vm + 1) in
    vm ← interrupt k imm vm;
    Ok (true, vm)
  else Ok (false, vm).

End Dispatch.


(** ** Vocabulary of the statements *)

(** the operand widths of the instruction set *)
Definition width (w : Z) : Prop := w = 1 ∨ w = 2 ∨ w = 4.

(** a memory of [size] bytes holding [image] from address 0 on, zero
    elsewhere: the shape of a loaded image, used for the concrete runs *)
Definition memory_of (size : Z) (image : list Z) (brk : Z) : Memory.t :=
  Memory.mk size (λ a, if a <? 0 then 0 else nth (Z.to_nat a) image 0) brk.

(** a machine as constructed, with the given image, registers and
    watermarks *)
Definition machine (size : Z) (image : list Z) (rf : Reg.t) (cse brk : Z) : VM :=
  with_reg (with_mem (VM__init__ size cse) (memory_of size image brk)) rf.

(** a register file given by the list of its eight slots *)
Definition regs_of (slots : list Z) : Reg.t :=
  λ r, if r <? 0 then 0 else nth (Z.to_nat r) slots 0.

(** the accumulator, [reg.eax] *)
Definition eax (vm : VM) : Z := reg vm 0.

(** what the 32-bit accumulator holds after [__return(-1)] *)
Definition minus_one : Z := Reg.wrap32 (-1).

(** the program break, [mem.program_break] *)
Definition program_break (vm : VM) : Z := Memory.program_break (mem vm).

(** the bytes [raw], none of them zero, lie at [addr] and a zero byte
    follows them, all within the memory: a C string *)
Definition c_string_at (m : Memory.t) (addr : Z) (raw : list Z) : Prop :=
  0 ≤ addr ∧ addr + Z.of_nat (length raw) < Memory.size m ∧
  Memory.read m addr (Z.of_nat (length raw)) = raw ∧
  Forall (λ b, b ≠ 0) raw ∧
  Memory.cells m (addr + Z.of_nat (length raw)) = 0.

(** a host for the concrete runs: reads find nothing, a write takes the
    whole buffer, a seek lands on the offset asked for, every path
    exists, [open] yields the file numbered 9 *)
Definition plain_host : Host :=
  {| os_read := λ _ _, Ok [];
     os_write := λ _ buf, Ok (Z.of_nat (length buf));
     os_lseek := λ _ offset _, Ok offset;
     obj_read := λ _ _, Ok [];
     obj_write := λ _ _, Ok None;
     path_exists := λ _, true;
     host_open := λ _ _, Ok (HostFile 9);
     host_close := λ _, Ok () |}.

(** a host on which every call fails with [OSError] and no path exists *)
Definition failing_host : Host :=
  {| os_read := λ _ _, Raise OSError;
     os_write := λ _ _, Raise OSError;
     os_lseek := λ _ _ _, Raise OSError;
     obj_read := λ _ _, Raise OSError;
     obj_write := λ _ _, Raise OSError;
     path_exists := λ _, false;
     host_open := λ _ _, Raise OSError;
     host_close := λ _, Raise OSError |}.

(** the unsigned integer that a resolved operand [(type, loc, size)]
    holds at width [w]: the [w] bytes of memory at [loc] when [type] is
    set, register [loc] otherwise *)
Definition operand_value (vm : VM) (o : operand) (w : Z) : result Z :=
  if o.1.1 then Memory.get (mem vm) o.1.2 w else Reg.get_int (reg vm) o.1.2 w.

(** three handlers for the names that [interrupt] calls, each of which
    returns at once *)
Definition idle_imports : Dispatch.imported :=
  {| Dispatch.__sys_exit := Ok;
     Dispatch.__sys_read := Ok;
     Dispatch.__sys_write := Ok |}.

(** what no syscall handler changes: the instruction pointer, the end of
    the code segment, the mode and the size of the memory; and the
    descriptor table never gets shorter *)
Definition keeps_frame (vm vm' : VM) : Prop :=
  eip vm' = eip vm ∧
  code_segment_end vm' = code_segment_end vm ∧
  current_mode vm' = current_mode vm ∧
  Memory.size (mem vm') = Memory.size (mem vm) ∧
  (length (descriptors vm) ≤ length (descriptors vm'))%nat.

(** the signed range of [w] bytes *)
Definition signed_range (w n : Z) : Prop :=
  - 2 ^ (8 * w - 1) ≤ n < 2 ^ (8 * w - 1).

(** the mnemonics that have a dispatcher here, and their dispatchers *)
Inductive mnemonic : Type := Mov | Jmp | Int | Push | Pop | Call | Ret.

Definition dispatch (k : Dispatch.imported) (h : Host) (m : mnemonic)
    (op : Z) (vm : VM) : result (bool * VM) :=
  match m with
  | Mov => Dispatch._mov op vm
  | Jmp => Dispatch._jmp op vm
  | Int => Dispatch._int k h op vm
  | Push => Dispatch._push op vm
  | Pop => Dispatch._pop op vm
  | Call => Dispatch._call op vm
  | Ret => Dispatch._ret op vm
  end.

(** the sub-opcode that a group opcode finds at EIP: the reg field that
    the resolver returns *)
Definition subopcode (vm : VM) : option Z :=
  match operand_size vm with
  | Ok sz =>
    match process_ModRM sz sz vm with
    | Ok (_, R, _) => Some R.1.2
    | Raise _ => None
    end
  | Raise _ => None
  end.

(** the opcodes, and for a group opcode the sub-opcodes, on which a
    dispatcher can answer [True] *)
Definition decodes (m : mnemonic) (op : Z) (vm : VM) : Prop :=
  match m with
  | Mov => 0xB0 ≤ op < 0xC0 ∨ op = 0xC6 ∧ (∃ vm1 RM R, process_ModRM 1 1 vm = Ok (RM, R, vm1) ∧ R.1.2 = 0)
           ∨ op = 0xC7 ∧ subopcode vm = Some 0 ∨ 0x88 ≤ op ≤ 0x8B
  | Jmp => op = 0xEB ∨ op = 0xE9 ∨
           op = 0xFF ∧ (subopcode vm = Some 4 ∨ subopcode vm = Some 5)
  | Int => op = 0xCC ∨ op = 0xCD
  | Push => op = 0xFF ∧ subopcode vm = Some 6 ∨ 0x50 ≤ op < 0x58 ∨
            op = 0x6A ∨ op = 0x68
  | Pop => op = 0x8F ∧ subopcode vm = Some 0 ∨ 0x58 ≤ op < 0x60
  | Call => op = 0xE8 ∨ op = 0xFF ∧ subopcode vm = Some 2
  | Ret => op = 0xC3 ∨ op = 0xC2
  end.

(** the buffers that the [n] iovec records from [iov_addr] on describe,
    in order, those of length zero left out *)
Fixpoint iov_buffers (m : Memory.t) (n : nat) (iov_addr : Z)
  : result (list (list Z)) :=
  match n with
  | O => Ok []
  | S n' =>
    raw ← Memory.get_bytes m iov_addr Kernel.struct_iovec_size;
    let '(iov_base, iov_len) := Kernel.struct_iovec_unpack raw in
    if iov_len =? 0 then iov_buffers m n' (iov_addr + Kernel.struct_iovec_size)
    else
      buf ← Memory.get_bytes m iov_base iov_len;
      rest ← iov_buffers m n' (iov_addr + Kernel.struct_iovec_size);
      Ok (buf :: rest)
  end.

(** the number of bytes in a list of buffers *)
Definition total_length (bufs : list (list Z)) : Z :=
  foldr (λ buf acc, Z.of_nat (length buf) + acc) 0 bufs.

(** a state after a sequence of host calls has been logged *)
Definition logged (vm : VM) (calls : list host_call) : VM :=
  fold_left log_call calls vm.

(** whether a request is the one that [sys_ioctl] answers: type 'T',
    number 19, direction none; the size field is not looked at *)
Definition asks_winsize (request : Z) : bool :=
  (Kernel._IOC_TYPE request =? 0x54) &&
  ((Kernel._IOC_NR request =? 19) && (Kernel._IOC_DIR request =? 0)).

(** * Properties *)

(** ** Fixed-width arithmetic *)

Section Arithmetic.

Import Arith.

Lemma maxval_width (w : Z) : width w → maxval w = Ok (2 ^ (8 * w) - 1).
Proof. intros [-> | [-> | ->]]; reflexivity. Qed.

Lemma land_maxval (x n : Z) : 0 ≤ n → Z.land x (2 ^ n - 1) = x mod 2 ^ n.
Proof.
  intros Hn. rewrite <- Z.land_ones by assumption.
  f_equal. rewrite Z.ones_equiv. lia.
Qed.

Lemma addsub_tmp_add (w a b : Z) :
  width w → addsub_tmp w false a b = Ok ((a + b) mod 2 ^ (8 * w)).
Proof.
  intros Hw. unfold addsub_tmp. rewrite (maxval_width w Hw). simpl.
  f_equal. apply land_maxval. destruct Hw as [-> | [-> | ->]]; lia.
Qed.

Lemma addsub_tmp_sub (w a b : Z) :
  width w → addsub_tmp w true a b = Ok ((a + (2 ^ (8 * w) - b)) mod 2 ^ (8 * w)).
Proof.
  intros Hw. unfold addsub_tmp. rewrite (maxval_width w Hw). simpl.
  f_equal. rewrite land_maxval by (destruct Hw as [-> | [-> | ->]]; lia).
  f_equal. lia.
Qed.

Lemma complement_sub (n a b : Z) : (a + (n - b)) mod n = (a - b) mod n.
Proof.
  destruct (Z.eq_dec n 0) as [-> | Hn].
  - rewrite !Z.mod_0_r. lia.
  - replace (a + (n - b)) with (a - b + 1 * n) by lia.
    apply Z.mod_add. assumption.
Qed.

(** The arithmetic of the handlers at a width w of 1, 2 or 4 bytes:
    ADD yields (a + b) mod 2^(8w), SUB yields (a - b) mod 2^(8w), which
    it computes as (a + (2^(8w) - b)) mod 2^(8w), with no borrow. *)
Lemma addsub_tmp_modular (w a b : Z) :
  width w →
  addsub_tmp w false a b = Ok ((a + b) mod 2 ^ (8 * w)) ∧
  addsub_tmp w true a b = Ok ((a - b) mod 2 ^ (8 * w)) ∧
  addsub_tmp w true a b = Ok ((a + (2 ^ (8 * w) - b)) mod 2 ^ (8 * w)).
Proof.
  intros Hw. repeat split.
  - apply addsub_tmp_add, Hw.
  - rewrite addsub_tmp_sub by exact Hw. f_equal. apply complement_sub.
  - apply addsub_tmp_sub, Hw.
Qed.

End Arithmetic.

(** ** Reasoning about [result] *)

Section ResultMonad.

Context {A B : Type}.

Lemma bind_Ok (k : A → result B) (a : A) : (x ← Ok a; k x) = k a.
Proof. reflexivity. Qed.

Lemma bind_Raise (k : A → result B) (e : exn) : (x ← Raise e; k x) = Raise e.
Proof. reflexivity. Qed.

Lemma bind_Ok_inv (k : A → result B) (r : result A) (b : B) :
  (x ← r; k x) = Ok b → ∃ a, r = Ok a ∧ k a = Ok b.
Proof. destruct r as [a | e]; [eauto | discriminate]. Qed.

End ResultMonad.

(** [bind_inv H] opens a successful sequence into its successful steps. *)
Ltac bind_inv H :=
  let a := fresh "a" in
  let Ha := fresh "Ha" in
  apply bind_Ok_inv in H as (a & Ha & H).

(** ** The operand resolver *)

Section Resolver.

Lemma get_bytes_Ok (m : Memory.t) (addr n : Z) (data : list Z) :
  Memory.get_bytes m addr n = Ok data →
  0 ≤ addr ∧ 0 ≤ n ∧ addr + n ≤ Memory.size m ∧ data = Memory.read m addr n.
Proof.
  unfold Memory.get_bytes, Memory.in_range.
  destruct (0 <=? addr) eqn:Ha, (0 <=? n) eqn:Hn,
           (addr + n <=? Memory.size m) eqn:Hs; simpl; try discriminate.
  intros [= <-]. repeat split; lia.
Qed.

Lemma read_disp_eip (n : Z) (vm vm' : VM) (d : Z) :
  read_disp n vm = Ok (d, vm') → eip vm' = eip vm + n ∧ 0 ≤ n.
Proof.
  unfold read_disp. intros H. bind_inv H.
  apply get_bytes_Ok in Ha as (_ & Hn & _). injection H as _ <-.
  split; [reflexivity | exact Hn].
Qed.

Lemma sib_address_eip (MOD : Z) (vm vm' : VM) (addr : Z) :
  sib_address MOD vm = Ok (addr, vm') → eip vm + 1 ≤ eip vm'.
Proof.
  unfold sib_address. intros H. bind_inv H. bind_inv H.
  destruct a0 as [b vm1]. bind_inv H. injection H as _ <-.
  destruct ((_ =? 5) && (MOD =? 0)).
  - apply read_disp_eip in Ha0 as [-> _]. simpl. lia.
  - bind_inv Ha0. injection Ha0 as _ <-. simpl. lia.
Qed.

(** The resolver consumes at least the ModRM byte. *)
Lemma process_ModRM_eip (s1 s2 : Z) (vm vm' : VM) (RM R : operand) :
  process_ModRM s1 s2 vm = Ok (RM, R, vm') → eip vm + 1 ≤ eip vm'.
Proof.
  unfold process_ModRM. intros H. bind_inv H.
  destruct (_ =? 3).
  - injection H as _ _ <-. simpl. lia.
  - bind_inv H. destruct a0 as [addr vm1]. bind_inv H.
    destruct a0 as [d vm2]. injection H as _ _ <-.
    assert (eip vm + 1 ≤ eip vm1) as H1.
    { destruct (_ =? 4).
      - apply sib_address_eip in Ha0. simpl in Ha0. lia.
      - destruct ((_ =? 0) && (_ =? 5)).
        + apply read_disp_eip in Ha0 as [-> _]. simpl. lia.
        + bind_inv Ha0. injection Ha0 as _ <-. simpl. lia. }
    assert (eip vm1 ≤ eip vm2) as H2.
    { destruct (_ =? 1).
      - apply read_disp_eip in Ha1 as [-> _]. lia.
      - destruct (_ =? 2).
        + apply read_disp_eip in Ha1 as [-> _]. lia.
        + injection Ha1 as _ <-. lia. }
    lia.
Qed.

End Resolver.

(** ** The dispatchers and the instruction pointer *)

Section Rollback.

Import Internals Dispatch.

(** a handler that answers [True] through [vm ← run; Ok (true, vm)] never
    answers [False] *)
Lemma accept_not_false (run : result VM) (vm' : VM) :
  (vm ← run; Ok (true, vm)) = Ok (false, vm') → False.
Proof. destruct run; discriminate. Qed.

Lemma mov_rm_imm_mismatch (off : Z) (vm vm1 : VM) (RM R : operand) :
  process_ModRM off off vm = Ok (RM, R, vm1) → R.1.2 ≠ 0 →
  _VM__mov_rm_imm off vm = Ok (false, vm1).
Proof.
  intros HM HR. unfold _VM__mov_rm_imm. rewrite HM. simpl.
  destruct (R.1.2 =? 0) eqn:E; [lia | reflexivity].
Qed.

(** The sibling handler of ADD/SUB saves [old_eip] and restores it on a
    sub-opcode mismatch. *)
Lemma addsub_rm_imm_rollback (off imm_sz : Z) (sub : bool) (vm vm' : VM) :
  _VM__addsub_rm_imm off imm_sz sub vm = Ok (false, vm') → eip vm' = eip vm.
Proof.
  unfold _VM__addsub_rm_imm. intros H. bind_inv H.
  destruct a as [[RM R] vm1]. cbv beta iota in H. bind_inv H.
  destruct (negb sub && negb (R.1.2 =? 0)); [injection H as <-; reflexivity |].
  destruct (sub && negb (R.1.2 =? 5)); [injection H as <-; reflexivity |].
  destruct RM as [[[] loc] ?]; simpl in H; do 4 bind_inv H; discriminate.
Qed.

(** Outside the two group opcodes, [_mov] answers [False] only from the
    last [else], with the state as it was. *)
Lemma mov_false_untouched (op : Z) (vm vm' : VM) :
  op ≠ 0xC6 → op ≠ 0xC7 → _mov op vm = Ok (false, vm') → vm' = vm.
Proof.
  intros H6 H7. unfold _mov. intros H. bind_inv H.
  repeat match type of H with
  | (if ?c then _ else _) = _ => destruct c eqn:?
  | (vm ← _; Ok (true, vm)) = Ok (false, _) =>
      exfalso; exact (accept_not_false _ _ H)
  end; try discriminate; try lia.
  injection H as <-. reflexivity.
Qed.

(** [_ret] and [_int] read nothing before they know the opcode: their
    [False] comes from the last [else], with the state as it was. *)
Lemma ret_false_untouched (op : Z) (vm vm' : VM) :
  _ret op vm = Ok (false, vm') → vm' = vm.
Proof.
  unfold _ret. intros H. bind_inv H.
  destruct (op =? 0xC3).
  { bind_inv H. destruct a0. discriminate. }
  destruct (op =? 0xC2).
  { bind_inv H. destruct a0. cbv beta iota zeta in H. bind_inv H. bind_inv H.
    destruct a1. discriminate. }
  destruct (op =? 0xCB); [discriminate |].
  destruct (op =? 0xCA); [discriminate |].
  injection H as <-. reflexivity.
Qed.

Lemma int_false_untouched (k : imported) (h : Host) (op : Z) (vm vm' : VM) :
  _int k h op vm = Ok (false, vm') → vm' = vm.
Proof.
  unfold _int. intros H.
  destruct (op =? 0xCC); [bind_inv H; discriminate |].
  destruct (op =? 0xCD).
  { bind_inv H. exfalso. exact (accept_not_false _ _ H). }
  injection H as <-. reflexivity.
Qed.

(** C1: a dispatcher that resolves a ModRM byte and then refuses the
    sub-opcode answers [False] with EIP left where the resolver put it,
    past the bytes read: for [_mov] (0xC7), [_pop] (0x8F), [_push],
    [_jmp] and [_call] (0xFF), EIP after the call differs from EIP at
    entry. *)
Theorem dispatch_no_rollback (vm vm1 : VM) (sz : Z) (RM R : operand) :
  operand_size vm = Ok sz →
  process_ModRM sz sz vm = Ok (RM, R, vm1) →
  eip vm1 ≠ eip vm ∧
  (R.1.2 ≠ 0 → _mov 0xC7 vm = Ok (false, vm1) ∧ _pop 0x8F vm = Ok (false, vm1)) ∧
  (R.1.2 ≠ 6 → _push 0xFF vm = Ok (false, vm1)) ∧
  (R.1.2 ≠ 4 → R.1.2 ≠ 5 → _jmp 0xFF vm = Ok (false, vm1)) ∧
  (R.1.2 ≠ 2 → R.1.2 ≠ 3 → _call 0xFF vm = Ok (false, vm1)).
Proof.
  intros Hsz HM. pose proof (process_ModRM_eip _ _ _ _ _ _ HM) as Heip.
  split; [lia |]. split; [| split; [| split]].
  - intros HR. split.
    + unfold _mov. rewrite Hsz. simpl. eapply mov_rm_imm_mismatch; eassumption.
    + unfold _pop. rewrite Hsz. simpl. rewrite HM. simpl.
      destruct (R.1.2 =? 0) eqn:E; [lia | reflexivity].
  - intros HR. unfold _push. rewrite Hsz. simpl. rewrite HM. simpl.
    destruct (R.1.2 =? 6) eqn:E; [lia | reflexivity].
  - intros H4 H5. unfold _jmp. rewrite Hsz. simpl. rewrite HM. simpl.
    destruct (R.1.2 =? 4) eqn:E4; [lia |].
    destruct (R.1.2 =? 5) eqn:E5; [lia | reflexivity].
  - intros H2 H3. unfold _call. rewrite Hsz. simpl. rewrite HM. simpl.
    destruct RM as [[type loc] ?].
    destruct (R.1.2 =? 2) eqn:E2; [lia |].
    destruct (R.1.2 =? 3) eqn:E3; [lia | reflexivity].
Qed.

(** The opcode byte has been fetched; EIP = 0 points at the ModRM byte
    0xC8 (mod = 3, reg = 1, rm = 0). *)
Lemma dispatch_no_rollback_witness :
  let vm := machine 16 [0xC8] Reg.zero 0 0 in
  let vm1 := with_eip vm 1 in
  eip vm = 0 ∧ eip vm1 = 1 ∧
  eip vm1 ≠ eip vm ∧
  _mov 0xC7 vm = Ok (false, vm1) ∧
  _pop 0x8F vm = Ok (false, vm1) ∧
  _push 0xFF vm = Ok (false, vm1) ∧
  _jmp 0xFF vm = Ok (false, vm1) ∧
  _call 0xFF vm = Ok (false, vm1).
Proof.
  intros vm vm1.
  destruct (dispatch_no_rollback vm vm1 4 (false, 0, 4) (false, 1, 4))
    as (H0 & H1 & H2 & H3 & H4); [reflexivity | reflexivity |].
  split; [reflexivity |]. split; [reflexivity |]. split; [exact H0 |].
  split; [apply H1; simpl; lia |].
  split; [apply H1; simpl; lia |].
  split; [apply H2; simpl; lia |].
  split; [apply H3; simpl; lia | apply H4; simpl; lia].
Defined.

(** The same for the byte-sized form 0xC6, run on the machine above:
    [_mov] answers [False] and EIP is 1, not 0. *)
Example mov_C6_leaves_eip_advanced :
  let vm := machine 16 [0xC8] Reg.zero 0 0 in
  _mov 0xC6 vm = Ok (false, with_eip vm 1) ∧
  eip vm = 0 ∧ eip (with_eip vm 1) = 1.
Proof. repeat split. Qed.

(** On the same bytes the ADD handler answers [False] too (reg = 1 is not
    its sub-opcode), with EIP back at 0. *)
Example addsub_rm_imm_restores_eip :
  let vm := machine 16 [0xC8] Reg.zero 0 0 in
  ∃ vm', _VM__addsub_rm_imm 4 4 false vm = Ok (false, vm') ∧ eip vm' = 0.
Proof. eexists. split; reflexivity. Qed.

End Rollback.

(** ** MOV between the accumulator and an absolute address *)

Section MovMoffs.

Import Internals Dispatch.

(** C8: on the opcodes 0xA0..0xA3, which its table [valid_op] lists,
    [_mov] reaches no handler: it answers [False] and transfers nothing,
    the state being left as it was. *)
Theorem mov_moffs_not_dispatched (op sz : Z) (vm : VM) :
  operand_size vm = Ok sz → 0xA0 ≤ op ≤ 0xA3 →
  _mov op vm = Ok (false, vm).
Proof.
  intros Hsz Hop. unfold _mov, in_range. rewrite Hsz. simpl.
  repeat match goal with
  | |- (if ?c then _ else _) = _ => destruct c eqn:?; [lia |]
  end.
  reflexivity.
Qed.

(** EIP = 0 points at the inline address 8, where the byte 0x2A lies. *)
Lemma mov_moffs_not_dispatched_witness :
  let vm := machine 16 [8; 0; 0; 0; 0; 0; 0; 0; 0x2A] Reg.zero 0 0 in
  _mov 0xA0 vm = Ok (false, vm).
Proof.
  intros vm. apply (mov_moffs_not_dispatched 0xA0 4 vm); [reflexivity | lia].
Defined.

(** The handler that [internals.py] holds for 0xA0, run on that machine:
    the accumulator receives the byte at the inline address. *)
Example mov_eax_moffs_run :
  let vm := machine 16 [8; 0; 0; 0; 0; 0; 0; 0; 0x2A] Reg.zero 0 0 in
  ∃ vm', _VM__mov_eax_moffs 1 vm = Ok vm' ∧
         Reg.get_int (reg vm') 0 1 = Ok 0x2A ∧ eip vm' = 1.
Proof. eexists. repeat split. Qed.

End MovMoffs.

(** ** ADD/SUB with an immediate *)

Section AddSubImmediate.

Import Internals.

(** C9: when [_VM__addsub_rm_imm] accepts, it has read [imm_sz] bytes at
    the EIP the resolver left, and EIP stands [off] bytes (the operand
    width, not [imm_sz]) past that point. *)
Theorem addsub_rm_imm_advance (off imm_sz : Z) (sub : bool)
    (vm vm1 vm' : VM) (RM R : operand) :
  process_ModRM off off vm = Ok (RM, R, vm1) →
  _VM__addsub_rm_imm off imm_sz sub vm = Ok (true, vm') →
  (∃ raw, Memory.get_bytes (mem vm1) (eip vm1) imm_sz = Ok raw) ∧
  eip vm' = eip vm1 + off.
Proof.
  intros HM. unfold _VM__addsub_rm_imm. rewrite HM. simpl. intros H.
  bind_inv H. split; [eauto |].
  destruct (negb sub && negb (R.1.2 =? 0)); [discriminate |].
  destruct (sub && negb (R.1.2 =? 5)); [discriminate |].
  destruct RM as [[[] loc] ?]; simpl in H; do 4 bind_inv H;
    injection H as <-; reflexivity.
Qed.

(** ADD r/m32, imm8 on the bytes C0 05: ModRM 0xC0 (mod = 3, reg = 0,
    rm = 0) and the immediate 5.  The instruction ends at 2; EIP is 5. *)
Lemma addsub_rm_imm_advance_witness :
  let vm := machine 16 [0xC0; 5; 0x90; 0x90; 0x90; 0x90] Reg.zero 0 0 in
  ∃ vm', _VM__addsub_rm_imm 4 1 false vm = Ok (true, vm') ∧
         (∃ raw, Memory.get_bytes (mem (with_eip vm 1)) 1 1 = Ok raw) ∧
         eip vm' = 1 + 4 ∧ Reg.get_int (reg vm') 0 4 = Ok 5.
Proof.
  intros vm. eexists. split; [reflexivity |].
  destruct (addsub_rm_imm_advance 4 1 false vm (with_eip vm 1) _
              (false, 0, 4) (false, 0, 4) eq_refl eq_refl) as [Hraw Heip].
  split; [exact Hraw |]. split; [exact Heip | reflexivity].
Defined.

End AddSubImmediate.

(** ** The syscall layer: failures *)

Section SyscallFailures.

Import Kernel.

Lemma descriptor_out_of_range (vm : VM) (fd : Z) :
  0 ≤ fd → Z.of_nat (length (descriptors vm)) ≤ fd →
  descriptor vm fd = Raise IndexError.
Proof.
  intros H0 Hlen. unfold descriptor.
  rewrite (proj2 (lookup_ge_None (descriptors vm) (Z.to_nat fd))); [reflexivity | lia].
Qed.

Lemma wrap32_nonneg (v : Z) : 0 ≤ Reg.wrap32 v < 2 ^ 32.
Proof. unfold Reg.wrap32. apply Z.mod_pos_bound. lia. Qed.

(** C3: [sys_write] on a descriptor number past the end of the table
    does not return: the [IndexError] of [self.descriptors[fd]] leaves the
    handler, and the accumulator is not set.  [sys_read], in the same
    state, catches it and returns -1. *)
Theorem sys_write_bad_fd_raises (h : Host) (vm : VM) (buf : list Z) :
  Memory.get_bytes (mem vm) (Reg.wrap32 (reg vm 1)) (Reg.wrap32 (reg vm 2)) = Ok buf →
  Z.of_nat (length (descriptors vm)) ≤ Reg.wrap32 (reg vm 3) →
  sys_write h vm = Raise IndexError ∧
  sys_read h vm = Ok (__return (-1) vm) ∧
  eax (__return (-1) vm) = minus_one.
Proof.
  intros Hbuf Hfd.
  pose proof (wrap32_nonneg (reg vm 3)) as [Hnn _].
  pose proof (descriptor_out_of_range vm _ Hnn Hfd) as Hd.
  split; [| split].
  - unfold sys_write. simpl. rewrite Hbuf. simpl.
    unfold fileno. rewrite Hd. reflexivity.
  - unfold sys_read. simpl. unfold fileno. rewrite Hd. reflexivity.
  - reflexivity.
Qed.

(** write(fd = 7, buf = 0, count = 2) on the three standard descriptors *)
Lemma sys_write_bad_fd_raises_witness :
  let vm := machine 16 [104; 105] (regs_of [4; 0; 2; 7]) 0 0 in
  sys_write plain_host vm = Raise IndexError ∧
  sys_read plain_host vm = Ok (__return (-1) vm) ∧
  eax (__return (-1) vm) = minus_one.
Proof.
  intros vm.
  apply (sys_write_bad_fd_raises plain_host vm [104; 105]); [reflexivity |].
  vm_compute. discriminate.
Defined.

(** A host [OSError] in [os.write] leaves [sys_write] as well. *)
Lemma sys_write_host_error_raises (h : Host) (vm : VM) (buf : list Z) (n : Z) :
  Memory.get_bytes (mem vm) (Reg.wrap32 (reg vm 1)) (Reg.wrap32 (reg vm 2)) = Ok buf →
  fileno vm (Reg.wrap32 (reg vm 3)) = Ok n →
  os_write h n buf = Raise OSError →
  sys_write h vm = Raise OSError.
Proof.
  intros Hbuf Hn Hw. unfold sys_write. simpl. rewrite Hbuf. simpl.
  rewrite Hn, Hw. reflexivity.
Qed.

(** A closed slot makes both handlers raise [AttributeError], from the
    fallback of their [except] clause. *)
Lemma closed_fd_raises (h : Host) (vm : VM) (buf : list Z) :
  Memory.get_bytes (mem vm) (Reg.wrap32 (reg vm 1)) (Reg.wrap32 (reg vm 2)) = Ok buf →
  descriptors vm !! Z.to_nat (Reg.wrap32 (reg vm 3)) = Some None →
  sys_write h vm = Raise AttributeError ∧ sys_read h vm = Raise AttributeError.
Proof.
  intros Hbuf Hd. split.
  - unfold sys_write. simpl. rewrite Hbuf. simpl.
    unfold fileno, descriptor. rewrite Hd. reflexivity.
  - unfold sys_read. simpl. unfold fileno, descriptor. rewrite Hd. reflexivity.
Qed.

(** [sys_mmap_pgoff] answers -1 to a mapping that is not anonymous
    (flags = MAP_PRIVATE), and also to flags that are only a bit that
    [MAP_FLAGS] has no member for (0x40): the bit is dropped and what
    is left, 0, is not anonymous.  With such a bit beside MAP_ANONYMOUS
    (0x60) the mapping is made: the break moves from 0 to 16. *)
Example sys_mmap_pgoff_unsupported :
  (let vm := machine 64 [] (regs_of [192; 16; 3; 0; 0; 0; 0x02; 0]) 0 0 in
   sys_mmap_pgoff vm = Ok (__return (-1) vm)) ∧
  (let vm := machine 64 [] (regs_of [192; 16; 3; 0; 0; 0; 0x40; 0]) 0 0 in
   sys_mmap_pgoff vm = Ok (__return (-1) vm)) ∧
  (let vm := machine 64 [] (regs_of [192; 16; 0xFF; 0; 0; 0; 0x60; 0]) 0 0 in
   ∃ vm', sys_mmap_pgoff vm = Ok vm' ∧ eax vm' = 0 ∧ program_break vm' = 16).
Proof.
  split; [reflexivity |]. split; [reflexivity |].
  eexists. split; [reflexivity |]. split; reflexivity.
Qed.

End SyscallFailures.

(** ** The descriptor table *)

Section Descriptors.

Import Kernel.

(** [first_free] finds the lowest index holding [None], counted from the
    start of the table. *)
Lemma first_free_shift (l : list (option stream)) (k : nat) :
  first_free l k = (λ i, (k + i)%nat) <$> first_free l 0.
Proof.
  revert k. induction l as [| [s |] l IH]; intros k; simpl.
  - reflexivity.
  - rewrite (IH (S k)), (IH 1%nat).
    destruct (first_free l 0); simpl; [f_equal; lia | reflexivity].
  - f_equal. lia.
Qed.

Lemma first_free_lowest (l : list (option stream)) (d : nat) :
  first_free l 0 = Some d →
  l !! d = Some None ∧ ∀ j, (j < d)%nat → l !! j ≠ Some None.
Proof.
  revert d. induction l as [| [s |] l IH]; intros d H; simpl in H.
  - discriminate.
  - rewrite first_free_shift in H.
    destruct (first_free l 0) as [i |]; [| discriminate].
    injection H as <-. destruct (IH i eq_refl) as [Hd Hlow].
    split; [exact Hd |].
    intros [| j] Hj; simpl; [discriminate | apply Hlow; lia].
  - injection H as <-. split; [reflexivity | intros j Hj; lia].
Qed.

Lemma first_free_none (l : list (option stream)) (k : nat) :
  first_free l k = None → ∀ j, l !! j ≠ Some None.
Proof.
  revert k. induction l as [| [s |] l IH]; intros k H j; simpl in H.
  - rewrite lookup_nil. discriminate.
  - destruct j as [| j]; simpl; [discriminate | eapply IH; eassumption].
  - discriminate.
Qed.

(** [open_file] puts the stream in the lowest free slot of the whole
    table, slot 0 included, and appends only when no slot is free. *)
Lemma open_file_slot (h : Host) (name : list Z) (mode : string) (vm vm' : VM) (fd : Z) :
  open_file h name mode vm = Ok (fd, vm') →
  ∃ f, host_open h name mode = Ok f ∧
    ((descriptors vm !! Z.to_nat fd = Some None ∧
      (∀ j, (j < Z.to_nat fd)%nat → descriptors vm !! j ≠ Some None) ∧
      descriptors vm' = <[Z.to_nat fd := Some f]> (descriptors vm))
     ∨
     ((∀ j, descriptors vm !! j ≠ Some None) ∧
      fd = Z.of_nat (length (descriptors vm)) ∧
      descriptors vm' = descriptors vm ++ [Some f])).
Proof.
  unfold open_file. simpl. intros H.
  destruct (first_free (descriptors vm) 0) as [d |] eqn:Hfree.
  - bind_inv H. injection H as <- <-. exists a. split; [exact Ha |]. left.
    rewrite Nat2Z.id. destruct (first_free_lowest _ _ Hfree) as [Hd Hlow].
    split; [exact Hd |]. split; [exact Hlow | reflexivity].
  - bind_inv H. injection H as <- <-. exists a. split; [exact Ha |]. right.
    split; [exact (first_free_none _ _ Hfree) |]. split; reflexivity.
Qed.

(** [sys_close] frees whichever open slot it is given. *)
Lemma sys_close_frees (h : Host) (vm : VM) (s : stream) :
  descriptors vm !! Z.to_nat (Reg.wrap32 (reg vm 3)) = Some (Some s) →
  host_close h s = Ok () →
  ∃ vm', sys_close h vm = Ok vm' ∧ eax vm' = 0 ∧
    descriptors vm' = <[Z.to_nat (Reg.wrap32 (reg vm 3)) := None]> (descriptors vm).
Proof.
  intros Hd Hc. unfold sys_close. simpl.
  pose proof (wrap32_nonneg (reg vm 3)) as [Hnn _].
  pose proof (lookup_lt_Some _ _ _ Hd) as Hlt.
  destruct (_ <=? _) eqn:E; [lia |].
  unfold descriptor. rewrite Hd. simpl. rewrite Hc. simpl.
  eexists. split; [reflexivity |]. split; reflexivity.
Qed.

(** C4: from the state of construction, close(0) succeeds and leaves
    slot 0 free; the open that follows (O_WRONLY | O_TRUNC, the path "a")
    returns descriptor 0 and puts its stream in slot 0, below 3. *)
Theorem close_frees_slot_0_and_open_reuses_it :
  let image := [97; 0] in
  let vm0 := machine 16 image (regs_of [6; 0; 0; 0]) 0 0 in
  ∃ vm1 vm2,
    descriptors vm0 = [Some sys_stdin; Some sys_stdout; Some sys_stderr] ∧
    sys_close plain_host vm0 = Ok vm1 ∧
    eax vm1 = 0 ∧
    descriptors vm1 = [None; Some sys_stdout; Some sys_stderr] ∧
    sys_open plain_host (with_reg vm1 (regs_of [5; 513; 0; 0])) = Ok vm2 ∧
    eax vm2 = 0 ∧
    descriptors vm2 = [Some (HostFile 9); Some sys_stdout; Some sys_stderr].
Proof.
  intros image vm0. do 2 eexists.
  split; [reflexivity |]. split; [reflexivity |]. split; [reflexivity |].
  split; [reflexivity |]. split; [reflexivity |]. split; reflexivity.
Qed.

End Descriptors.

(** ** The program break *)

Section ProgramBreak.

Import Kernel.

Lemma wrap32_small (v : Z) : 0 ≤ v < 2 ^ 32 → Reg.wrap32 v = v.
Proof. intros H. unfold Reg.wrap32. apply Z.mod_small. exact H. Qed.

Lemma eax_return (v : Z) (vm : VM) : eax (__return v vm) = Reg.wrap32 v.
Proof. reflexivity. Qed.

(** What [sys_brk] does, by the position of the argument against
    [code_segment_end]; everything but the break and the accumulator is
    left as it was. *)
Lemma sys_brk_cases (vm : VM) :
  let addr := Reg.wrap32 (reg vm 3) in
  ∃ vm', sys_brk vm = Ok vm' ∧
    code_segment_end vm' = code_segment_end vm ∧
    eax vm' = Reg.wrap32 (program_break vm') ∧
    (addr < code_segment_end vm → program_break vm' = program_break vm) ∧
    (code_segment_end vm ≤ addr → program_break vm' = addr).
Proof.
  intros addr. unfold sys_brk. simpl. fold addr.
  destruct (addr <? code_segment_end vm) eqn:E;
    [| destruct (Memory.program_break (mem vm) =? addr) eqn:E'];
    (eexists; split; [reflexivity |]);
    repeat split; intros; unfold program_break; simpl; try reflexivity; lia.
Qed.

(** C5, as amended: [sys_brk] with addr below [code_segment_end] -- so
    with addr = 0 whenever [code_segment_end] is positive -- leaves the
    break unchanged and returns it; with addr at or above
    [code_segment_end] -- so with addr above the current break, when
    that break is not below [code_segment_end] -- it sets the break to
    addr exactly and returns the new break. *)
Theorem sys_brk_spec (vm : VM) :
  let addr := Reg.wrap32 (reg vm 3) in
  ∃ vm', sys_brk vm = Ok vm' ∧
    (addr = 0 → 0 < code_segment_end vm →
       program_break vm' = program_break vm ∧
       eax vm' = Reg.wrap32 (program_break vm)) ∧
    (addr < code_segment_end vm →
       program_break vm' = program_break vm ∧
       eax vm' = Reg.wrap32 (program_break vm)) ∧
    (code_segment_end vm ≤ addr →
       program_break vm' = addr ∧ eax vm' = addr) ∧
    (program_break vm < addr → code_segment_end vm ≤ program_break vm →
       program_break vm' = addr ∧ eax vm' = addr).
Proof.
  intros addr.
  destruct (sys_brk_cases vm) as (vm' & Hrun & _ & Heax & Hlow & Hhigh).
  fold addr in Hlow, Hhigh.
  assert (code_segment_end vm ≤ addr → program_break vm' = addr ∧ eax vm' = addr) as Hset.
  { intros H. rewrite Heax, (Hhigh H). split; [reflexivity |].
    apply wrap32_small, wrap32_nonneg. }
  exists vm'. split; [exact Hrun |]. repeat split.
  - apply Hlow. lia.
  - rewrite Heax. f_equal. apply Hlow. lia.
  - apply Hlow. assumption.
  - rewrite Heax. f_equal. apply Hlow. assumption.
  - apply Hset. assumption.
  - apply Hset. assumption.
  - apply Hset. lia.
  - apply Hset. lia.
Qed.

(** code_segment_end = 100, break = 200: brk(0) and brk(50) return 200
    and change nothing; brk(300) and brk(150) set the break *)
Lemma sys_brk_spec_witness :
  let at_ (addr : Z) := machine 1024 [] (regs_of [45; 0; 0; addr]) 100 200 in
  (∃ vm', sys_brk (at_ 0) = Ok vm' ∧ program_break vm' = 200 ∧ eax vm' = 200) ∧
  (∃ vm', sys_brk (at_ 50) = Ok vm' ∧ program_break vm' = 200 ∧ eax vm' = 200) ∧
  (∃ vm', sys_brk (at_ 300) = Ok vm' ∧ program_break vm' = 300 ∧ eax vm' = 300) ∧
  (∃ vm', sys_brk (at_ 150) = Ok vm' ∧ program_break vm' = 150 ∧ eax vm' = 150).
Proof.
  intros at_. repeat split.
  - destruct (sys_brk_spec (at_ 0)) as (vm' & Hrun & H0 & _).
    exists vm'. split; [exact Hrun |]. apply H0; [reflexivity | simpl; lia].
  - destruct (sys_brk_spec (at_ 50)) as (vm' & Hrun & _ & H1 & _).
    exists vm'. split; [exact Hrun |]. apply H1. vm_compute. reflexivity.
  - destruct (sys_brk_spec (at_ 300)) as (vm' & Hrun & _ & _ & _ & H3).
    exists vm'. split; [exact Hrun |].
    apply H3; vm_compute; [reflexivity | discriminate].
  - destruct (sys_brk_spec (at_ 150)) as (vm' & Hrun & _ & _ & H2 & _).
    exists vm'. split; [exact Hrun |]. apply H2. vm_compute. discriminate.
Defined.

(** C5 as stated fails twice, on states the handlers reach from
    construction.  With code_segment_end = 0: brk(5) sets the break to 5
    and brk(0) then moves it to 0 instead of returning 5.  With
    code_segment_end = 100: after brk(100) and munmap(10, 90) the break
    is 10, and brk(50), above the break, leaves it at 10 and returns 10. *)
Lemma sys_brk_claim_fails :
  (let vm0 := with_reg (VM__init__ 1024 0) (regs_of [45; 0; 0; 5]) in
   ∃ vm1 vm2,
     sys_brk vm0 = Ok vm1 ∧ program_break vm1 = 5 ∧
     Reg.wrap32 (regs_of [45; 0; 0; 0] 3) = 0 ∧
     sys_brk (with_reg vm1 (regs_of [45; 0; 0; 0])) = Ok vm2 ∧
     program_break vm2 = 0 ∧ eax vm2 = 0 ∧
     program_break vm2 ≠ program_break vm1) ∧
  (let vm0 := with_reg (VM__init__ 1024 100) (regs_of [45; 0; 0; 100]) in
   ∃ vm1 vm2 vm3,
     sys_brk vm0 = Ok vm1 ∧ program_break vm1 = 100 ∧
     sys_munmap (with_reg vm1 (regs_of [91; 90; 0; 10])) = Ok vm2 ∧
     program_break vm2 = 10 ∧
     program_break vm2 < Reg.wrap32 (regs_of [45; 0; 0; 50] 3) ∧
     sys_brk (with_reg vm2 (regs_of [45; 0; 0; 50])) = Ok vm3 ∧
     program_break vm3 = 10 ∧ eax vm3 = 10 ∧
     program_break vm3 ≠ Reg.wrap32 (regs_of [45; 0; 0; 50] 3)).
Proof.
  split.
  - do 2 eexists. split; [reflexivity |]. split; [reflexivity |].
    split; [reflexivity |]. split; [reflexivity |]. split; [reflexivity |].
    split; [reflexivity | discriminate].
  - do 3 eexists. split; [reflexivity |]. split; [reflexivity |].
    split; [reflexivity |]. split; [reflexivity |]. split; [reflexivity |].
    split; [reflexivity |]. split; [reflexivity |].
    split; [reflexivity | discriminate].
Qed.

(** [sys_brk], [sys_mmap_pgoff] and [sys_exit] keep the break at or above
    [code_segment_end]. *)
Lemma sys_brk_keeps_floor (vm vm' : VM) :
  code_segment_end vm ≤ program_break vm → sys_brk vm = Ok vm' →
  code_segment_end vm' ≤ program_break vm'.
Proof.
  intros Hinv Hrun.
  destruct (sys_brk_cases vm) as (vm'' & Hrun' & Hcse & _ & Hlow & Hhigh).
  rewrite Hrun in Hrun'. injection Hrun' as <-. rewrite Hcse.
  destruct (Z.lt_ge_cases (Reg.wrap32 (reg vm 3)) (code_segment_end vm)) as [H | H].
  - rewrite (Hlow H). exact Hinv.
  - rewrite (Hhigh H). exact H.
Qed.

Lemma sys_mmap_pgoff_keeps_floor (vm vm' : VM) :
  code_segment_end vm ≤ program_break vm → sys_mmap_pgoff vm = Ok vm' →
  code_segment_end vm' ≤ program_break vm'.
Proof.
  intros Hinv. unfold sys_mmap_pgoff. simpl. intros H.
  destruct (flag_set _ MAP_ANONYMOUS).
  - bind_inv H. destruct a as [old_brk m]. injection H as <-.
    unfold Memory.memset in Ha. bind_inv Ha. injection Ha as _ <-.
    unfold Memory.set_bytes in Ha0. destruct (Memory.in_range _ _ _); [| discriminate].
    injection Ha0 as <-. unfold program_break in *. simpl.
    pose proof (wrap32_nonneg (reg vm 1)). lia.
  - injection H as <-. exact Hinv.
Qed.

Lemma sys_exit_sets_floor (h : Host) (vm vm' : VM) :
  sys_exit h vm = Ok vm' → program_break vm' = code_segment_end vm'.
Proof.
  unfold sys_exit. simpl. intros H. bind_inv H.
  destruct a as [s |]; [| discriminate]. bind_inv H.
  injection H as <-. reflexivity.
Qed.

(** [sys_munmap] retracts the break to whatever [addr] it is given,
    provided [addr + length] is the break. *)
Lemma sys_munmap_retracts (vm : VM) :
  Reg.wrap32 (reg vm 3) + Reg.wrap32 (reg vm 1) = program_break vm →
  ∃ vm', sys_munmap vm = Ok vm' ∧
    program_break vm' = Reg.wrap32 (reg vm 3) ∧
    code_segment_end vm' = code_segment_end vm ∧ eax vm' = 0.
Proof.
  intros H. unfold sys_munmap. simpl. unfold program_break in H.
  destruct (_ =? _) eqn:E; [| lia].
  eexists. split; [reflexivity |]. repeat split.
Qed.

(** C6: from the state of construction with code_segment_end = 100,
    brk(200) raises the break to 200 and munmap(addr = 0, length = 200)
    then returns 0 with the break at 0, below code_segment_end. *)
Theorem munmap_moves_break_below_code_segment_end :
  let vm0 := with_reg (VM__init__ 1024 100) (regs_of [45; 0; 0; 200]) in
  ∃ vm1 vm2,
    code_segment_end vm0 ≤ program_break vm0 ∧
    sys_brk vm0 = Ok vm1 ∧ program_break vm1 = 200 ∧
    sys_munmap (with_reg vm1 (regs_of [91; 200; 0; 0])) = Ok vm2 ∧
    eax vm2 = 0 ∧ code_segment_end vm2 = 100 ∧ program_break vm2 = 0 ∧
    program_break vm2 < code_segment_end vm2.
Proof.
  intros vm0. do 2 eexists.
  split; [vm_compute; discriminate |].
  split; [reflexivity |]. split; [reflexivity |]. split; [reflexivity |].
  split; [reflexivity |]. split; [reflexivity |]. split; reflexivity.
Qed.

End ProgramBreak.

(** ** Bytes and memory cells *)

Section Bytes.

Lemma le_digits_length (n : nat) (v : Z) : length (Util.le_digits n v) = n.
Proof. revert v. induction n as [| n IH]; intros v; simpl; [| rewrite IH]; reflexivity. Qed.

Lemma from_le_digits (n : nat) (v : Z) :
  Util.from_bytes_le (Util.le_digits n v) = v mod 256 ^ Z.of_nat n.
Proof.
  revert v. induction n as [| n IH]; intros v.
  - simpl. rewrite Z.mod_1_r. reflexivity.
  - cbn [Util.le_digits Util.from_bytes_le]. rewrite IH.
    rewrite Nat2Z.inj_succ, Z.pow_succ_r by lia.
    rewrite Z.rem_mul_r by lia. reflexivity.
Qed.

Lemma to_int_unsigned (data : list Z) : Util.to_int data false = Util.from_bytes_le data.
Proof. reflexivity. Qed.

(** Reading back the bytes just written. *)
Lemma read_write (c : Z → Z) (size brk addr : Z) (data : list Z) :
  Memory.read (Memory.mk size (Memory.write c addr data) brk) addr
              (Z.of_nat (length data)) = data.
Proof.
  unfold Memory.read. simpl. apply list_eq. intros i.
  rewrite list_lookup_fmap.
  destruct (decide (i < length data)%nat) as [Hi | Hi].
  - rewrite lookup_seqZ_lt by lia. simpl. unfold Memory.write.
    destruct (_ && _) eqn:E; [| lia].
    replace (Z.to_nat (addr + (0 + Z.of_nat i) - addr)) with i by lia.
    destruct (lookup_lt_is_Some_2 data i Hi) as [x Hx].
    rewrite Hx. f_equal. apply nth_lookup_Some with (d := 0). exact Hx.
  - rewrite lookup_seqZ_ge by lia. simpl.
    symmetry. apply lookup_ge_None. lia.
Qed.

Lemma get_set (m m' : Memory.t) (addr n v : Z) :
  0 ≤ n → Memory.set m addr n v = Ok m' →
  Memory.get m' addr n = Ok (v mod 2 ^ (8 * n)).
Proof.
  intros Hn. unfold Memory.set, Memory.set_bytes.
  rewrite le_digits_length, Z2Nat.id by lia.
  destruct (Memory.in_range m addr n) eqn:Hr; [| discriminate].
  intros [= <-]. unfold Memory.get, Memory.get_bytes.
  replace (Memory.in_range _ addr n) with true by (symmetry; exact Hr).
  simpl. f_equal.
  assert (Z.of_nat (length (Util.le_digits (Z.to_nat n) (v mod 2 ^ (8 * n)))) = n) as Hlen
    by (rewrite le_digits_length; lia).
  rewrite <- Hlen at 3. rewrite read_write, to_int_unsigned, from_le_digits.
  rewrite Z2Nat.id by lia.
  replace (256 ^ n) with (2 ^ (8 * n)) by (rewrite Z.pow_mul_r by lia; reflexivity).
  apply Z.mod_mod. apply Z.pow_nonzero; lia.
Qed.

End Bytes.

(** ** Seeking *)

Section Llseek.

Import Kernel.

(** The mask keeps the low word of the combined offset. *)
Lemma low_word (hi lo : Z) :
  0 ≤ lo < 2 ^ 32 → Z.land (Z.lor (Z.shiftl hi 32) lo) 0xFFFFFFFF = lo.
Proof.
  intros Hlo. change 0xFFFFFFFF with (Z.ones 32).
  rewrite Z.land_lor_distr_l, !Z.land_ones by lia.
  rewrite Z.shiftl_mul_pow2, Z.mod_mul, Z.mod_small by lia.
  reflexivity.
Qed.

(** C7, as amended: [sys_llseek] combines its two offset arguments into
    (offset_high << 32) | offset_low, masks that value with 0xFFFFFFFF
    and performs the one host seek at the result, which is offset_low.
    When the seek succeeds, its result is stored as a 4-byte value at
    result_addr and the accumulator receives 0; when it raises an
    [OSError], memory is untouched and the accumulator receives -1. *)
Theorem sys_llseek_spec (h : Host) (vm : VM) (n : Z) :
  let fd := Reg.wrap32 (reg vm 3) in
  let offset_high := Reg.wrap32 (reg vm 1) in
  let offset_low := Reg.wrap32 (reg vm 2) in
  let result_addr := Reg.wrap32 (reg vm 6) in
  let whence := Reg.wrap32 (reg vm 7) in
  let offset := Z.lor (Z.shiftl offset_high 32) offset_low in
  fileno vm fd = Ok n →
  Z.land offset 0xFFFFFFFF = offset_low ∧
  (∀ ret m', os_lseek h n offset_low whence = Ok ret →
     Memory.set (mem vm) result_addr 4 ret = Ok m' →
     ∃ vm', sys_llseek h vm = Ok vm' ∧
       host_log vm' = host_log vm ++ [CallLseek n offset_low whence] ∧
       mem vm' = m' ∧
       Memory.get (mem vm') result_addr 4 = Ok (ret mod 2 ^ 32) ∧
       eax vm' = 0) ∧
  (∀ e, os_lseek h n offset_low whence = Raise e → is_OSError e = true →
     ∃ vm', sys_llseek h vm = Ok vm' ∧
       host_log vm' = host_log vm ++ [CallLseek n offset_low whence] ∧
       mem vm' = mem vm ∧
       eax vm' = minus_one).
Proof.
  intros fd offset_high offset_low result_addr whence offset Hn.
  assert (Z.land offset 0xFFFFFFFF = offset_low) as Hmask
    by (apply low_word, wrap32_nonneg).
  split; [exact Hmask |]. split.
  - intros ret m' Hseek Hset. unfold sys_llseek. simpl.
    fold fd offset_high offset_low result_addr whence offset.
    rewrite Hn, Hmask, Hseek. simpl. rewrite Hset. simpl.
    eexists. split; [reflexivity |]. split; [reflexivity |].
    split; [reflexivity |]. split; [| reflexivity].
    simpl. apply (get_set _ _ _ 4 ret) in Hset; [exact Hset | lia].
  - intros e Hseek He. unfold sys_llseek. simpl.
    fold fd offset_high offset_low result_addr whence offset.
    rewrite Hn, Hmask, Hseek, He.
    eexists. split; [reflexivity |]. repeat split.
Qed.

(** A descriptor without a file number (its [fileno()] raises
    [UnsupportedOperation], an [OSError]) gives -1 with no seek made. *)
Lemma sys_llseek_no_fileno (h : Host) (vm : VM) (e : exn) :
  fileno vm (Reg.wrap32 (reg vm 3)) = Raise e → is_OSError e = true →
  sys_llseek h vm = Ok (__return (-1) vm).
Proof.
  intros Hn He. unfold sys_llseek. simpl. rewrite Hn, He. reflexivity.
Qed.

(** llseek(fd = 1, offset_high = 0, offset_low = 7, result = 8,
    whence = 0) on a host whose seek lands on the offset asked for *)
Lemma sys_llseek_spec_witness :
  let vm := machine 16 [] (regs_of [140; 0; 7; 1; 0; 0; 8; 0]) 0 0 in
  ∃ vm', sys_llseek plain_host vm = Ok vm' ∧
    host_log vm' = [CallLseek 1 7 0] ∧
    Memory.get (mem vm') 8 4 = Ok 7 ∧ eax vm' = 0.
Proof.
  intros vm.
  destruct (sys_llseek_spec plain_host vm 1 eq_refl) as (_ & Hok & _).
  destruct (Hok 7 _ eq_refl eq_refl) as (vm' & Hrun & Hlog & _ & Hget & Heax).
  exists vm'. split; [exact Hrun |]. split; [exact Hlog |].
  split; [exact Hget | exact Heax].
Defined.

(** C7 as stated fails: with offset_high = 1 and offset_low = 0 the
    combined offset is 2^32, and the one host seek is made at 0. *)
Lemma sys_llseek_seeks_low_word_only :
  let vm := machine 16 [] (regs_of [140; 1; 0; 1; 0; 0; 8; 0]) 0 0 in
  Z.lor (Z.shiftl (Reg.wrap32 (reg vm 1)) 32) (Reg.wrap32 (reg vm 2)) = 4294967296 ∧
  ∃ vm', sys_llseek plain_host vm = Ok vm' ∧
    host_log vm' = [CallLseek 1 0 0] ∧
    host_log vm' ≠ [CallLseek 1 4294967296 0].
Proof.
  split; [reflexivity |].
  eexists. split; [reflexivity |]. split; [reflexivity | discriminate].
Qed.

End Llseek.

(** ** Opening files *)

Section Open.

Import Kernel.

Lemma get_byte (m : Memory.t) (a : Z) :
  0 ≤ a < Memory.size m → Memory.get m a 1 = Ok (Memory.cells m a).
Proof.
  intros Ha. unfold Memory.get, Memory.get_bytes.
  assert (Memory.in_range m a 1 = true) as ->.
  { unfold Memory.in_range. rewrite !andb_true_iff, !Z.leb_le. lia. }
  simpl. f_equal. unfold Util.to_int. simpl.
  rewrite ?Z.mul_0_r, !Z.add_0_r. reflexivity.
Qed.

Lemma read_cons (m : Memory.t) (addr n : Z) :
  0 ≤ n →
  Memory.read m addr (n + 1) = Memory.cells m addr :: Memory.read m (addr + 1) n.
Proof.
  intros Hn. unfold Memory.read. rewrite seqZ_cons by lia. simpl.
  rewrite Z.add_0_r. f_equal.
  replace (Z.pred (n + 1)) with n by lia.
  change (Z.succ 0) with (1 + 0). rewrite <- fmap_add_seqZ, <- list_fmap_compose.
  apply list_fmap_ext. intros _ i _. simpl. f_equal. lia.
Qed.

Lemma c_string_at_tail (m : Memory.t) (addr b : Z) (raw : list Z) :
  c_string_at m addr (b :: raw) →
  Memory.cells m addr = b ∧ b ≠ 0 ∧ 0 ≤ addr < Memory.size m ∧
  c_string_at m (addr + 1) raw.
Proof.
  intros (H0 & Hsz & Hread & Hnz & Hend). simpl length in *.
  rewrite Nat2Z.inj_succ in *.
  replace (Z.succ (Z.of_nat (length raw))) with (Z.of_nat (length raw) + 1) in Hread by lia.
  rewrite read_cons in Hread by lia. injection Hread as Hb Hrest.
  apply Forall_cons in Hnz as [Hb0 Hnz].
  split; [exact Hb |]. split; [exact Hb0 |]. split; [lia |].
  repeat split; try lia; try assumption.
  rewrite <- Hend. f_equal. lia.
Qed.

(** The loop of [__read_string] returns the string, given one turn more
    than the string has bytes. *)
Lemma read_string_loop_c_string (m : Memory.t) (raw : list Z) (addr : Z) (fuel : nat) :
  c_string_at m addr raw → (length raw < fuel)%nat →
  read_string_loop fuel m addr = Ok raw.
Proof.
  revert addr fuel. induction raw as [| b raw IH]; intros addr fuel Hs Hfuel.
  - destruct fuel as [| fuel]; [simpl in Hfuel; lia |].
    destruct Hs as (H0 & Hsz & _ & _ & Hend). simpl in *.
    rewrite Z.add_0_r in *. rewrite get_byte by lia. simpl.
    rewrite Hend. reflexivity.
  - destruct fuel as [| fuel]; [simpl in Hfuel; lia |].
    apply c_string_at_tail in Hs as (Hb & Hb0 & Haddr & Hs).
    simpl. rewrite get_byte by lia. simpl. rewrite Hb.
    destruct (b =? 0) eqn:E; [lia |]. simpl.
    rewrite (IH (addr + 1) fuel Hs) by (simpl in Hfuel; lia). reflexivity.
Qed.

(** [__read_string] returns on every C string that lies in memory. *)
Lemma read_string_c_string (vm : VM) (addr : Z) (raw : list Z) :
  c_string_at (mem vm) addr raw → __read_string addr vm = Ok raw.
Proof.
  intros Hs. unfold __read_string. apply read_string_loop_c_string; [exact Hs |].
  destruct Hs as (H0 & Hsz & _). lia.
Qed.

(** No flag test of [sys_open] holds of the flags 0. *)
Lemma flag_set_zero (member : Z) : flag_set 0 member = false.
Proof. unfold flag_set. rewrite Z.land_0_l. reflexivity. Qed.

(** With the flags 0 the handler does nothing but read and decode the
    pathname and return -1. *)
Lemma sys_open_rdonly_outcome (h : Host) (vm : VM) :
  Reg.wrap32 (reg vm 1) = 0 →
  sys_open h vm =
    (raw ← __read_string (Reg.wrap32 (reg vm 3)) vm;
     pathname ← decode raw;
     Ok (__return (-1) vm)).
Proof.
  intros Hflags. unfold sys_open. simpl. rewrite Hflags.
  destruct (__read_string _ vm) as [raw | e]; [| reflexivity]. simpl.
  destruct (decode raw) as [pathname | e]; [| reflexivity]. simpl.
  rewrite ?flag_set_zero. reflexivity.
Qed.

(** C10, as amended: when the flags argument of [sys_open] is 0
    (O_RDONLY) and the pathname argument points at a C string that
    decodes, the handler returns with -1 in the accumulator and the
    descriptor table as it was, whatever the host answers: no file is
    looked up or opened.
    The pathname is read and decoded before any flag is tested, so the
    two conditions on it cannot be left out. *)
Theorem sys_open_rdonly_fails (h : Host) (vm : VM) (raw pathname : list Z) :
  Reg.wrap32 (reg vm 1) = 0 →
  c_string_at (mem vm) (Reg.wrap32 (reg vm 3)) raw →
  decode raw = Ok pathname →
  ∃ vm', sys_open h vm = Ok vm' ∧
    eax vm' = minus_one ∧
    descriptors vm' = descriptors vm ∧
    host_log vm' = host_log vm.
Proof.
  intros Hflags Hs Hdec. unfold sys_open. simpl.
  rewrite (read_string_c_string _ _ _ Hs). simpl. rewrite Hdec. simpl.
  rewrite Hflags, !flag_set_zero.
  eexists. split; [reflexivity |]. repeat split.
Qed.

(** open("a", flags = 0) on a host where every path exists and on one
    where none does *)
Lemma sys_open_rdonly_fails_witness :
  let vm := machine 16 [97; 0] (regs_of [5; 0; 0; 0]) 0 0 in
  (∃ vm', sys_open plain_host vm = Ok vm' ∧ eax vm' = minus_one ∧
          descriptors vm' = descriptors vm ∧ host_log vm' = host_log vm) ∧
  (∃ vm', sys_open failing_host vm = Ok vm' ∧ eax vm' = minus_one ∧
          descriptors vm' = descriptors vm ∧ host_log vm' = host_log vm).
Proof.
  intros vm.
  assert (c_string_at (mem vm) (Reg.wrap32 (reg vm 3)) [97]) as Hs.
  { repeat split; try (vm_compute; discriminate).
    repeat constructor. discriminate. }
  split.
  - apply (sys_open_rdonly_fails plain_host vm [97] [97]); [reflexivity | exact Hs | reflexivity].
  - apply (sys_open_rdonly_fails failing_host vm [97] [97]); [reflexivity | exact Hs | reflexivity].
Defined.

(** C10 as stated, for every call with flags = 0, fails: the pathname
    bytes C3 28 00 are a C string in memory that is no UTF-8, and
    [sys_open] with flags = 0 raises the Unicode error of [decode()]
    instead of returning -1, on every host. *)
Lemma sys_open_rdonly_raises :
  let vm := machine 16 [0xC3; 0x28; 0] (regs_of [5; 0; 0; 0]) 0 0 in
  Reg.wrap32 (reg vm 1) = 0 ∧
  c_string_at (mem vm) (Reg.wrap32 (reg vm 3)) [0xC3; 0x28] ∧
  ∀ h, sys_open h vm = Raise UnicodeError ∧
       ¬ ∃ vm', sys_open h vm = Ok vm' ∧ eax vm' = minus_one.
Proof.
  intros vm. split; [reflexivity |]. split.
  - repeat split; try (vm_compute; discriminate).
    repeat constructor; discriminate.
  - intros h.
    assert (sys_open h vm = Raise UnicodeError) as Hrun
      by (rewrite sys_open_rdonly_outcome; reflexivity).
    split; [exact Hrun |]. intros (vm' & Hok & _).
    rewrite Hrun in Hok. discriminate.
Qed.

End Open.

(** ** ADD/SUB on the accumulator *)

Section AccumulatorArithmetic.

Import Arith Internals.

Lemma width_pos (w : Z) : width w → 0 < w ∧ 0 < 2 ^ (8 * w).
Proof. intros [-> | [-> | ->]]; lia. Qed.

Lemma pow256 (w : Z) : 0 ≤ w → 256 ^ w = 2 ^ (8 * w).
Proof. intros H. rewrite Z.pow_mul_r by lia. reflexivity. Qed.

(** a register read yields a value of the width read *)
Lemma get_int_bound (rf : Reg.t) (r w v : Z) :
  width w → Reg.get_int rf r w = Ok v → 0 ≤ v < 2 ^ (8 * w).
Proof.
  unfold Reg.get_int, Reg.wrap32.
  intros [-> | [-> | ->]]; simpl; [destruct (r <? 4) | |];
    intros [= <-]; apply Z.mod_pos_bound; lia.
Qed.

Lemma get_int_total (rf : Reg.t) (r w : Z) :
  width w → ∃ v, Reg.get_int rf r w = Ok v.
Proof.
  unfold Reg.get_int.
  intros [-> | [-> | ->]]; simpl; [destruct (r <? 4) | |]; eauto.
Qed.

(** the accumulator read back at the width it was written *)
Lemma get_set_accumulator (rf : Reg.t) (w v : Z) :
  width w → 0 ≤ v < 2 ^ (8 * w) →
  ∃ rf', Reg.set_int rf 0 w v = Ok rf' ∧ Reg.get_int rf' 0 w = Ok v.
Proof.
  unfold Reg.set_int, Reg.get_int, Reg.upd, Reg.wrap32.
  intros [-> | [-> | ->]] Hv; simpl; eexists; (split; [reflexivity |]);
    simpl; f_equal.
  - rewrite Z.mod_mod_divide by (exists (2 ^ 24); lia).
    rewrite Z.add_comm, Z_mod_plus_full, Z.mod_mod by lia.
    apply Z.mod_small. lia.
  - rewrite Z.mod_mod_divide by (exists (2 ^ 16); lia).
    rewrite Z.add_comm, Z_mod_plus_full, Z.mod_mod by lia.
    apply Z.mod_small. lia.
  - rewrite Z.mod_mod by lia. apply Z.mod_small. lia.
Qed.

Lemma to_bytes_digits (w v : Z) :
  0 ≤ w → 0 ≤ v < 2 ^ (8 * w) →
  Util.to_bytes v w = Ok (Util.le_digits (Z.to_nat w) v).
Proof.
  intros Hw Hv. unfold Util.to_bytes.
  assert ((0 <=? v) && (v <? 2 ^ (8 * w)) && (0 <=? w) = true) as ->; [| reflexivity].
  rewrite !andb_true_iff, !Z.leb_le, Z.ltb_lt. lia.
Qed.

Lemma digits_value (w v : Z) :
  0 ≤ w → 0 ≤ v < 2 ^ (8 * w) →
  Util.from_bytes_le (Util.le_digits (Z.to_nat w) v) = v.
Proof.
  intros Hw Hv. rewrite from_le_digits, Z2Nat.id, pow256 by lia.
  apply Z.mod_small. exact Hv.
Qed.

(** [_VM__addsub_al_imm]: with [a] in the accumulator at width [w] and
    the [w]-byte immediate [imm] at EIP, the handler returns, EIP has
    moved [w] bytes on, and the accumulator holds (a + imm) mod 2^(8w),
    or (a - imm) mod 2^(8w) for SUB. *)
Lemma addsub_al_imm_value (w a : Z) (sub : bool) (vm : VM) (raw : list Z) :
  width w →
  Memory.get_bytes (mem vm) (eip vm) w = Ok raw →
  Reg.get_int (reg vm) 0 w = Ok a →
  let imm := Util.to_int raw false in
  ∃ vm', _VM__addsub_al_imm w sub vm = Ok vm' ∧
    eip vm' = eip vm + w ∧
    Reg.get_int (reg vm') 0 w =
      Ok (if sub then (a - imm) mod 2 ^ (8 * w) else (a + imm) mod 2 ^ (8 * w)).
Proof.
  intros Hw Hraw Ha imm. destruct (width_pos w Hw) as [Hw0 Hpow].
  pose proof (get_int_bound _ _ _ _ Hw Ha) as Hab.
  set (t := if sub then (a - imm) mod 2 ^ (8 * w) else (a + imm) mod 2 ^ (8 * w)).
  assert (0 ≤ t < 2 ^ (8 * w)) as Ht
    by (unfold t; destruct sub; apply Z.mod_pos_bound; lia).
  assert (addsub_tmp w sub a imm = Ok t) as Htmp.
  { unfold t. destruct sub.
    - rewrite addsub_tmp_sub by exact Hw. f_equal. apply complement_sub.
    - apply addsub_tmp_add. exact Hw. }
  destruct (get_set_accumulator (reg vm) w t Hw Ht) as (rf' & Hset & Hget).
  exists (with_reg (with_eip vm (eip vm + w)) rf').
  split; [| split; [reflexivity | exact Hget]].
  unfold _VM__addsub_al_imm. rewrite Hraw. simpl.
  unfold Reg.get. rewrite Ha. simpl.
  rewrite to_int_unsigned, digits_value by lia. fold imm.
  rewrite Htmp. simpl. rewrite to_bytes_digits by lia. simpl.
  unfold Reg.set. rewrite le_digits_length, Z2Nat.id, digits_value by lia.
  rewrite Hset. reflexivity.
Qed.

(** ADD EAX, 1 with EAX = 0xFFFFFFFF; SUB AL, 1 with AL = 0 *)
Example addsub_al_imm_runs :
  (∃ vm', _VM__addsub_al_imm 4 false
            (machine 16 [1; 0; 0; 0] (regs_of [0xFFFFFFFF]) 0 0) = Ok vm' ∧
          Reg.get_int (reg vm') 0 4 = Ok 0) ∧
  (∃ vm', _VM__addsub_al_imm 1 true
            (machine 16 [1] (regs_of [0]) 0 0) = Ok vm' ∧
          Reg.get_int (reg vm') 0 1 = Ok 0xFF).
Proof. split; eexists; split; reflexivity. Qed.

(** [_VM__addsub_rm_r] at width 2 on ModRM 0xD1 (reg = 2, rm = 1) with
    CX = 0xFFFF and DX = 2: CX receives 0xFFFF + 2 wrapped, 1.
    [_VM__addsub_r_rm] at width 4 with [sub] on ModRM 0xCA (reg = 1,
    rm = 2) with ECX = 1 and EDX = 0: the handler takes a from r/m and b
    from reg, and ECX receives 0 - 1 wrapped, 0xFFFFFFFF. *)
Example addsub_register_runs :
  (∃ vm', _VM__addsub_rm_r 2 false
            (machine 16 [0xD1] (regs_of [0; 0xFFFF; 2]) 0 0) = Ok vm' ∧
          Reg.get_int (reg vm') 1 2 = Ok 1 ∧ eip vm' = 1) ∧
  (∃ vm', _VM__addsub_r_rm 4 true
            (machine 16 [0xCA] (regs_of [0; 1; 0]) 0 0) = Ok vm' ∧
          Reg.get_int (reg vm') 1 4 = Ok 0xFFFFFFFF ∧ eip vm' = 1).
Proof. split; eexists; repeat split. Qed.

End AccumulatorArithmetic.

(** ** util.py: signed integers *)

Section Signed.

Lemma width_cases (w : Z) (P : Z → Prop) :
  width w → P 1 → P 2 → P 4 → P w.
Proof. intros [-> | [-> | ->]]; auto. Qed.

(** [to_int], signed, on the little-endian bytes of an unsigned value *)
Lemma to_int_signed_digits (w num : Z) :
  0 < w → 0 ≤ num < 2 ^ (8 * w) →
  Util.to_int (Util.le_digits (Z.to_nat w) num) true =
    if 2 ^ (8 * w - 1) <=? num then num - 2 ^ (8 * w) else num.
Proof.
  intros Hw Hnum. unfold Util.to_int.
  rewrite le_digits_length, Z2Nat.id, digits_value by lia.
  replace (0 <? 8 * w) with true by (symmetry; apply Z.ltb_lt; lia).
  reflexivity.
Qed.

(** [to_signed] lands in the signed range of its width *)
Lemma to_signed_in_range (num w : Z) :
  width w → 0 ≤ num < 2 ^ (8 * w) → signed_range w (Util.to_signed num w).
Proof.
  intros Hw Hnum. unfold signed_range.
  destruct Hw as [-> | [-> | ->]]; unfold Util.to_signed; cbn [Z.eqb Pos.eqb];
    [ change (2 ^ (8 * 1 - 1)) with 128; change (2 ^ (8 * 1)) with 256 in Hnum;
      destruct (127 <? num) eqn:E
    | change (2 ^ (8 * 2 - 1)) with 32768; change (2 ^ (8 * 2)) with 65536 in Hnum;
      destruct (32767 <? num) eqn:E
    | change (2 ^ (8 * 4 - 1)) with 2147483648;
      change (2 ^ (8 * 4)) with 4294967296 in Hnum;
      destruct (2147483647 <? num) eqn:E ]; lia.
Qed.

(** X1: for a width of 1, 2 or 4 bytes and an unsigned value of that
    width, [to_signed] yields the value of the signed range that is
    congruent to it modulo 2^(8w), the same integer that [to_int] reads,
    signed, from the little-endian bytes; for any other width it
    returns its argument. *)
Theorem to_signed_twos_complement (num w : Z) :
  (width w → 0 ≤ num < 2 ^ (8 * w) →
     signed_range w (Util.to_signed num w) ∧
     Util.to_signed num w mod 2 ^ (8 * w) = num ∧
     Util.to_signed num w =
       Util.to_int (Util.le_digits (Z.to_nat w) num) true) ∧
  (¬ width w → Util.to_signed num w = num).
Proof.
  split.
  - intros Hw Hnum. unfold signed_range.
    rewrite to_int_signed_digits by (destruct Hw as [-> | [-> | ->]]; lia).
    destruct Hw as [-> | [-> | ->]]; unfold Util.to_signed;
      cbn [Z.eqb Pos.eqb];
      [ change (2 ^ (8 * 1 - 1)) with 128 in *; change (2 ^ (8 * 1)) with 256 in *;
        destruct (127 <? num) eqn:E; destruct (128 <=? num) eqn:E'
      | change (2 ^ (8 * 2 - 1)) with 32768 in *; change (2 ^ (8 * 2)) with 65536 in *;
        destruct (32767 <? num) eqn:E; destruct (32768 <=? num) eqn:E'
      | change (2 ^ (8 * 4 - 1)) with 2147483648 in *;
        change (2 ^ (8 * 4)) with 4294967296 in *;
        destruct (2147483647 <? num) eqn:E; destruct (2147483648 <=? num) eqn:E' ];
      try lia; (split; [lia |]); (split; [| reflexivity]);
      try (apply Z.mod_small; lia).
    + replace (num - 256) with (num + (-1) * 256) by lia.
      rewrite Z.mod_add by lia. apply Z.mod_small. lia.
    + replace (num - 65536) with (num + (-1) * 65536) by lia.
      rewrite Z.mod_add by lia. apply Z.mod_small. lia.
    + replace (num - 4294967296) with (num + (-1) * 4294967296) by lia.
      rewrite Z.mod_add by lia. apply Z.mod_small. lia.
  - intros Hw. unfold Util.to_signed.
    destruct (w =? 1) eqn:E1; [exfalso; apply Hw; left; lia |].
    destruct (w =? 2) eqn:E2; [exfalso; apply Hw; right; left; lia |].
    destruct (w =? 4) eqn:E4; [exfalso; apply Hw; right; right; lia |].
    reflexivity.
Qed.

Lemma to_signed_twos_complement_witness :
  (signed_range 2 (Util.to_signed 65535 2) ∧
   Util.to_signed 65535 2 mod 2 ^ (8 * 2) = 65535 ∧
   Util.to_signed 65535 2 = Util.to_int (Util.le_digits (Z.to_nat 2) 65535) true) ∧
  Util.to_signed 65535 2 = -1 ∧
  Util.to_signed 300 3 = 300.
Proof.
  split; [| split; [reflexivity |]].
  - apply (to_signed_twos_complement 65535 2); [right; left; reflexivity | lia].
  - apply (to_signed_twos_complement 300 3).
    intros [H | [H | H]]; discriminate.
Defined.

(** X2: [is_signed_out_of_range] answers [True] exactly when the number
    lies within the signed range of the size, so that it is [True] on
    every result of [to_signed]; a size other than 1, 2 or 4 raises
    [ValueError]. *)
Theorem is_signed_out_of_range_is_in_range (num w : Z) :
  (width w →
     Util.is_signed_out_of_range num w = Ok (bool_decide (signed_range w num)) ∧
     (0 ≤ num < 2 ^ (8 * w) →
        Util.is_signed_out_of_range (Util.to_signed num w) w = Ok true)) ∧
  (¬ width w → Util.is_signed_out_of_range num w = Raise ValueError).
Proof.
  split.
  - intros Hw.
    assert (∀ n, Util.is_signed_out_of_range n w = Ok (bool_decide (signed_range w n))) as Hgen.
    { intros n. unfold signed_range.
      destruct Hw as [-> | [-> | ->]]; unfold Util.is_signed_out_of_range; simpl;
        f_equal; case_bool_decide; lia. }
    split; [apply Hgen |].
    intros Hnum. rewrite Hgen. f_equal. apply bool_decide_eq_true.
    apply to_signed_in_range; assumption.
  - intros Hw. unfold Util.is_signed_out_of_range.
    destruct (w =? 1) eqn:E1; [exfalso; apply Hw; left; lia |].
    destruct (w =? 2) eqn:E2; [exfalso; apply Hw; right; left; lia |].
    destruct (w =? 4) eqn:E4; [exfalso; apply Hw; right; right; lia |].
    reflexivity.
Qed.

Lemma is_signed_out_of_range_is_in_range_witness :
  (Util.is_signed_out_of_range 127 1 = Ok (bool_decide (signed_range 1 127)) ∧
   Util.is_signed_out_of_range (Util.to_signed 200 1) 1 = Ok true) ∧
  Util.is_signed_out_of_range 127 1 = Ok true ∧
  Util.is_signed_out_of_range 128 1 = Ok false ∧
  Util.is_signed_out_of_range 0 3 = Raise ValueError.
Proof.
  split; [| split; [reflexivity | split; [reflexivity |]]].
  - destruct (is_signed_out_of_range_is_in_range 200 1) as [H _].
    destruct (H (or_introl eq_refl)) as [_ H2].
    split; [| apply H2; lia].
    destruct (is_signed_out_of_range_is_in_range 127 1) as [H' _].
    exact (proj1 (H' (or_introl eq_refl))).
  - apply (is_signed_out_of_range_is_in_range 0 3).
    intros [H | [H | H]]; discriminate.
Defined.

End Signed.

(** ** What the syscall handlers leave alone *)

(** [step H] opens the next statement of a handler that has returned. *)
Ltac step H :=
  lazymatch type of H with
  | Raise _ = Ok _ => discriminate H
  | Ok _ = Ok _ => injection H as H; try subst
  | mbind _ _ = Ok _ => bind_inv H
  | (let _ := _ in _) = Ok _ => cbv zeta in H
  | (match ?e with _ => _ end) = Ok _ => destruct e eqn:?
  end.

Section Frame.

Import Kernel.

Lemma set_bytes_frame (m m' : Memory.t) (addr : Z) (data : list Z) :
  Memory.set_bytes m addr data = Ok m' →
  Memory.size m' = Memory.size m ∧
  Memory.program_break m' = Memory.program_break m.
Proof.
  unfold Memory.set_bytes. destruct (Memory.in_range _ _ _); [| discriminate].
  intros [= <-]. split; reflexivity.
Qed.

Lemma memset_frame (m m' : Memory.t) (addr value n r : Z) :
  Memory.memset m addr value n = Ok (r, m') →
  r = addr ∧ Memory.size m' = Memory.size m ∧
  Memory.program_break m' = Memory.program_break m.
Proof.
  unfold Memory.memset. intros H. bind_inv H. injection H as <- <-.
  apply set_bytes_frame in Ha. tauto.
Qed.

Lemma writev_loop_frame (h : Host) (n : nat) (fd iov_addr size size' : Z) (vm vm' : VM) :
  writev_loop h n fd iov_addr size vm = Ok (size', vm') →
  keeps_frame vm vm' ∧ mem vm' = mem vm ∧ descriptors vm' = descriptors vm ∧
  reg vm' = reg vm.
Proof.
  revert iov_addr size vm. induction n as [| n IH]; intros iov_addr size vm H.
  - injection H as <- <-. unfold keeps_frame. repeat split; lia.
  - cbn [writev_loop] in H. bind_inv H.
    destruct (struct_iovec_unpack a) as [iov_base iov_len].
    destruct (iov_len =? 0); [exact (IH _ _ _ H) |].
    bind_inv H. cbv zeta in H. bind_inv H. destruct a1 as [ret vm1].
    apply IH in H as (Hf & Hm & Hd & Hr).
    assert (eip vm1 = eip vm ∧ code_segment_end vm1 = code_segment_end vm ∧
            current_mode vm1 = current_mode vm ∧ mem vm1 = mem vm ∧
            descriptors vm1 = descriptors vm ∧ reg vm1 = reg vm) as Hvm1.
    { clear -Ha1. repeat step Ha1; repeat split. }
    destruct Hvm1 as (H1 & H2 & H3 & H4 & H5 & H6).
    destruct Hf as (F1 & F2 & F3 & F4 & F5).
    unfold keeps_frame. rewrite Hm, Hd, Hr, F1, F2, F3, H1, H2, H3, H4, H5, H6.
    repeat split; lia.
Qed.

Lemma open_file_frame (h : Host) (name : list Z) (mode : string) (vm vm' : VM) (fd : Z) :
  open_file h name mode vm = Ok (fd, vm') →
  eip vm' = eip vm ∧ code_segment_end vm' = code_segment_end vm ∧
  current_mode vm' = current_mode vm ∧ mem vm' = mem vm ∧ reg vm' = reg vm ∧
  (length (descriptors vm) ≤ length (descriptors vm'))%nat.
Proof.
  unfold open_file. intros H. repeat step H; repeat split;
    cbn [descriptors with_descriptors log_call];
    rewrite ?length_insert, ?length_app; cbn [length]; lia.
Qed.

(** [frame_goal] reads the fields of a state built by the setters. *)
Ltac frame_goal :=
  repeat match goal with
  | H : Memory.set_bytes _ _ _ = Ok _ |- _ => apply set_bytes_frame in H as [? ?]
  | H : Memory.set _ _ _ _ = Ok _ |- _ =>
      unfold Memory.set in H; apply set_bytes_frame in H as [? ?]
  | H : Memory.memset _ _ _ _ = Ok _ |- _ => apply memset_frame in H as (? & ? & ?)
  | H : open_file _ _ _ _ = Ok _ |- _ =>
      apply open_file_frame in H as (? & ? & ? & ? & ? & ?)
  end;
  unfold keeps_frame, __return, with_exit, log_call, with_mem, with_reg,
    with_descriptors, with_eip, Memory.with_program_break in *;
  cbn [eip code_segment_end current_mode mem descriptors reg
       Memory.size Memory.program_break Memory.cells] in *;
  rewrite ?length_insert, ?length_app;
  repeat split; try congruence; try (cbn [length]; lia).

(** [args3] spells out the three arguments that [__args] reads. *)
Lemma args3 (types : string) (vm : VM) :
  String.length types = 3%nat →
  __args types vm =
    [Reg.wrap32 (reg vm 3); Reg.wrap32 (reg vm 1); Reg.wrap32 (reg vm 2)].
Proof. intros H. unfold __args. rewrite H. reflexivity. Qed.

Lemma args3_1 (types : string) (vm : VM) :
  String.length types = 1%nat → __args types vm = [Reg.wrap32 (reg vm 3)].
Proof. intros H. unfold __args. rewrite H. reflexivity. Qed.

(** X3: every handler of the syscall table that returns has left EIP,
    [code_segment_end], the mode and the size of the memory as they
    were, and the descriptor table is no shorter than before. *)
Theorem syscalls_keep_frame (h : Host) (code : Z)
    (handler : Host → VM → result VM) (vm vm' : VM) :
  (code, handler) ∈ syscalls →
  handler h vm = Ok vm' →
  keeps_frame vm vm'.
Proof.
  intros Hin Hrun. unfold syscalls in Hin.
  repeat (apply elem_of_cons in Hin as [[= -> ->] | Hin]);
    [.. | apply elem_of_nil in Hin; contradiction].
  - unfold sys_exit in Hrun. simpl in Hrun. repeat step Hrun; frame_goal.
  - unfold sys_read in Hrun. simpl in Hrun. repeat step Hrun; frame_goal.
  - unfold sys_write in Hrun. simpl in Hrun. repeat step Hrun; frame_goal.
  - unfold sys_brk in Hrun. simpl in Hrun. repeat step Hrun; frame_goal.
  - unfold sys_exit_group, sys_exit in Hrun. simpl in Hrun.
    repeat step Hrun; frame_goal.
  - unfold sys_writev in Hrun. simpl in Hrun. bind_inv Hrun.
    destruct a as [size vm1]. injection Hrun as <-.
    apply writev_loop_frame in Ha as ((F1 & F2 & F3 & F4 & F5) & _).
    frame_goal.
  - unfold sys_llseek in Hrun. simpl in Hrun. repeat step Hrun; frame_goal.
  - unfold sys_ioctl in Hrun. rewrite (args3 "suu" vm eq_refl) in Hrun.
    cbv beta iota zeta in Hrun. repeat step Hrun; frame_goal.
  - unfold sys_open in Hrun. simpl in Hrun. repeat step Hrun;
      try match goal with
      | H : (if ?c then _ else _) = Ok _ |- _ => destruct c
      end; frame_goal.
  - unfold sys_close in Hrun. simpl in Hrun. repeat step Hrun; frame_goal.
  - unfold sys_mmap_pgoff in Hrun. simpl in Hrun. repeat step Hrun; frame_goal.
  - unfold sys_munmap in Hrun. simpl in Hrun. repeat step Hrun.
    destruct (_ =? _); frame_goal.
Qed.

(** write(1, buf, 2) through the table entry 0x04, and through the
    entry 0xc0 an anonymous mmap of 8 bytes whose flags and protection
    carry bits (0x40, 0x8) that no member of [MAP_FLAGS] and [MAP_PROT]
    has: the run returns with the break moved from 8 to 16 *)
Lemma syscalls_keep_frame_witness :
  let vm := machine 16 [104; 105] (regs_of [4; 0; 2; 1]) 0 0 in
  let vm2 := machine 32 [] (regs_of [192; 8; 0xB; 0; 0; 0; 0x62; 0]) 8 8 in
  (∃ vm', sys_write plain_host vm = Ok vm' ∧ keeps_frame vm vm') ∧
  (∃ vm', sys_mmap_pgoff vm2 = Ok vm' ∧ program_break vm' = 16 ∧
          keeps_frame vm2 vm').
Proof.
  intros vm vm2. split.
  - eexists. split; [reflexivity |].
    apply (syscalls_keep_frame plain_host 0x04 sys_write vm).
    + unfold syscalls. rewrite !elem_of_cons. right. right. left. reflexivity.
    + reflexivity.
  - eexists. split; [reflexivity |]. split; [reflexivity |].
    apply (syscalls_keep_frame plain_host 0xc0 (λ _, sys_mmap_pgoff) vm2).
    + unfold syscalls. rewrite !elem_of_cons. do 10 right. left. reflexivity.
    + reflexivity.
Defined.

End Frame.

(** ** Dispatch is unambiguous *)

Section Decode.

Import Internals Dispatch.

Lemma subopcode_resolved (vm vm1 : VM) (sz : Z) (RM R : operand) :
  operand_size vm = Ok sz → process_ModRM sz sz vm = Ok (RM, R, vm1) →
  subopcode vm = Some R.1.2.
Proof. intros Hsz HM. unfold subopcode. rewrite Hsz, HM. reflexivity. Qed.

(** [if_chain H] walks down the [if]/[elif] chain of a dispatcher. *)
Ltac if_chain H :=
  repeat match type of H with
  | (if ?c then _ else _) = _ => destruct c eqn:?
  end.

Lemma mov_decodes (op : Z) (vm vm' : VM) :
  _mov op vm = Ok (true, vm') → decodes Mov op vm.
Proof.
  unfold _mov, in_range. intros H. bind_inv H. if_chain H;
    try discriminate; cbn [decodes]; try lia.
  - right. left. split; [lia |]. unfold _VM__mov_rm_imm in H. bind_inv H.
    destruct a0 as [[RM R] vm1]. exists vm1, RM, R. split; [exact Ha0 |].
    destruct (R.1.2 =? 0) eqn:E; [lia | discriminate].
  - right. right. left. split; [lia |]. unfold _VM__mov_rm_imm in H. bind_inv H.
    destruct a0 as [[RM R] vm1]. rewrite (subopcode_resolved _ _ _ _ _ Ha Ha0).
    destruct (R.1.2 =? 0) eqn:E; [f_equal; lia | discriminate].
Qed.

Lemma jmp_decodes (op : Z) (vm vm' : VM) :
  _jmp op vm = Ok (true, vm') → decodes Jmp op vm.
Proof.
  unfold _jmp. intros H. bind_inv H. if_chain H;
    try discriminate; cbn [decodes]; try lia.
  right. right. split; [lia |]. bind_inv H. destruct a0 as [[RM R] vm1].
  rewrite (subopcode_resolved _ _ _ _ _ Ha Ha0). cbv beta iota in H.
  destruct (R.1.2 =? 4) eqn:E4; [left; f_equal; lia |].
  destruct (R.1.2 =? 5) eqn:E5; [right; f_equal; lia | discriminate].
Qed.

Lemma int_decodes (k : imported) (h : Host) (op : Z) (vm vm' : VM) :
  _int k h op vm = Ok (true, vm') → decodes Int op vm.
Proof.
  unfold _int. intros H. if_chain H; try discriminate; cbn [decodes]; lia.
Qed.

Lemma push_decodes (op : Z) (vm vm' : VM) :
  _push op vm = Ok (true, vm') → decodes Push op vm.
Proof.
  unfold _push, in_range. intros H. bind_inv H. if_chain H;
    try discriminate; cbn [decodes]; try lia.
  left. split; [lia |]. bind_inv H. destruct a0 as [[RM R] vm1].
  rewrite (subopcode_resolved _ _ _ _ _ Ha Ha0). cbv beta iota in H.
  destruct (R.1.2 =? 6) eqn:E; [f_equal; lia | discriminate].
Qed.

Lemma pop_decodes (op : Z) (vm vm' : VM) :
  _pop op vm = Ok (true, vm') → decodes Pop op vm.
Proof.
  unfold _pop, in_range. intros H. bind_inv H. if_chain H;
    try discriminate; cbn [decodes]; try lia.
  left. split; [lia |]. bind_inv H. destruct a0 as [[RM R] vm1].
  rewrite (subopcode_resolved _ _ _ _ _ Ha Ha0). cbv beta iota in H.
  destruct (R.1.2 =? 0) eqn:E; [f_equal; lia | discriminate].
Qed.

Lemma call_decodes (op : Z) (vm vm' : VM) :
  _call op vm = Ok (true, vm') → decodes Call op vm.
Proof.
  unfold _call. intros H. bind_inv H. if_chain H;
    try discriminate; cbn [decodes]; try lia.
  right. split; [lia |]. bind_inv H. destruct a0 as [[[[type loc] ?] R] vm1].
  rewrite (subopcode_resolved _ _ _ _ _ Ha Ha0). cbv beta iota in H.
  destruct (R.1.2 =? 2) eqn:E2; [f_equal; lia |].
  destruct (R.1.2 =? 3); discriminate.
Qed.

Lemma ret_decodes (op : Z) (vm vm' : VM) :
  _ret op vm = Ok (true, vm') → decodes Ret op vm.
Proof.
  unfold _ret. intros H. bind_inv H. if_chain H;
    try discriminate; cbn [decodes]; lia.
Qed.

(** X4: a dispatcher answers [True] only on the opcodes (and, for the
    group opcodes 0xC6, 0xC7, 0x8F and 0xFF, the sub-opcodes) of its own
    mnemonic, and no two dispatchers answer [True] to the same opcode in
    the same state. *)
Theorem dispatch_unambiguous (k : imported) (h : Host) (m1 m2 : mnemonic)
    (op : Z) (vm v1 v2 : VM) :
  dispatch k h m1 op vm = Ok (true, v1) →
  dispatch k h m2 op vm = Ok (true, v2) →
  decodes m1 op vm ∧ m1 = m2.
Proof.
  assert (∀ m v, dispatch k h m op vm = Ok (true, v) → decodes m op vm) as Hdec.
  { intros [] v H; cbn [dispatch] in H;
      eauto using mov_decodes, jmp_decodes, int_decodes, push_decodes,
                  pop_decodes, call_decodes, ret_decodes. }
  intros H1 H2. apply Hdec in H1, H2. split; [exact H1 |].
  destruct m1, m2; try reflexivity; cbn [decodes] in H1, H2; exfalso;
    repeat match goal with
    | H : _ ∨ _ |- _ => destruct H
    | H : _ ∧ _ |- _ => destruct H
    | H : ∃ _, _ |- _ => destruct H
    end; try lia; congruence.
Qed.

(** FF /6 at EIP: [_push] answers [True], [_jmp] and [_call] [False] *)
Lemma dispatch_unambiguous_witness :
  let vm := machine 64 [0xF0] (regs_of [7; 0; 0; 0; 32]) 0 0 in
  (∃ v, _push 0xFF vm = Ok (true, v)) ∧
  (∃ v, _jmp 0xFF vm = Ok (false, v)) ∧
  (∃ v, _call 0xFF vm = Ok (false, v)) ∧
  decodes Push 0xFF vm.
Proof.
  intros vm.
  split; [eexists; reflexivity |]. split; [eexists; reflexivity |].
  split; [eexists; reflexivity |].
  eapply (dispatch_unambiguous idle_imports plain_host Push Push 0xFF vm); reflexivity.
Defined.

End Decode.

(** ** The software interrupt *)

Section Interrupt.

Import Kernel Dispatch.

(** the syscall number is the accumulator at full width *)
Lemma syscall_number (vm : VM) :
  ∃ raw, Reg.get (reg vm) 0 4 = Ok raw ∧
         Util.to_int raw false = Reg.wrap32 (reg vm 0).
Proof.
  eexists. split; [reflexivity |].
  rewrite to_int_unsigned. apply (digits_value 4); [lia |].
  apply wrap32_nonneg.
Qed.

(** X5: [_int] on 0xCD with the vector 0x80 at EIP and 1, 3 or 4 in the
    accumulator calls what [valid_syscalls] holds for that number
    ([__sys_exit], [__sys_read], [__sys_write]), on the state in which
    EIP has passed the vector byte and nothing else has changed.  When
    the call returns, [_int] answers [True] with the state the call
    left; when it raises, [_int] raises the same; in neither case does
    [_int] answer [False]. *)
Theorem int_0x80_syscall (k : imported) (h : Host) (vm : VM)
    (handler : VM → result VM) :
  Memory.get_bytes (mem vm) (eip vm) 1 = Ok [0x80] →
  Reg.wrap32 (reg vm 0) = 1 ∧ handler = __sys_exit k ∨
  Reg.wrap32 (reg vm 0) = 3 ∧ handler = __sys_read k ∨
  Reg.wrap32 (reg vm 0) = 4 ∧ handler = __sys_write k →
  let vm1 := with_eip vm (eip vm + 1) in
  (∀ vm', handler vm1 = Ok vm' → _int k h 0xCD vm = Ok (true, vm')) ∧
  (∀ e, handler vm1 = Raise e → _int k h 0xCD vm = Raise e) ∧
  (∀ vm', _int k h 0xCD vm ≠ Ok (false, vm')).
Proof.
  intros Hvec Hnum vm1.
  assert (_int k h 0xCD vm = (vm' ← handler vm1; Ok (true, vm'))) as ->.
  { destruct (syscall_number vm1) as (raw & Hraw & Hraw_eax).
    unfold _int. change (205 =? 204) with false. change (205 =? 205) with true.
    cbv iota. rewrite Hvec. cbn [mbind result_bind]. fold vm1.
    unfold interrupt. change (Util.to_int [128] false =? 128) with true.
    cbn [negb]. rewrite Hraw. cbn [mbind result_bind]. rewrite Hraw_eax.
    change (reg vm1 0) with (reg vm 0).
    destruct Hnum as [[-> ->] | [[-> ->] | [-> ->]]]; reflexivity. }
  split; [| split].
  - intros vm' ->. reflexivity.
  - intros e ->. reflexivity.
  - intros vm'. destruct (handler vm1); discriminate.
Qed.

(** the bytes CD 80 with an [__sys_exit] that halts with code 7 and an
    [__sys_write] that raises: EAX = 1 answers [True] in the halted
    state with EIP past the vector, EAX = 4 raises *)
Lemma int_0x80_syscall_witness :
  let k := mkImported (λ vm, Ok (with_exit vm 7)) Ok (λ _, Raise OSError) in
  let vm := with_eip (machine 16 [0xCD; 0x80] (regs_of [1]) 8 12) 1 in
  let vm4 := with_eip (machine 16 [0xCD; 0x80] (regs_of [4]) 8 12) 1 in
  _int k plain_host 0xCD vm = Ok (true, with_exit (with_eip vm 2) 7) ∧
  _int k plain_host 0xCD vm4 = Raise OSError.
Proof.
  intros k vm vm4. split.
  - apply (int_0x80_syscall k plain_host vm (__sys_exit k));
      [reflexivity | left; split; reflexivity | reflexivity].
  - apply (int_0x80_syscall k plain_host vm4 (__sys_write k));
      [reflexivity | right; right; split; reflexivity | reflexivity].
Defined.

(** X6: [_int] on 0xCD never answers [False]: a vector other than 0x80
    raises [RuntimeError] with the vector in hexadecimal, and with the
    vector 0x80 an accumulator other than 1, 3 or 4 raises [KeyError]. *)
Theorem int_rejects (k : imported) (h : Host) (vm : VM) (vector : Z) :
  Memory.get_bytes (mem vm) (eip vm) 1 = Ok [vector] →
  (vector ≠ 0x80 →
     _int k h 0xCD vm =
       Raise (RuntimeError ("Invalid interrupt: " +:+ HexString.of_Z vector))) ∧
  (vector = 0x80 →
     Reg.wrap32 (reg vm 0) ≠ 1 → Reg.wrap32 (reg vm 0) ≠ 3 →
     Reg.wrap32 (reg vm 0) ≠ 4 →
     _int k h 0xCD vm = Raise KeyError).
Proof.
  intros Hvec.
  assert (Util.to_int [vector] false = vector) as Hv.
  { unfold Util.to_int. cbn [andb Util.from_bytes_le]. lia. }
  unfold _int. change (205 =? 204) with false. change (205 =? 205) with true.
  cbv iota. rewrite Hvec. cbn [mbind result_bind]. rewrite Hv.
  unfold interrupt. split.
  - intros Hne. destruct (vector =? 128) eqn:E; [lia | reflexivity].
  - intros -> H1 H3 H4. change (negb (128 =? 128)) with false. cbv iota.
    destruct (syscall_number (with_eip vm (eip vm + 1))) as (raw & Hraw & Hnum).
    rewrite Hraw. cbn [mbind result_bind]. rewrite Hnum.
    change (reg (with_eip vm (eip vm + 1)) 0) with (reg vm 0).
    destruct (_ =? 1) eqn:E1; [lia |].
    destruct (_ =? 3) eqn:E3; [lia |].
    destruct (_ =? 4) eqn:E4; [lia | reflexivity].
Qed.

(** int 3 spelled CD 03, and int 0x80 with EAX = 45 (brk) *)
Lemma int_rejects_witness :
  _int idle_imports plain_host 0xCD (machine 16 [3] Reg.zero 0 0) =
    Raise (RuntimeError "Invalid interrupt: 0x3") ∧
  _int idle_imports plain_host 0xCD (machine 16 [0x80] (regs_of [45]) 0 0) =
    Raise KeyError.
Proof.
  split.
  - apply (int_rejects idle_imports plain_host (machine 16 [3] Reg.zero 0 0) 3);
      [reflexivity | discriminate].
  - apply (int_rejects idle_imports plain_host
             (machine 16 [0x80] (regs_of [45]) 0 0) 0x80);
      [reflexivity | reflexivity | vm_compute; discriminate ..].
Defined.

End Interrupt.

(** ** ADD and SUB as inverses; the group opcode of ADD/SUB *)

Section AddSubGroup.

Import Arith Internals.

Lemma with_eip_with_eip (vm : VM) (a b : Z) :
  with_eip (with_eip vm a) b = with_eip vm b.
Proof. reflexivity. Qed.

Lemma with_eip_same (vm : VM) : with_eip vm (eip vm) = vm.
Proof. destruct vm. reflexivity. Qed.

Lemma read_disp_frame (n : Z) (vm vm' : VM) (d : Z) :
  read_disp n vm = Ok (d, vm') → vm' = with_eip vm (eip vm').
Proof.
  unfold read_disp. intros H. bind_inv H. injection H as _ <-. reflexivity.
Qed.

Lemma sib_address_frame (MOD : Z) (vm vm' : VM) (addr : Z) :
  sib_address MOD vm = Ok (addr, vm') → vm' = with_eip vm (eip vm').
Proof.
  unfold sib_address. intros H. bind_inv H. bind_inv H.
  destruct a0 as [b vm1]. bind_inv H. injection H as _ <-.
  destruct ((_ =? 5) && (MOD =? 0)).
  - apply read_disp_frame in Ha0. rewrite Ha0 at 1. reflexivity.
  - bind_inv Ha0. injection Ha0 as _ <-. reflexivity.
Qed.

(** The resolver changes nothing but EIP. *)
Lemma process_ModRM_frame (s1 s2 : Z) (vm vm' : VM) (RM R : operand) :
  process_ModRM s1 s2 vm = Ok (RM, R, vm') → vm' = with_eip vm (eip vm').
Proof.
  unfold process_ModRM. intros H. bind_inv H.
  destruct (_ =? 3).
  - injection H as _ _ <-. reflexivity.
  - bind_inv H. destruct a0 as [addr vm1]. bind_inv H.
    destruct a0 as [d vm2]. injection H as _ _ <-.
    assert (vm1 = with_eip vm (eip vm1)) as H1.
    { destruct (_ =? 4).
      - apply sib_address_frame in Ha0. rewrite Ha0 at 1. reflexivity.
      - destruct ((_ =? 0) && (_ =? 5)).
        + apply read_disp_frame in Ha0. rewrite Ha0 at 1. reflexivity.
        + bind_inv Ha0. injection Ha0 as _ <-. reflexivity. }
    assert (vm2 = with_eip vm1 (eip vm2)) as H2.
    { destruct (_ =? 1).
      - apply read_disp_frame in Ha1. exact Ha1.
      - destruct (_ =? 2).
        + apply read_disp_frame in Ha1. exact Ha1.
        + injection Ha1 as _ <-. symmetry. apply with_eip_same. }
    rewrite H2 at 1. rewrite H1 at 1. reflexivity.
Qed.

(** X7: [_VM__addsub_rm_imm] accepts exactly its own sub-opcode, 0 for
    ADD and 5 for SUB, so never both on the same bytes; when it refuses,
    the state it returns is the state it was given. *)
Theorem addsub_rm_imm_group (off imm_sz : Z) (sub : bool)
    (vm vm1 : VM) (RM R : operand) (raw : list Z) :
  process_ModRM off off vm = Ok (RM, R, vm1) →
  Memory.get_bytes (mem vm1) (eip vm1) imm_sz = Ok raw →
  (R.1.2 ≠ (if sub then 5 else 0) →
     _VM__addsub_rm_imm off imm_sz sub vm = Ok (false, vm)) ∧
  (∀ vm', _VM__addsub_rm_imm off imm_sz sub vm = Ok (true, vm') →
     R.1.2 = (if sub then 5 else 0)).
Proof.
  intros HM Hraw. unfold _VM__addsub_rm_imm. rewrite HM.
  cbn [mbind result_bind]. rewrite Hraw. cbn [mbind result_bind].
  pose proof (process_ModRM_frame _ _ _ _ _ _ HM) as Hvm1.
  assert (with_eip (with_eip vm1 (eip vm1 + off)) (eip vm) = vm) as Hback.
  { rewrite Hvm1. rewrite !with_eip_with_eip. apply with_eip_same. }
  split.
  - intros HR. rewrite Hback. destruct sub; cbn [negb andb].
    + destruct (R.1.2 =? 5) eqn:E; [lia | reflexivity].
    + destruct (R.1.2 =? 0) eqn:E; [lia | reflexivity].
  - intros vm'. destruct sub; cbn [negb andb].
    + destruct (R.1.2 =? 5) eqn:E; [lia | discriminate].
    + destruct (R.1.2 =? 0) eqn:E; [lia | discriminate].
Qed.

(** ModRM 0xE8 (mod = 3, reg = 5, rm = 0) followed by the immediate 1:
    ADD refuses and returns the state, SUB accepts *)
Lemma addsub_rm_imm_group_witness :
  let vm := machine 16 [0xE8; 1; 0; 0; 0] (regs_of [0]) 0 0 in
  _VM__addsub_rm_imm 4 4 false vm = Ok (false, vm) ∧
  ∃ vm', _VM__addsub_rm_imm 4 4 true vm = Ok (true, vm') ∧
         Reg.get_int (reg vm') 0 4 = Ok 0xFFFFFFFF.
Proof.
  intros vm. split.
  - apply (addsub_rm_imm_group 4 4 false vm (with_eip vm 1)
             (false, 0, 4) (false, 5, 4) [1; 0; 0; 0]);
      [reflexivity | reflexivity | simpl; lia].
  - eexists. split; reflexivity.
Defined.

(** [_VM__addsub_al_imm] in full: the state it returns *)
Lemma addsub_al_imm_run (w a : Z) (sub : bool) (vm : VM) (raw : list Z) :
  width w →
  Memory.get_bytes (mem vm) (eip vm) w = Ok raw →
  Reg.get_int (reg vm) 0 w = Ok a →
  let imm := Util.to_int raw false in
  ∃ vm', _VM__addsub_al_imm w sub vm = Ok vm' ∧
    eip vm' = eip vm + w ∧ mem vm' = mem vm ∧
    Reg.get_int (reg vm') 0 w =
      Ok (if sub then (a - imm) mod 2 ^ (8 * w) else (a + imm) mod 2 ^ (8 * w)).
Proof.
  intros Hw Hraw Ha imm. destruct (width_pos w Hw) as [Hw0 Hpow].
  pose proof (get_int_bound _ _ _ _ Hw Ha) as Hab.
  set (t := if sub then (a - imm) mod 2 ^ (8 * w) else (a + imm) mod 2 ^ (8 * w)).
  assert (0 ≤ t < 2 ^ (8 * w)) as Ht
    by (unfold t; destruct sub; apply Z.mod_pos_bound; lia).
  assert (addsub_tmp w sub a imm = Ok t) as Htmp.
  { unfold t. destruct sub.
    - rewrite addsub_tmp_sub by exact Hw. f_equal. apply complement_sub.
    - apply addsub_tmp_add. exact Hw. }
  destruct (get_set_accumulator (reg vm) w t Hw Ht) as (rf' & Hset & Hget).
  exists (with_reg (with_eip vm (eip vm + w)) rf').
  split; [| split; [reflexivity | split; [reflexivity | exact Hget]]].
  unfold _VM__addsub_al_imm. rewrite Hraw. simpl.
  unfold Reg.get. rewrite Ha. simpl.
  rewrite to_int_unsigned, digits_value by lia. fold imm.
  rewrite Htmp. simpl. rewrite to_bytes_digits by lia. simpl.
  unfold Reg.set. rewrite le_digits_length, Z2Nat.id, digits_value by lia.
  rewrite Hset. reflexivity.
Qed.

(** X8: ADD of an immediate to the accumulator followed by SUB of the
    same immediate leaves the accumulator, at the width operated on, as
    it was, whatever the immediate and whether or not the sum wrapped. *)
Theorem add_then_sub_restores (w a : Z) (vm : VM) (raw : list Z) :
  width w →
  Memory.get_bytes (mem vm) (eip vm) w = Ok raw →
  Memory.get_bytes (mem vm) (eip vm + w) w = Ok raw →
  Reg.get_int (reg vm) 0 w = Ok a →
  ∃ vm1 vm2,
    _VM__addsub_al_imm w false vm = Ok vm1 ∧
    _VM__addsub_al_imm w true vm1 = Ok vm2 ∧
    Reg.get_int (reg vm2) 0 w = Ok a ∧
    eip vm2 = eip vm + w + w.
Proof.
  intros Hw Hraw1 Hraw2 Ha.
  destruct (addsub_al_imm_run w a false vm raw Hw Hraw1 Ha)
    as (vm1 & Hrun1 & Heip1 & Hmem1 & Hget1).
  rewrite <- Hmem1, <- Heip1 in Hraw2.
  destruct (addsub_al_imm_run w _ true vm1 raw Hw Hraw2 Hget1)
    as (vm2 & Hrun2 & Heip2 & _ & Hget2).
  exists vm1, vm2. split; [exact Hrun1 |]. split; [exact Hrun2 |].
  split; [| lia]. rewrite Hget2. f_equal.
  destruct (width_pos w Hw) as [_ Hpow].
  pose proof (get_int_bound _ _ _ _ Hw Ha) as Hab.
  rewrite Zminus_mod_idemp_l.
  replace (a + Util.to_int raw false - Util.to_int raw false) with a by lia.
  apply Z.mod_small. exact Hab.
Qed.

(** ADD AL, 0xF0 then SUB AL, 0xF0 with AL = 0x20: the sum wraps to
    0x10 and AL is 0x20 again *)
Lemma add_then_sub_restores_witness :
  let vm := machine 16 [0xF0; 0xF0] (regs_of [0x20]) 0 0 in
  ∃ vm1 vm2,
    _VM__addsub_al_imm 1 false vm = Ok vm1 ∧
    _VM__addsub_al_imm 1 true vm1 = Ok vm2 ∧
    Reg.get_int (reg vm2) 0 1 = Ok 0x20 ∧
    eip vm2 = 0 + 1 + 1.
Proof.
  intros vm.
  apply (add_then_sub_restores 1 0x20 vm [0xF0]);
    [left; reflexivity | reflexivity | reflexivity | reflexivity].
Defined.

End AddSubGroup.

(** ** MOV: immediates and absolute addresses *)

Section MovHandlers.

Import Internals Dispatch.

Lemma get_bytes_set_bytes (m m' : Memory.t) (addr : Z) (data : list Z) :
  Memory.set_bytes m addr data = Ok m' →
  Memory.get_bytes m' addr (Z.of_nat (length data)) = Ok data.
Proof.
  unfold Memory.set_bytes. destruct (Memory.in_range m addr _) eqn:Hr; [| discriminate].
  intros [= <-]. unfold Memory.get_bytes.
  replace (Memory.in_range _ addr _) with true by (symmetry; exact Hr).
  f_equal. apply read_write.
Qed.

Lemma reg_get_digits (rf : Reg.t) (r w a : Z) :
  Reg.get_int rf r w = Ok a → Reg.get rf r w = Ok (Util.le_digits (Z.to_nat w) a).
Proof. intros H. unfold Reg.get. rewrite H. reflexivity. Qed.

(** the accumulator read back at the width it was written, the other
    registers untouched *)
Lemma set_accumulator (rf : Reg.t) (w v : Z) :
  width w → 0 ≤ v < 2 ^ (8 * w) →
  ∃ rf', Reg.set_int rf 0 w v = Ok rf' ∧ Reg.get_int rf' 0 w = Ok v ∧
         ∀ r, r ≠ 0 → rf' r = rf r.
Proof.
  intros Hw Hv. destruct (get_set_accumulator rf w v Hw Hv) as (rf' & Hset & Hget).
  exists rf'. split; [exact Hset |]. split; [exact Hget |].
  intros r Hr. revert Hset. unfold Reg.set_int, Reg.upd.
  destruct Hw as [-> | [-> | ->]]; simpl; intros [= <-];
    (destruct (r =? 0) eqn:E; [lia | reflexivity]).
Qed.

(** X9: [_VM__mov_moffs_eax] stores the accumulator, at the width
    operated on, at the address read inline, and leaves the registers
    alone.  Whatever the registers hold afterwards, [_VM__mov_eax_moffs]
    run next on the same inline address loads the stored value from
    memory into the accumulator: the accumulator, at that width, is
    what it was before the store, no other register and no byte of
    memory has changed, and EIP has passed both addresses. *)
Theorem mov_moffs_round_trip (w a : Z) (vm vm1 : VM) (raw : list Z) :
  width w →
  Memory.get_bytes (mem vm) (eip vm) w = Ok raw →
  Reg.get_int (reg vm) 0 w = Ok a →
  _VM__mov_moffs_eax w vm = Ok vm1 →
  Memory.get_bytes (mem vm1) (eip vm1) w = Ok raw →
  Memory.get (mem vm1) (Util.to_int raw false) w = Ok a ∧
  reg vm1 = reg vm ∧
  ∀ rf : Reg.t, ∃ vm2, _VM__mov_eax_moffs w (with_reg vm1 rf) = Ok vm2 ∧
    Reg.get_int (reg vm2) 0 w = Ok a ∧
    (∀ r, r ≠ 0 → reg vm2 r = rf r) ∧
    mem vm2 = mem vm1 ∧
    eip vm2 = eip vm + w + w.
Proof.
  intros Hw Hraw Ha Hrun Hraw1. destruct (width_pos w Hw) as [Hw0 _].
  pose proof (get_int_bound _ _ _ _ Hw Ha) as Hab.
  unfold _VM__mov_moffs_eax in Hrun. rewrite Hraw in Hrun.
  cbn [mbind result_bind] in Hrun.
  change (reg (with_eip vm (eip vm + w))) with (reg vm) in Hrun.
  rewrite (reg_get_digits _ _ _ _ Ha) in Hrun. cbn [mbind result_bind] in Hrun.
  bind_inv Hrun. injection Hrun as <-.
  change (mem (with_eip vm (eip vm + w))) with (mem vm) in Ha0.
  apply get_bytes_set_bytes in Ha0.
  rewrite le_digits_length, Z2Nat.id in Ha0 by lia.
  cbn [mem with_mem with_eip eip reg] in *.
  split; [| split; [reflexivity |]].
  - unfold Memory.get. rewrite Ha0. cbn [mbind result_bind].
    rewrite to_int_unsigned, digits_value by lia. reflexivity.
  - intros rf.
    destruct (set_accumulator rf w a Hw Hab) as (rf' & Hset & Hget & Hother).
    exists (with_reg (with_eip (with_mem (with_eip vm (eip vm + w)) a0)
                        (eip vm + w + w)) rf').
    split; [| split; [exact Hget | split; [exact Hother | split; reflexivity]]].
    unfold _VM__mov_eax_moffs. cbn [mem with_mem with_reg with_eip eip reg].
    rewrite Hraw1. cbn [mbind result_bind]. cbn [mem with_mem with_reg with_eip eip reg].
    rewrite Ha0. cbn [mbind result_bind]. unfold Reg.set.
    rewrite le_digits_length, Z2Nat.id, digits_value by lia.
    rewrite Hset. reflexivity.
Qed.

(** the inline address 8, twice, and AX = 0xBEEF: the word at 8 becomes
    0xBEEF; EAX is then overwritten with 0x55550000, and the load brings
    0xBEEF back into AX and leaves the upper half of EAX and ECX alone *)
Lemma mov_moffs_round_trip_witness :
  let vm := machine 16 [8; 0; 8; 0] (regs_of [0x1234BEEF]) 0 0 in
  ∃ vm1 vm2,
    _VM__mov_moffs_eax 2 vm = Ok vm1 ∧
    Memory.get (mem vm1) 8 2 = Ok 0xBEEF ∧
    _VM__mov_eax_moffs 2 (with_reg vm1 (regs_of [0x55550000; 9])) = Ok vm2 ∧
    Reg.get_int (reg vm2) 0 2 = Ok 0xBEEF ∧ reg vm2 0 = 0x5555BEEF ∧
    reg vm2 1 = 9 ∧ eip vm2 = 4.
Proof.
  intros vm. eexists.
  destruct (mov_moffs_round_trip 2 0xBEEF vm _ [8; 0]
              (or_intror (or_introl eq_refl)) eq_refl eq_refl eq_refl eq_refl)
    as (Hmem & _ & Hload).
  destruct (Hload (regs_of [0x55550000; 9])) as (vm2 & Hrun & Hget & Hother & _ & Heip).
  exists vm2. split; [reflexivity |]. split; [exact Hmem |].
  split; [exact Hrun |]. split; [exact Hget |].
  split; [| split; [exact (Hother 1 ltac:(discriminate)) | exact Heip]].
  vm_compute in Hrun. injection Hrun as <-. reflexivity.
Defined.

(** X10: in 32-bit mode [_mov] on an opcode 0xB8 + r loads the four
    bytes that follow into register r and into no other register,
    leaves memory alone, moves EIP by four and answers [True]. *)
Theorem mov_r_imm32 (op v : Z) (vm : VM) (raw : list Z) :
  current_mode vm = 0%nat →
  0xB8 ≤ op < 0xC0 →
  Memory.get_bytes (mem vm) (eip vm) 4 = Ok raw →
  Util.from_bytes_le raw = v → 0 ≤ v < 2 ^ 32 →
  ∃ vm', _mov op vm = Ok (true, vm') ∧
    Reg.get_int (reg vm') (op - 0xB8) 4 = Ok v ∧
    (∀ r, r ≠ op - 0xB8 → reg vm' r = reg vm r) ∧
    mem vm' = mem vm ∧ eip vm' = eip vm + 4.
Proof.
  intros Hmode Hop Hraw Hv Hbound.
  assert (length raw = 4%nat) as Hlen.
  { apply get_bytes_Ok in Hraw as (_ & _ & _ & ->).
    unfold Memory.read. rewrite length_fmap, length_seqZ. reflexivity. }
  assert (Z.land op 7 = op - 0xB8) as Hr.
  { assert (op = 0xB8 ∨ op = 0xB9 ∨ op = 0xBA ∨ op = 0xBB ∨
            op = 0xBC ∨ op = 0xBD ∨ op = 0xBE ∨ op = 0xBF) as Hcases by lia.
    destruct Hcases as [-> | [-> | [-> | [-> | [-> | [-> | [-> | ->]]]]]]];
      reflexivity. }
  exists (with_reg (with_eip vm (eip vm + 4)) (Reg.upd (reg vm) (op - 0xB8) v)).
  split; [| split; [| split; [| split; reflexivity]]].
  - unfold _mov, operand_size, in_range. rewrite Hmode. cbn [lookup list_lookup sizes].
    cbn [mbind result_bind].
    destruct ((0xB0 <=? op) && (op <? 0xB8)) eqn:E1; [lia |].
    destruct ((0xB8 <=? op) && (op <? 0xB8 + 8)) eqn:E2; [| lia].
    unfold _VM__mov_r_imm. rewrite Hraw. cbn [mbind result_bind].
    unfold Reg.set, Reg.set_int. rewrite Hlen, Hr, Hv. reflexivity.
  - cbn [reg with_reg]. unfold Reg.get_int, Reg.upd. cbn [Z.eqb Pos.eqb].
    rewrite Z.eqb_refl. f_equal. unfold Reg.wrap32.
    rewrite Z.mod_mod by lia. apply Z.mod_small. exact Hbound.
  - intros r Hne. cbn [reg with_reg]. unfold Reg.upd.
    destruct (r =? op - 0xB8) eqn:E; [lia | reflexivity].
Qed.

(** BB 2A 00 00 00, the opcode fetched: EBX receives 42 *)
Lemma mov_r_imm32_witness :
  let vm := machine 16 [0x2A; 0; 0; 0] (regs_of [1; 2; 3; 4]) 0 0 in
  ∃ vm', _mov 0xBB vm = Ok (true, vm') ∧
    Reg.get_int (reg vm') 3 4 = Ok 42 ∧
    reg vm' 0 = 1 ∧ reg vm' 1 = 2 ∧ reg vm' 2 = 3 ∧
    mem vm' = mem vm ∧ eip vm' = 4.
Proof.
  intros vm.
  destruct (mov_r_imm32 0xBB 42 vm [0x2A; 0; 0; 0])
    as (vm' & Hrun & Hget & Hother & Hmem & Heip);
    [reflexivity | lia | reflexivity | reflexivity | lia |].
  exists vm'. split; [exact Hrun |]. split; [exact Hget |].
  split; [rewrite Hother by lia; reflexivity |].
  split; [rewrite Hother by lia; reflexivity |].
  split; [rewrite Hother by lia; reflexivity |].
  split; [exact Hmem | exact Heip].
Defined.

End MovHandlers.

(** ** ADD and SUB: what the four handlers leave in the destination *)

Section AddSubHandlers.

Import Arith Internals.

(** what [addsub_tmp] yields, a value of the width *)
Lemma addsub_tmp_value (w a b : Z) (sub : bool) :
  width w →
  let t := if sub then (a - b) mod 2 ^ (8 * w) else (a + b) mod 2 ^ (8 * w) in
  addsub_tmp w sub a b = Ok t ∧ 0 ≤ t < 2 ^ (8 * w).
Proof.
  intros Hw t. destruct (width_pos w Hw) as [_ Hpow]. split.
  - unfold t. destruct sub.
    + rewrite addsub_tmp_sub by exact Hw. f_equal. apply complement_sub.
    + apply addsub_tmp_add. exact Hw.
  - unfold t. destruct sub; apply Z.mod_pos_bound; lia.
Qed.

(** a register read back at the width it was written, whatever its
    index: at width 1 the indices from 4 on are second bytes *)
Lemma get_set_register (rf : Reg.t) (r w v : Z) :
  width w → 0 ≤ v < 2 ^ (8 * w) →
  ∃ rf', Reg.set_int rf r w v = Ok rf' ∧ Reg.get_int rf' r w = Ok v.
Proof.
  unfold Reg.set_int, Reg.get_int, Reg.upd, Reg.wrap32.
  intros [-> | [-> | ->]] Hv; cbn [Z.eqb Pos.eqb];
    [destruct (r <? 4) eqn:E | |];
    (eexists; split; [reflexivity |]); cbn beta;
    rewrite ?E, Z.eqb_refl; f_equal;
    change (2 ^ (8 * 1)) with 256 in Hv; change (2 ^ (8 * 2)) with 65536 in Hv;
    change (2 ^ (8 * 4)) with 4294967296 in Hv;
    change (2 ^ 8) with 256; change (2 ^ 16) with 65536;
    change (2 ^ 32) with 4294967296;
    Z.div_mod_to_equations; lia.
Qed.

(** the bytes of a value of the width, stored in a register or in
    memory and read back *)
Lemma register_store (rf : Reg.t) (r w t : Z) :
  width w → 0 ≤ t < 2 ^ (8 * w) →
  ∃ rf', Reg.set rf r (Util.le_digits (Z.to_nat w) t) = Ok rf' ∧
         Reg.get_int rf' r w = Ok t.
Proof.
  intros Hw Ht. destruct (width_pos w Hw) as [Hw0 _].
  destruct (get_set_register rf r w t Hw Ht) as (rf' & Hset & Hget).
  exists rf'. split; [| exact Hget].
  unfold Reg.set. rewrite le_digits_length, Z2Nat.id, digits_value by lia.
  exact Hset.
Qed.

Lemma memory_store (m : Memory.t) (loc w t : Z) (raw : list Z) :
  width w → 0 ≤ t < 2 ^ (8 * w) →
  Memory.get_bytes m loc w = Ok raw →
  ∃ m', Memory.set_bytes m loc (Util.le_digits (Z.to_nat w) t) = Ok m' ∧
        Memory.get m' loc w = Ok t.
Proof.
  intros Hw Ht Hraw. destruct (width_pos w Hw) as [Hw0 _].
  destruct (Memory.set_bytes m loc (Util.le_digits (Z.to_nat w) t))
    as [m' |] eqn:Hset.
  - exists m'. split; [reflexivity |].
    apply get_bytes_set_bytes in Hset.
    rewrite le_digits_length, Z2Nat.id in Hset by lia.
    unfold Memory.get. rewrite Hset. cbn [mbind result_bind].
    rewrite to_int_unsigned, digits_value by lia. reflexivity.
  - exfalso. unfold Memory.set_bytes in Hset. unfold Memory.get_bytes in Hraw.
    rewrite le_digits_length, Z2Nat.id in Hset by lia.
    destruct (Memory.in_range m loc w); discriminate.
Qed.

(** the bytes that a handler reads for an operand of a known value *)
Lemma register_read (rf : Reg.t) (r w a : Z) :
  width w → Reg.get_int rf r w = Ok a →
  ∃ araw, Reg.get rf r w = Ok araw ∧ Util.to_int araw false = a.
Proof.
  intros Hw Ha. destruct (width_pos w Hw) as [Hw0 _].
  pose proof (get_int_bound _ _ _ _ Hw Ha).
  eexists. split; [apply reg_get_digits; exact Ha |].
  rewrite to_int_unsigned. apply digits_value; lia.
Qed.

Lemma memory_read (m : Memory.t) (loc w a : Z) :
  Memory.get m loc w = Ok a →
  ∃ araw, Memory.get_bytes m loc w = Ok araw ∧ Util.to_int araw false = a.
Proof.
  unfold Memory.get. destruct (Memory.get_bytes m loc w) as [araw |];
    [| discriminate].
  cbn [mbind result_bind]. intros [= <-]. eauto.
Qed.

(** [_VM__addsub_rm_imm], accepted: the r/m operand receives the sum of
    its value and the immediate, or their difference. *)
Lemma addsub_rm_imm_value (w imm_sz a b : Z) (sub : bool) (vm vm1 : VM)
    (RM R : operand) :
  width w →
  process_ModRM w w vm = Ok (RM, R, vm1) →
  R.1.2 = (if sub then 5 else 0) →
  operand_value vm1 RM w = Ok a →
  Memory.get (mem vm1) (eip vm1) imm_sz = Ok b →
  ∃ vm', _VM__addsub_rm_imm w imm_sz sub vm = Ok (true, vm') ∧
    operand_value vm' RM w =
      Ok (if sub then (a - b) mod 2 ^ (8 * w) else (a + b) mod 2 ^ (8 * w)).
Proof.
  intros Hw HM HR Ha Hb. destruct (width_pos w Hw) as [Hw0 _].
  destruct (addsub_tmp_value w a b sub Hw) as [Htmp Ht].
  destruct (memory_read _ _ _ _ Hb) as (raw & Hraw & Hbv).
  destruct RM as [[type loc] sz]. unfold operand_value in *. cbn [fst snd] in *.
  unfold _VM__addsub_rm_imm. rewrite HM. cbn [mbind result_bind].
  rewrite Hraw. cbn [mbind result_bind]. rewrite Hbv.
  assert (negb sub && negb (R.1.2 =? 0) = false) as ->
    by (rewrite HR; destruct sub; reflexivity).
  assert (sub && negb (R.1.2 =? 5) = false) as ->
    by (rewrite HR; destruct sub; reflexivity).
  destruct type; cbn [negb mem reg with_eip].
  - destruct (memory_read _ _ _ _ Ha) as (araw & Haraw & Hav).
    destruct (memory_store _ loc w _ araw Hw Ht Haraw) as (m' & Hset & Hget).
    exists (with_mem (with_eip vm1 (eip vm1 + w)) m'). split; [| exact Hget].
    rewrite Haraw. cbn [mbind result_bind]. rewrite Hav, Htmp.
    cbn [mbind result_bind]. rewrite to_bytes_digits by lia.
    cbn [mbind result_bind]. rewrite Hset. reflexivity.
  - destruct (register_read _ _ _ _ Hw Ha) as (araw & Haraw & Hav).
    destruct (register_store (reg vm1) loc w _ Hw Ht) as (rf' & Hset & Hget).
    exists (with_reg (with_eip vm1 (eip vm1 + w)) rf'). split; [| exact Hget].
    rewrite Haraw. cbn [mbind result_bind]. rewrite Hav, Htmp.
    cbn [mbind result_bind]. rewrite to_bytes_digits by lia.
    cbn [mbind result_bind]. rewrite Hset. reflexivity.
Qed.

(** [_VM__addsub_rm_r]: the r/m operand receives the sum of its value
    and the register's, or their difference. *)
Lemma addsub_rm_r_value (w a b : Z) (sub : bool) (vm vm1 : VM) (RM R : operand) :
  width w →
  process_ModRM w w vm = Ok (RM, R, vm1) →
  operand_value vm1 RM w = Ok a →
  Reg.get_int (reg vm1) R.1.2 w = Ok b →
  ∃ vm', _VM__addsub_rm_r w sub vm = Ok vm' ∧
    operand_value vm' RM w =
      Ok (if sub then (a - b) mod 2 ^ (8 * w) else (a + b) mod 2 ^ (8 * w)).
Proof.
  intros Hw HM Ha Hb. destruct (width_pos w Hw) as [Hw0 _].
  destruct (addsub_tmp_value w a b sub Hw) as [Htmp Ht].
  destruct (register_read _ _ _ _ Hw Hb) as (braw & Hbraw & Hbv).
  destruct RM as [[type loc] sz]. unfold operand_value in *. cbn [fst snd] in *.
  unfold _VM__addsub_rm_r. rewrite HM. cbn [mbind result_bind].
  destruct type; cbn [negb].
  - destruct (memory_read _ _ _ _ Ha) as (araw & Haraw & Hav).
    destruct (memory_store _ loc w _ araw Hw Ht Haraw) as (m' & Hset & Hget).
    exists (with_mem vm1 m'). split; [| exact Hget].
    rewrite Haraw. cbn [mbind result_bind]. rewrite Hbraw.
    cbn [mbind result_bind]. rewrite Hav, Hbv, Htmp.
    cbn [mbind result_bind]. rewrite to_bytes_digits by lia.
    cbn [mbind result_bind]. rewrite Hset. reflexivity.
  - destruct (register_read _ _ _ _ Hw Ha) as (araw & Haraw & Hav).
    destruct (register_store (reg vm1) loc w _ Hw Ht) as (rf' & Hset & Hget).
    exists (with_reg vm1 rf'). split; [| exact Hget].
    rewrite Haraw. cbn [mbind result_bind]. rewrite Hbraw.
    cbn [mbind result_bind]. rewrite Hav, Hbv, Htmp.
    cbn [mbind result_bind]. rewrite to_bytes_digits by lia.
    cbn [mbind result_bind]. rewrite Hset. reflexivity.
Qed.

(** [_VM__addsub_r_rm]: the register receives the sum of the r/m
    operand's value and its own, or the r/m operand's value minus its
    own. *)
Lemma addsub_r_rm_value (w a b : Z) (sub : bool) (vm vm1 : VM) (RM R : operand) :
  width w →
  process_ModRM w w vm = Ok (RM, R, vm1) →
  operand_value vm1 RM w = Ok a →
  Reg.get_int (reg vm1) R.1.2 w = Ok b →
  ∃ vm', _VM__addsub_r_rm w sub vm = Ok vm' ∧
    Reg.get_int (reg vm') R.1.2 w =
      Ok (if sub then (a - b) mod 2 ^ (8 * w) else (a + b) mod 2 ^ (8 * w)).
Proof.
  intros Hw HM Ha Hb. destruct (width_pos w Hw) as [Hw0 _].
  destruct (addsub_tmp_value w a b sub Hw) as [Htmp Ht].
  destruct (register_read _ _ _ _ Hw Hb) as (braw & Hbraw & Hbv).
  destruct (register_store (reg vm1) R.1.2 w _ Hw Ht) as (rf' & Hset & Hget).
  exists (with_reg vm1 rf'). split; [| exact Hget].
  destruct RM as [[type loc] sz]. unfold operand_value in *. cbn [fst snd] in *.
  unfold _VM__addsub_r_rm. rewrite HM. cbn [mbind result_bind].
  destruct type; cbn [negb].
  - destruct (memory_read _ _ _ _ Ha) as (araw & Haraw & Hav).
    rewrite Haraw. cbn [mbind result_bind]. rewrite Hbraw.
    cbn [mbind result_bind]. rewrite Hav, Hbv, (maxval_width w Hw).
    assert (Z.land (if negb sub then a + b
                    else a + (2 ^ (8 * w) - 1) + 1 - b) (2 ^ (8 * w) - 1) =
            (if sub then (a - b) mod 2 ^ (8 * w) else (a + b) mod 2 ^ (8 * w)))
      as Hland.
    { rewrite land_maxval by lia. destruct sub; cbn [negb]; [| reflexivity].
      rewrite <- (complement_sub (2 ^ (8 * w)) a b). f_equal. lia. }
    destruct sub; cbn [negb mbind result_bind] in *; rewrite Hland;
      rewrite to_bytes_digits by lia; cbn [mbind result_bind];
      rewrite Hset; reflexivity.
  - destruct (register_read _ _ _ _ Hw Ha) as (araw & Haraw & Hav).
    rewrite Haraw. cbn [mbind result_bind]. rewrite Hbraw.
    cbn [mbind result_bind]. rewrite Hav, Hbv, Htmp.
    cbn [mbind result_bind]. rewrite to_bytes_digits by lia.
    cbn [mbind result_bind]. rewrite Hset. reflexivity.
Qed.

(** C2: for every width w in {1, 2, 4}, every ADD/SUB handler leaves in
    its destination (a + b) mod 2^(8w), or (a - b) mod 2^(8w) for SUB,
    the latter computed as (a + (2^(8w) - b)) mod 2^(8w) with no borrow.
    Here a and b are the values the handler reads: for
    [_VM__addsub_al_imm] a is the accumulator and b the immediate at
    EIP; for [_VM__addsub_rm_imm] (with its own sub-opcode) a is the r/m
    operand and b the immediate; for [_VM__addsub_rm_r] a is the r/m
    operand and b the register, and the r/m operand is the destination;
    for [_VM__addsub_r_rm] a is again the r/m operand and b the register,
    and the register is the destination, so that SUB leaves r/m - r in
    r.  In each case the handler returns once its operands can be read.
    In particular add(0xFFFFFFFF, 1, w=4) = 0 and sub(0, 1, w=1) = 0xFF. *)
Theorem addsub_modular (w a b : Z) (sub : bool) (vm vm1 : VM) (RM R : operand) :
  width w →
  let n := 2 ^ (8 * w) in
  let t := if sub then (a - b) mod n else (a + b) mod n in
  addsub_tmp w sub a b = Ok t ∧
  (a - b) mod n = (a + (n - b)) mod n ∧
  (Reg.get_int (reg vm) 0 w = Ok a →
   Memory.get (mem vm) (eip vm) w = Ok b →
   ∃ vm', _VM__addsub_al_imm w sub vm = Ok vm' ∧
          Reg.get_int (reg vm') 0 w = Ok t) ∧
  (process_ModRM w w vm = Ok (RM, R, vm1) →
   operand_value vm1 RM w = Ok a →
   (∀ imm_sz, R.1.2 = (if sub then 5 else 0) →
      Memory.get (mem vm1) (eip vm1) imm_sz = Ok b →
      ∃ vm', _VM__addsub_rm_imm w imm_sz sub vm = Ok (true, vm') ∧
             operand_value vm' RM w = Ok t) ∧
   (Reg.get_int (reg vm1) R.1.2 w = Ok b →
      (∃ vm', _VM__addsub_rm_r w sub vm = Ok vm' ∧
              operand_value vm' RM w = Ok t) ∧
      (∃ vm', _VM__addsub_r_rm w sub vm = Ok vm' ∧
              Reg.get_int (reg vm') R.1.2 w = Ok t))) ∧
  addsub_tmp 4 false 0xFFFFFFFF 1 = Ok 0 ∧
  addsub_tmp 1 true 0 1 = Ok 0xFF.
Proof.
  intros Hw n t.
  split; [apply (addsub_tmp_value w a b sub Hw) |].
  split; [symmetry; apply complement_sub |].
  split; [| split; [| split; reflexivity]].
  - intros Ha Hb. destruct (memory_read _ _ _ _ Hb) as (raw & Hraw & <-).
    destruct (addsub_al_imm_value w a sub vm raw Hw Hraw Ha) as (vm' & Hrun & _ & Hget).
    exists vm'. split; [exact Hrun | exact Hget].
  - intros HM Ha. split.
    + intros imm_sz HR Hb. eapply addsub_rm_imm_value; eassumption.
    + intros Hb. split.
      * eapply addsub_rm_r_value; eassumption.
      * eapply addsub_r_rm_value; eassumption.
Qed.

(** ModRM 0xD1 (reg = 2, rm = 1) at width 2 with CX = 0xFFFF and DX = 2:
    ADD r/m, r leaves 0xFFFF + 2 wrapped, 1, in CX; SUB r, r/m leaves
    0xFFFF - 2 in DX *)
Lemma addsub_modular_witness :
  let vm := machine 16 [0xD1] (regs_of [0; 0xFFFF; 2]) 0 0 in
  (∃ vm', _VM__addsub_rm_r 2 false vm = Ok vm' ∧
          Reg.get_int (reg vm') 1 2 = Ok 1) ∧
  (∃ vm', _VM__addsub_r_rm 2 true vm = Ok vm' ∧
          Reg.get_int (reg vm') 2 2 = Ok 0xFFFD).
Proof.
  intros vm.
  destruct (addsub_modular 2 0xFFFF 2 false vm (with_eip vm 1)
              (false, 1, 2) (false, 2, 2) (or_intror (or_introl eq_refl)))
    as (_ & _ & _ & Hadd & _).
  destruct (addsub_modular 2 0xFFFF 2 true vm (with_eip vm 1)
              (false, 1, 2) (false, 2, 2) (or_intror (or_introl eq_refl)))
    as (_ & _ & _ & Hsub & _).
  destruct (Hadd eq_refl eq_refl) as [_ Hadd'].
  destruct (Hsub eq_refl eq_refl) as [_ Hsub'].
  split.
  - exact (proj1 (Hadd' eq_refl)).
  - exact (proj2 (Hsub' eq_refl)).
Defined.

End AddSubHandlers.

(** ** Strings in guest memory *)

Section Strings.

Import Kernel.

Lemma get_byte_inv (m : Memory.t) (a b : Z) :
  Memory.get m a 1 = Ok b → 0 ≤ a < Memory.size m ∧ b = Memory.cells m a.
Proof.
  intros H. unfold Memory.get in H. bind_inv H.
  apply get_bytes_Ok in Ha as (H0 & _ & Hs & ->).
  injection H as <-. split; [lia |].
  unfold Util.to_int. simpl. rewrite ?Z.mul_0_r, !Z.add_0_r. reflexivity.
Qed.

Lemma c_string_at_cons (m : Memory.t) (addr b : Z) (raw : list Z) :
  0 ≤ addr < Memory.size m → Memory.cells m addr = b → b ≠ 0 →
  c_string_at m (addr + 1) raw → c_string_at m addr (b :: raw).
Proof.
  intros Haddr Hb Hb0 (H0 & Hsz & Hread & Hnz & Hend).
  unfold c_string_at. cbn [length]. rewrite Nat2Z.inj_succ.
  replace (Z.succ (Z.of_nat (length raw))) with (Z.of_nat (length raw) + 1) by lia.
  rewrite read_cons by lia. rewrite Hb, Hread.
  repeat split; try lia.
  - constructor; assumption.
  - rewrite <- Hend. f_equal. lia.
Qed.

Lemma read_string_loop_inv (m : Memory.t) (fuel : nat) (addr : Z) (raw : list Z) :
  read_string_loop fuel m addr = Ok raw → c_string_at m addr raw.
Proof.
  revert addr raw. induction fuel as [| fuel IH]; intros addr raw H.
  - discriminate.
  - cbn [read_string_loop] in H. bind_inv H.
    apply get_byte_inv in Ha as [Haddr ->].
    destruct (Memory.cells m addr =? 0) eqn:E; cbn [negb] in H.
    + injection H as <-. unfold c_string_at. cbn [length Z.of_nat].
      rewrite Z.add_0_r. repeat split; try lia. constructor.
    + bind_inv H. injection H as <-.
      apply c_string_at_cons; [exact Haddr | reflexivity | lia | exact (IH _ _ Ha)].
Qed.

(** X11: [__read_string] returns exactly when a zero byte is found
    before the end of the memory, and then returns the bytes before the
    first zero byte: none of them is zero, and the terminator itself is
    not part of the result. *)
Theorem read_string_is_c_string (vm : VM) (addr : Z) (raw : list Z) :
  __read_string addr vm = Ok raw ↔ c_string_at (mem vm) addr raw.
Proof.
  split.
  - apply read_string_loop_inv.
  - apply read_string_c_string.
Qed.

(** "hi" at address 1 *)
Lemma read_string_is_c_string_witness :
  let vm := machine 8 [0; 104; 105; 0; 7; 7; 7; 7] Reg.zero 0 0 in
  c_string_at (mem vm) 1 [104; 105] ∧ __read_string 1 vm = Ok [104; 105].
Proof.
  intros vm.
  assert (c_string_at (mem vm) 1 [104; 105]) as Hs.
  { apply (read_string_is_c_string vm 1 [104; 105]). reflexivity. }
  split; [exact Hs |].
  apply (read_string_is_c_string vm 1 [104; 105]). exact Hs.
Defined.

(** an empty string and "hi" in the same memory *)
Example read_string_runs :
  let vm := machine 8 [0; 104; 105; 0; 7; 7; 7; 7] Reg.zero 0 0 in
  __read_string 0 vm = Ok [] ∧
  __read_string 1 vm = Ok [104; 105] ∧
  __read_string 4 vm = Raise MemoryFault.
Proof. repeat split. Qed.

End Strings.

(** ** Descriptors: open, close, exit *)

Section DescriptorLife.

Import Kernel.

Lemma open_file_index (h : Host) (name : list Z) (mode : string) (vm vm' : VM) (fd : Z) :
  open_file h name mode vm = Ok (fd, vm') →
  0 ≤ fd ≤ Z.of_nat (length (descriptors vm)).
Proof.
  unfold open_file. cbn [descriptors log_call]. intros H.
  destruct (first_free (descriptors vm) 0) as [d |] eqn:Hfree.
  - bind_inv H. injection H as <- _.
    apply first_free_lowest in Hfree as [Hd _].
    apply lookup_lt_Some in Hd. lia.
  - bind_inv H. injection H as <- _. lia.
Qed.

Lemma minus_one_value : minus_one = 2 ^ 32 - 1.
Proof. reflexivity. Qed.

(** X12: when [sys_open] returns a value other than -1, in a table of
    fewer than 2^32 - 1 entries, that value is the index at which the
    stream just opened now lies; the slot was free, or is the one added
    at the end of the table; no lower slot was free; and every other
    slot is as it was. *)
Theorem sys_open_returns_new_slot (h : Host) (vm vm' : VM) :
  sys_open h vm = Ok vm' →
  eax vm' ≠ minus_one →
  Z.of_nat (length (descriptors vm)) < 2 ^ 32 - 1 →
  let fd := Z.to_nat (eax vm') in
  (∃ f, descriptors vm' !! fd = Some (Some f)) ∧
  (descriptors vm !! fd = Some None ∨ fd = length (descriptors vm)) ∧
  (∀ j, (j < fd)%nat → descriptors vm !! j ≠ Some None) ∧
  (∀ j, j ≠ fd → descriptors vm' !! j = descriptors vm !! j).
Proof.
  intros Hrun Hne Hlen.
  assert (∀ z v name mode c,
            open_file h name mode (c vm) = Ok (z, v) →
            descriptors (c vm) = descriptors vm →
            vm' = __return z v →
            let fd := Z.to_nat (eax vm') in
            (∃ f, descriptors vm' !! fd = Some (Some f)) ∧
            (descriptors vm !! fd = Some None ∨ fd = length (descriptors vm)) ∧
            (∀ j, (j < fd)%nat → descriptors vm !! j ≠ Some None) ∧
            (∀ j, j ≠ fd → descriptors vm' !! j = descriptors vm !! j)) as Hopen.
  { intros z v name mode c Hof Hc ->.
    pose proof (open_file_index _ _ _ _ _ _ Hof) as Hz. rewrite Hc in Hz.
    assert (eax (__return z v) = z) as ->.
    { rewrite eax_return. apply wrap32_small. lia. }
    cbv zeta. change (descriptors (__return z v)) with (descriptors v).
    apply open_file_slot in Hof as (f & _ & Hcase). rewrite Hc in Hcase.
    destruct Hcase as [(Hfree & Hlow & ->) | (Hnone & -> & ->)].
    - pose proof (lookup_lt_Some _ _ _ Hfree) as Hlt.
      split; [exists f; apply list_lookup_insert_eq; exact Hlt |].
      split; [left; exact Hfree |]. split; [exact Hlow |].
      intros j Hj. apply list_lookup_insert_ne. congruence.
    - rewrite Nat2Z.id.
      split; [exists f; rewrite lookup_app_r by lia;
              rewrite Nat.sub_diag; reflexivity |].
      split; [right; reflexivity |]. split; [intros j _; apply Hnone |].
      intros j Hj. destruct (decide (j < length (descriptors vm))%nat).
      + apply lookup_app_l. assumption.
      + rewrite lookup_ge_None_2 by (rewrite length_app; simpl; lia).
        symmetry. apply lookup_ge_None_2. lia. }
  unfold sys_open in Hrun. simpl in Hrun. repeat step Hrun;
    try (exfalso; apply Hne; reflexivity);
    try match goal with
    | H : (if ?c then _ else _) = Ok _ |- _ => destruct c
    end;
    match goal with
    | H : open_file _ _ _ ?x = Ok _ |- _ =>
        pattern vm in H;
        match type of H with
        | (λ y, open_file _ _ _ (@?c y) = _) _ =>
            exact (Hopen _ _ _ _ c H eq_refl eq_refl)
        end
    end.
Qed.

(** close(1) then open: the new stream takes slot 1; with no free slot
    it takes slot 3, at the end *)
Lemma sys_open_returns_new_slot_witness :
  let vm := with_descriptors (machine 16 [97; 0] (regs_of [5; 513; 0; 0]) 0 0)
              [Some sys_stdin; None; Some sys_stderr] in
  ∃ vm', sys_open plain_host vm = Ok vm' ∧ eax vm' = 1 ∧
    (∃ f, descriptors vm' !! 1%nat = Some (Some f)) ∧
    descriptors vm' !! 0%nat = Some (Some sys_stdin) ∧
    descriptors vm' !! 2%nat = Some (Some sys_stderr).
Proof.
  intros vm. eexists. split; [reflexivity |]. split; [reflexivity |].
  match goal with
  | |- context [descriptors ?v] =>
      destruct (sys_open_returns_new_slot plain_host vm v eq_refl)
        as (Hnew & _ & _ & Hother);
        [vm_compute; discriminate | vm_compute; reflexivity |]
  end.
  split; [exact Hnew |].
  split; [exact (Hother 0%nat ltac:(discriminate)) |
          exact (Hother 2%nat ltac:(discriminate))].
Defined.

(** X13: [sys_close] on a descriptor number past the end of the table,
    or on a free slot, returns -1 without touching the table or the
    host; on an open slot that the host closes it returns 0 and frees
    that slot only, so that closing the same descriptor again returns
    -1. *)
Theorem sys_close_twice (h : Host) (vm : VM) :
  let fd := Reg.wrap32 (reg vm 3) in
  (Z.of_nat (length (descriptors vm)) ≤ fd ∨
   descriptors vm !! Z.to_nat fd = Some None →
     sys_close h vm = Ok (__return (-1) vm)) ∧
  (∀ s, descriptors vm !! Z.to_nat fd = Some (Some s) →
     host_close h s = Ok () →
     ∃ vm1, sys_close h vm = Ok vm1 ∧ eax vm1 = 0 ∧
       descriptors vm1 = <[Z.to_nat fd := None]> (descriptors vm) ∧
       ∀ h' rf, Reg.wrap32 (rf 3) = fd →
         sys_close h' (with_reg vm1 rf) = Ok (__return (-1) (with_reg vm1 rf))).
Proof.
  intros fd. pose proof (wrap32_nonneg (reg vm 3)) as [Hnn _]. fold fd in Hnn.
  assert (∀ (v : VM), Reg.wrap32 (reg v 3) = fd →
            descriptors v !! Z.to_nat fd = Some None →
            sys_close h v = Ok (__return (-1) v)) as Hfree.
  { intros v Hv Hd. unfold sys_close. rewrite (args3_1 "u" _ eq_refl), Hv.
    pose proof (lookup_lt_Some _ _ _ Hd) as Hlt.
    destruct (_ <=? fd) eqn:E; [lia |].
    unfold descriptor. rewrite Hd. reflexivity. }
  split.
  - intros [Hge | Hd]; [| apply Hfree; [reflexivity | exact Hd]].
    unfold sys_close. rewrite (args3_1 "u" _ eq_refl). fold fd.
    destruct (_ <=? fd) eqn:E; [reflexivity | lia].
  - intros s Hd Hc.
    destruct (sys_close_frees h vm s Hd Hc) as (vm1 & Hrun & Heax & Htab).
    exists vm1. split; [exact Hrun |]. split; [exact Heax |].
    split; [exact Htab |].
    intros h' rf Hrf.
    assert (∀ (v : VM), Reg.wrap32 (reg v 3) = fd →
              descriptors v !! Z.to_nat fd = Some None →
              sys_close h' v = Ok (__return (-1) v)) as Hfree'.
    { intros v Hv Hd'. unfold sys_close. rewrite (args3_1 "u" _ eq_refl), Hv.
      pose proof (lookup_lt_Some _ _ _ Hd') as Hlt.
      destruct (_ <=? fd) eqn:E; [lia |].
      unfold descriptor. rewrite Hd'. reflexivity. }
    apply Hfree'; [exact Hrf |].
    change (descriptors (with_reg vm1 rf)) with (descriptors vm1).
    rewrite Htab. apply list_lookup_insert_eq.
    apply lookup_lt_Some in Hd. exact Hd.
Qed.

(** close(1) twice, and close(9) *)
Lemma sys_close_twice_witness :
  let vm := machine 16 [] (regs_of [6; 0; 0; 1]) 0 0 in
  (∃ vm1, sys_close plain_host vm = Ok vm1 ∧ eax vm1 = 0 ∧
     descriptors vm1 = [Some sys_stdin; None; Some sys_stderr] ∧
     sys_close plain_host (with_reg vm1 (regs_of [6; 0; 0; 1])) =
       Ok (__return (-1) (with_reg vm1 (regs_of [6; 0; 0; 1])))) ∧
  (let vm9 := machine 16 [] (regs_of [6; 0; 0; 9]) 0 0 in
   sys_close plain_host vm9 = Ok (__return (-1) vm9)).
Proof.
  intros vm. split.
  - destruct (sys_close_twice plain_host vm) as [_ H].
    destruct (H sys_stdout eq_refl eq_refl) as (vm1 & Hrun & Heax & Htab & Hagain).
    exists vm1. split; [exact Hrun |]. split; [exact Heax |].
    split; [exact Htab |]. apply Hagain. reflexivity.
  - intros vm9. apply (sys_close_twice plain_host vm9). left.
    vm_compute. discriminate.
Defined.

(** X14: once descriptor 2 has been closed, [sys_exit] does not halt the
    machine: its message to [self.descriptors[2]] raises
    [AttributeError], whatever the exit code and the host. *)
Theorem sys_exit_after_close_2 (h : Host) (vm vm1 : VM) :
  Reg.wrap32 (reg vm 3) = 2 →
  sys_close h vm = Ok vm1 → eax vm1 = 0 →
  ∀ h' rf, sys_exit h' (with_reg vm1 rf) = Raise AttributeError.
Proof.
  intros Hfd Hrun Heax h' rf.
  assert (descriptors vm1 !! 2%nat = Some None) as Hd.
  { unfold sys_close in Hrun. rewrite (args3_1 "u" _ eq_refl), Hfd in Hrun.
    destruct (_ <=? 2) eqn:E.
    - injection Hrun as <-. discriminate Heax.
    - unfold descriptor in Hrun. change (Z.to_nat 2) with 2%nat in Hrun.
      destruct (descriptors vm !! 2%nat) as [d |] eqn:Hd2;
        cbn [mbind result_bind] in Hrun; [| discriminate].
      destruct d as [s |]; [| injection Hrun as <-; discriminate Heax].
      bind_inv Hrun. injection Hrun as <-.
      cbn [descriptors __return with_reg with_descriptors log_call].
      apply list_lookup_insert_eq. apply lookup_lt_Some in Hd2. exact Hd2. }
  unfold sys_exit. rewrite (args3_1 "s" _ eq_refl). unfold descriptor.
  change (descriptors (with_mem (with_reg vm1 rf) _) !! Z.to_nat 2)
    with (descriptors vm1 !! 2%nat).
  rewrite Hd. reflexivity.
Qed.

(** close(2), then exit(0) *)
Lemma sys_exit_after_close_2_witness :
  let vm := machine 16 [] (regs_of [6; 0; 0; 2]) 0 0 in
  ∃ vm1, sys_close plain_host vm = Ok vm1 ∧
    sys_exit plain_host (with_reg vm1 (regs_of [1; 0; 0; 0])) = Raise AttributeError.
Proof.
  intros vm. eexists. split; [reflexivity |].
  eapply (sys_exit_after_close_2 plain_host vm); reflexivity.
Defined.

(** X26: with descriptor 2 open, [sys_exit] resets the break to
    [code_segment_end] and writes the message with the exit code to that
    descriptor, the one call it makes on the host.  When the write
    returns, the machine is halted with the first argument register
    (EBX) as [RETCODE], and EIP, the registers and the descriptor table
    are as before; when the write raises, [sys_exit] raises the same. *)
Theorem sys_exit_halts (h : Host) (vm : VM) (s : stream) :
  descriptors vm !! 2%nat = Some (Some s) →
  let code := Reg.wrap32 (reg vm 3) in
  (∀ r, obj_write h s (exit_message code) = Ok r →
     ∃ vm', sys_exit h vm = Ok vm' ∧
       running vm' = false ∧
       RETCODE vm' = Some code ∧
       program_break vm' = code_segment_end vm ∧
       host_log vm' = host_log vm ++ [CallObjWrite s (exit_message code)] ∧
       eip vm' = eip vm ∧ reg vm' = reg vm ∧
       descriptors vm' = descriptors vm) ∧
  (∀ e, obj_write h s (exit_message code) = Raise e → sys_exit h vm = Raise e).
Proof.
  intros Hd code.
  assert (sys_exit h vm =
          (let vm1 := with_mem vm (Memory.with_program_break (mem vm)
                                     (code_segment_end vm)) in
           let vm2 := log_call vm1 (CallObjWrite s (exit_message code)) in
           _ ← obj_write h s (exit_message code); Ok (with_exit vm2 code))) as ->.
  { unfold sys_exit. rewrite (args3_1 "s" _ eq_refl). unfold descriptor.
    change (descriptors (with_mem vm _) !! Z.to_nat 2) with (descriptors vm !! 2%nat).
    rewrite Hd. reflexivity. }
  cbv zeta. split.
  - intros r ->. eexists. split; [reflexivity |]. repeat split.
  - intros e ->. reflexivity.
Qed.

(** exit(42) on the machine as constructed, and on a host whose file
    objects refuse every write *)
Lemma sys_exit_halts_witness :
  let vm := with_reg (VM__init__ 64 8) (regs_of [1; 0; 0; 42]) in
  (∃ vm', sys_exit plain_host vm = Ok vm' ∧ running vm' = false ∧
          RETCODE vm' = Some 42 ∧ program_break vm' = 8) ∧
  sys_exit failing_host vm = Raise OSError.
Proof.
  intros vm.
  destruct (sys_exit_halts plain_host vm sys_stderr eq_refl) as [Hok _].
  destruct (sys_exit_halts failing_host vm sys_stderr eq_refl) as [_ Hfail].
  split.
  - destruct (Hok None eq_refl) as (vm' & Hrun & Hhalt & Hcode & Hbrk & _).
    exists vm'. split; [exact Hrun |]. split; [exact Hhalt |].
    split; [exact Hcode | exact Hbrk].
  - apply Hfail. reflexivity.
Defined.

End DescriptorLife.

(** ** Reading and writing *)

Section ReadWrite.

Import Kernel.

Lemma fileno_host_file (vm : VM) (fd n : Z) :
  descriptors vm !! Z.to_nat fd = Some (Some (HostFile n)) → fileno vm fd = Ok n.
Proof. intros H. unfold fileno, descriptor. rewrite H. reflexivity. Qed.

Lemma fileno_text_stream (vm : VM) (fd k : Z) :
  descriptors vm !! Z.to_nat fd = Some (Some (TextStream k)) →
  fileno vm fd = Raise UnsupportedOperation ∧
  descriptor vm fd = Ok (Some (TextStream k)).
Proof. intros H. unfold fileno, descriptor. rewrite H. split; reflexivity. Qed.

(** X15: [sys_read] on a descriptor with a file number stores the bytes
    that [os.read] returned at the address given and returns their
    number; on a file object without a file number it stores the text
    read followed by a newline and returns that length, one more than
    the text, so that a text of [count] characters fills [count + 1]
    bytes of the guest's buffer. *)
Theorem sys_read_stores (h : Host) (vm : VM) (data : list Z) (m' : Memory.t) :
  let fd := Reg.wrap32 (reg vm 3) in
  let data_addr := Reg.wrap32 (reg vm 1) in
  let count := Reg.wrap32 (reg vm 2) in
  Memory.set_bytes (mem vm) data_addr data = Ok m' →
  (∀ n, descriptors vm !! Z.to_nat fd = Some (Some (HostFile n)) →
     os_read h n count = Ok data →
     ∃ vm', sys_read h vm = Ok vm' ∧
       eax vm' = Reg.wrap32 (Z.of_nat (length data)) ∧
       Memory.get_bytes (mem vm') data_addr (Z.of_nat (length data)) = Ok data ∧
       host_log vm' = host_log vm ++ [CallRead n count]) ∧
  (∀ k text, descriptors vm !! Z.to_nat fd = Some (Some (TextStream k)) →
     obj_read h (TextStream k) count = Ok text →
     forallb (λ b, b <? 128) text = true →
     data = text ++ [10] →
     ∃ vm', sys_read h vm = Ok vm' ∧
       eax vm' = Reg.wrap32 (Z.of_nat (length text) + 1) ∧
       Memory.get_bytes (mem vm') data_addr (Z.of_nat (length text) + 1)
         = Ok (text ++ [10])).
Proof.
  intros fd data_addr count Hset.
  pose proof (get_bytes_set_bytes _ _ _ _ Hset) as Hget.
  split.
  - intros n Hd Hread. unfold sys_read. rewrite (args3 "uuu" _ eq_refl).
    fold fd data_addr count. cbv zeta.
    rewrite (fileno_host_file _ _ _ Hd). cbv iota.
    rewrite Hread. cbv iota.
    change (mem (log_call vm _)) with (mem vm). rewrite Hset.
    eexists. split; [reflexivity |]. repeat split. exact Hget.
  - intros k text Hd Hread Hascii ->.
    destruct (fileno_text_stream _ _ _ Hd) as [Hno Hdesc].
    unfold sys_read. rewrite (args3 "uuu" _ eq_refl).
    fold fd data_addr count. cbv zeta. rewrite Hno. cbv iota.
    cbn [no_fileno]. cbv iota. rewrite Hdesc. cbn [mbind result_bind].
    rewrite Hread. cbn [mbind result_bind].
    assert (ascii_codec (text ++ [10]) = Ok (text ++ [10])) as ->.
    { unfold ascii_codec. rewrite forallb_app, Hascii. reflexivity. }
    cbn [mbind result_bind].
    change (mem (log_call vm _)) with (mem vm). rewrite Hset.
    cbn [mbind result_bind].
    rewrite length_app, Nat2Z.inj_add in *. cbn [length Z.of_nat Pos.of_succ_nat] in *.
    eexists. split; [reflexivity |]. split; [reflexivity | exact Hget].
Qed.

(** read(0, buf = 4, count = 2) when standard input yields "hi", and the
    same from a file object without a file number: three bytes stored *)
Lemma sys_read_stores_witness :
  let h := mkHost (λ _ _, Ok [104; 105]) (os_write plain_host) (os_lseek plain_host)
             (λ _ _, Ok [104; 105]) (obj_write plain_host) (path_exists plain_host)
             (host_open plain_host) (host_close plain_host) in
  let vm := machine 16 [] (regs_of [3; 4; 2; 0]) 0 0 in
  let vt := with_descriptors vm [Some (TextStream 0)] in
  (∃ vm', sys_read h vm = Ok vm' ∧ eax vm' = 2 ∧
          Memory.get_bytes (mem vm') 4 2 = Ok [104; 105]) ∧
  (∃ vm', sys_read h vt = Ok vm' ∧ eax vm' = 3 ∧
          Memory.get_bytes (mem vm') 4 3 = Ok [104; 105; 10]).
Proof.
  intros h vm vt. split.
  - destruct (sys_read_stores h vm [104; 105] _ eq_refl) as [H _].
    destruct (H 0 eq_refl eq_refl) as (vm' & Hrun & Heax & Hget & _).
    exists vm'. split; [exact Hrun |]. split; [exact Heax | exact Hget].
  - destruct (sys_read_stores h vt [104; 105; 10] _ eq_refl) as [_ H].
    destruct (H 0 [104; 105] eq_refl eq_refl eq_refl eq_refl)
      as (vm' & Hrun & Heax & Hget).
    exists vm'. split; [exact Hrun |]. split; [exact Heax | exact Hget].
Defined.

(** X16: [sys_write] hands the [count] bytes at the address given to
    [os.write] and returns what the host reports.  On a file object
    without a file number it hands them, decoded as ASCII, to the
    object's [write]: a result of [None] makes the handler return
    [count], and a buffer with a byte above 127 raises instead. *)
Theorem sys_write_outcomes (h : Host) (vm : VM) (buf : list Z) :
  let fd := Reg.wrap32 (reg vm 3) in
  let buf_addr := Reg.wrap32 (reg vm 1) in
  let count := Reg.wrap32 (reg vm 2) in
  Memory.get_bytes (mem vm) buf_addr count = Ok buf →
  (∀ n ret, descriptors vm !! Z.to_nat fd = Some (Some (HostFile n)) →
     os_write h n buf = Ok ret →
     sys_write h vm = Ok (__return ret (log_call vm (CallWrite n buf)))) ∧
  (∀ k, descriptors vm !! Z.to_nat fd = Some (Some (TextStream k)) →
     forallb (λ b, b <? 128) buf = true →
     obj_write h (TextStream k) buf = Ok None →
     sys_write h vm =
       Ok (__return count (log_call vm (CallObjWrite (TextStream k) buf)))) ∧
  (∀ k, descriptors vm !! Z.to_nat fd = Some (Some (TextStream k)) →
     forallb (λ b, b <? 128) buf = false →
     sys_write h vm = Raise UnicodeError).
Proof.
  intros fd buf_addr count Hbuf.
  split; [| split].
  - intros n ret Hd Hw. unfold sys_write. rewrite (args3 "uuu" _ eq_refl).
    fold fd buf_addr count. rewrite Hbuf. cbn [mbind result_bind]. cbv zeta.
    rewrite (fileno_host_file _ _ _ Hd). cbv iota. rewrite Hw. reflexivity.
  - intros k Hd Hascii Hw.
    destruct (fileno_text_stream _ _ _ Hd) as [Hno Hdesc].
    unfold sys_write. rewrite (args3 "uuu" _ eq_refl).
    fold fd buf_addr count. rewrite Hbuf. cbn [mbind result_bind]. cbv zeta.
    rewrite Hno. cbv iota. cbn [no_fileno]. cbv iota.
    rewrite Hdesc. cbn [mbind result_bind].
    unfold ascii_codec. rewrite Hascii. cbn [mbind result_bind].
    rewrite Hw. reflexivity.
  - intros k Hd Hascii.
    destruct (fileno_text_stream _ _ _ Hd) as [Hno Hdesc].
    unfold sys_write. rewrite (args3 "uuu" _ eq_refl).
    fold fd buf_addr count. rewrite Hbuf. cbn [mbind result_bind]. cbv zeta.
    rewrite Hno. cbv iota. cbn [no_fileno]. cbv iota.
    rewrite Hdesc. cbn [mbind result_bind].
    unfold ascii_codec. rewrite Hascii. reflexivity.
Qed.

(** write(1, "hi", 2) to standard output, and two bytes, one of them
    0xE9, to a file object without a file number *)
Lemma sys_write_outcomes_witness :
  let vm := machine 16 [104; 105; 0xE9] (regs_of [4; 0; 2; 1]) 0 0 in
  let vt := with_descriptors (machine 16 [104; 105; 0xE9] (regs_of [4; 1; 2; 0]) 0 0)
              [Some (TextStream 0)] in
  (∃ vm', sys_write plain_host vm = Ok vm' ∧ eax vm' = 2 ∧
          host_log vm' = [CallWrite 1 [104; 105]]) ∧
  sys_write plain_host vt = Raise UnicodeError.
Proof.
  intros vm vt. split.
  - destruct (sys_write_outcomes plain_host vm [104; 105] eq_refl) as [H _].
    eexists. split; [exact (H 1 2 eq_refl eq_refl) |]. split; reflexivity.
  - destruct (sys_write_outcomes plain_host vt [105; 0xE9] eq_refl) as (_ & _ & H).
    exact (H 0 eq_refl eq_refl).
Defined.

End ReadWrite.

(** ** Growing and shrinking the heap *)

Section Heap.

Import Kernel.

Lemma args5 (types : string) (vm : VM) :
  String.length types = 5%nat →
  __args types vm =
    [Reg.wrap32 (reg vm 3); Reg.wrap32 (reg vm 1); Reg.wrap32 (reg vm 2);
     Reg.wrap32 (reg vm 6); Reg.wrap32 (reg vm 7)].
Proof. intros H. unfold __args. rewrite H. reflexivity. Qed.

Lemma args2 (types : string) (vm : VM) :
  String.length types = 2%nat →
  __args types vm = [Reg.wrap32 (reg vm 3); Reg.wrap32 (reg vm 1)].
Proof. intros H. unfold __args. rewrite H. reflexivity. Qed.

(** X17: an anonymous [sys_mmap_pgoff] of [length] bytes, with the break
    inside the memory and below 2^32, returns the old break, zero-fills
    the [length] bytes from it and raises the break by [length]; a
    [sys_munmap] of that address and length then returns 0 with the
    break where it was before the mapping. *)
Theorem mmap_then_munmap (vm : VM) :
  let length := Reg.wrap32 (reg vm 1) in
  let prot := Reg.wrap32 (reg vm 2) in
  let flags := Reg.wrap32 (reg vm 6) in
  let brk := program_break vm in
  Z.land flags (Z.lnot 0x33) = 0 → Z.land prot (Z.lnot 0x7) = 0 →
  Z.land flags MAP_ANONYMOUS ≠ 0 →
  0 ≤ brk < 2 ^ 32 → brk + length ≤ Memory.size (mem vm) →
  ∃ vm1, sys_mmap_pgoff vm = Ok vm1 ∧
    eax vm1 = brk ∧
    program_break vm1 = brk + length ∧
    Memory.get_bytes (mem vm1) brk length = Ok (replicate (Z.to_nat length) 0) ∧
    ∀ rf, Reg.wrap32 (rf 3) = brk → Reg.wrap32 (rf 1) = length →
      ∃ vm2, sys_munmap (with_reg vm1 rf) = Ok vm2 ∧
        program_break vm2 = brk ∧ eax vm2 = 0.
Proof.
  intros length prot flags brk _ _ Hanon Hbrk Hfit.
  pose proof (wrap32_nonneg (reg vm 1)) as [Hlen _]. fold length in Hlen.
  assert (Z.of_nat (List.length (replicate (Z.to_nat length) 0)) = length) as Hrep
    by (rewrite length_replicate; lia).
  destruct (Memory.set_bytes (mem vm) brk (replicate (Z.to_nat length) 0))
    as [m |] eqn:Hset.
  2: { unfold Memory.set_bytes, Memory.in_range in Hset. rewrite Hrep in Hset.
       destruct ((0 <=? brk) && (0 <=? length) && (brk + length <=? Memory.size (mem vm)))
         eqn:E; [discriminate | unfold brk, program_break in *; lia]. }
  pose proof (get_bytes_set_bytes _ _ _ _ Hset) as Hget. rewrite Hrep in Hget.
  pose proof (set_bytes_frame _ _ _ _ Hset) as [_ Hpb].
  eexists. split; [| split; [| split; [| split]]].
  - unfold sys_mmap_pgoff. rewrite (args5 "uusss" _ eq_refl).
    fold length prot flags. cbv zeta. unfold flag_value, flag_set.
    rewrite <- Z.land_assoc. change (Z.land 51 MAP_ANONYMOUS) with MAP_ANONYMOUS.
    destruct (Z.land flags MAP_ANONYMOUS =? 0) eqn:E; [lia |]. cbn [negb].
    unfold Memory.memset. fold (program_break vm). fold brk. rewrite Hset.
    cbn [mbind result_bind]. reflexivity.
  - rewrite eax_return. apply wrap32_small. exact Hbrk.
  - unfold program_break. cbn [mem with_mem Memory.with_program_break Memory.program_break].
    rewrite Hpb. reflexivity.
  - cbn [mem with_mem __return with_reg Memory.with_program_break].
    unfold Memory.get_bytes, Memory.in_range in *. cbn [Memory.size] in *.
    exact Hget.
  - intros rf H3 H1. unfold sys_munmap. rewrite (args2 "uu" _ eq_refl).
    cbn [reg with_reg]. rewrite H3, H1.
    cbn [mem with_mem __return with_reg Memory.with_program_break
         Memory.program_break].
    rewrite Hpb. fold (program_break vm). fold brk. rewrite Z.eqb_refl.
    eexists. split; [reflexivity |]. split; reflexivity.
Qed.

(** mmap(0, 8, PROT_READ | PROT_WRITE, MAP_PRIVATE | MAP_ANONYMOUS) with
    the break at 16, over bytes that were 0xFF, then munmap(16, 8) *)
Lemma mmap_then_munmap_witness :
  let vm := machine 32 (replicate 32 0xFF) (regs_of [192; 8; 3; 0; 0; 0; 0x22; 0]) 8 16 in
  ∃ vm1, sys_mmap_pgoff vm = Ok vm1 ∧ eax vm1 = 16 ∧ program_break vm1 = 24 ∧
    Memory.get_bytes (mem vm1) 16 8 = Ok [0; 0; 0; 0; 0; 0; 0; 0] ∧
    ∃ vm2, sys_munmap (with_reg vm1 (regs_of [91; 8; 0; 16])) = Ok vm2 ∧
      program_break vm2 = 16 ∧ eax vm2 = 0.
Proof.
  intros vm.
  destruct (mmap_then_munmap vm) as (vm1 & Hrun & Heax & Hbrk & Hzero & Hun);
    [reflexivity | reflexivity | vm_compute; discriminate
    | vm_compute; split; [discriminate | reflexivity]
    | vm_compute; discriminate |].
  exists vm1. split; [exact Hrun |]. split; [exact Heax |].
  split; [exact Hbrk |]. split; [exact Hzero |].
  apply Hun; reflexivity.
Defined.

(** X18: after [sys_brk] has been given an address at or above a
    positive [code_segment_end], the query brk(0) returns that address
    and leaves the break there. *)
Theorem brk_set_then_query (vm : VM) :
  let addr := Reg.wrap32 (reg vm 3) in
  0 < code_segment_end vm → code_segment_end vm ≤ addr →
  ∃ vm1, sys_brk vm = Ok vm1 ∧ program_break vm1 = addr ∧
    ∀ rf, Reg.wrap32 (rf 3) = 0 →
      ∃ vm2, sys_brk (with_reg vm1 rf) = Ok vm2 ∧
        eax vm2 = addr ∧ program_break vm2 = addr.
Proof.
  intros addr Hcse Haddr.
  destruct (sys_brk_cases vm) as (vm1 & Hrun & Hcse1 & _ & _ & Hset).
  fold addr in Hset. specialize (Hset Haddr).
  exists vm1. split; [exact Hrun |]. split; [exact Hset |].
  intros rf Hrf.
  destruct (sys_brk_cases (with_reg vm1 rf)) as (vm2 & Hrun2 & _ & Heax & Hlow & _).
  cbn [reg with_reg] in Hlow. rewrite Hrf in Hlow.
  change (code_segment_end (with_reg vm1 rf)) with (code_segment_end vm1) in Hlow.
  change (program_break (with_reg vm1 rf)) with (program_break vm1) in Hlow.
  rewrite Hcse1 in Hlow. specialize (Hlow Hcse).
  exists vm2. split; [exact Hrun2 |].
  rewrite Heax, Hlow, Hset. split; [| reflexivity].
  apply wrap32_small, wrap32_nonneg.
Qed.

(** code_segment_end = 100: brk(300), then brk(0) returns 300 *)
Lemma brk_set_then_query_witness :
  let vm := machine 1024 [] (regs_of [45; 0; 0; 300]) 100 100 in
  ∃ vm1 vm2, sys_brk vm = Ok vm1 ∧ program_break vm1 = 300 ∧
    sys_brk (with_reg vm1 (regs_of [45; 0; 0; 0])) = Ok vm2 ∧
    eax vm2 = 300 ∧ program_break vm2 = 300.
Proof.
  intros vm.
  destruct (brk_set_then_query vm) as (vm1 & Hrun & Hbrk & Hq);
    [reflexivity | vm_compute; discriminate |].
  destruct (Hq (regs_of [45; 0; 0; 0]) eq_refl) as (vm2 & Hrun2 & Heax & Hbrk2).
  exists vm1, vm2. repeat split; assumption.
Defined.

End Heap.

(** ** Gathered writes and terminal requests *)

Section WritevIoctl.

Import Kernel.

Lemma logged_log (vm : VM) (calls : list host_call) :
  host_log (logged vm calls) = host_log vm ++ calls ∧
  mem (logged vm calls) = mem vm ∧
  descriptors (logged vm calls) = descriptors vm ∧
  reg (logged vm calls) = reg vm.
Proof.
  unfold logged. revert vm. induction calls as [| c calls IH]; intros vm.
  - cbn [fold_left]. rewrite app_nil_r. repeat split.
  - cbn [fold_left]. destruct (IH (log_call vm c)) as (H1 & H2 & H3 & H4).
    rewrite H1, H2, H3, H4. cbn [host_log log_call mem descriptors reg].
    rewrite <- app_assoc. repeat split.
Qed.

Lemma writev_loop_gathers (h : Host) (fd fno : Z) (n : nat) :
  (∀ buf, os_write h fno buf = Ok (Z.of_nat (length buf))) →
  ∀ (iov_addr size : Z) (vm : VM) (bufs : list (list Z)),
    fileno vm fd = Ok fno →
    iov_buffers (mem vm) n iov_addr = Ok bufs →
    writev_loop h n fd iov_addr size vm =
      Ok (size + total_length bufs, logged vm (CallWrite fno <$> bufs)).
Proof.
  intros Hhost. induction n as [| n IH]; intros iov_addr size vm bufs Hfd Hbufs.
  - injection Hbufs as <-. cbn. rewrite Z.add_0_r. reflexivity.
  - cbn [iov_buffers] in Hbufs. cbn [writev_loop]. bind_inv Hbufs.
    rewrite Ha. cbn [mbind result_bind].
    destruct (struct_iovec_unpack a) as [iov_base iov_len].
    destruct (iov_len =? 0) eqn:E.
    + apply IH; assumption.
    + bind_inv Hbufs. bind_inv Hbufs. injection Hbufs as <-.
      rewrite Ha0. cbn [mbind result_bind]. cbv zeta. rewrite Hfd. cbv iota.
      rewrite Hhost. cbn [mbind result_bind].
      assert (Z.of_nat (length a0) = iov_len) as Hlen.
      { apply get_bytes_Ok in Ha0 as (_ & Hn & _ & ->).
        unfold Memory.read. rewrite length_fmap, length_seqZ. lia. }
      rewrite (IH _ _ (log_call vm (CallWrite fno a0)) a1 Hfd Ha1).
      cbn [fmap list_fmap total_length foldr logged fold_left].
      f_equal. f_equal. unfold total_length. lia.
Qed.

Lemma writev_loop_nothing (h : Host) (fd : Z) (n : nat) :
  ∀ (iov_addr size : Z) (vm : VM),
    iov_buffers (mem vm) n iov_addr = Ok [] →
    writev_loop h n fd iov_addr size vm = Ok (size, vm).
Proof.
  induction n as [| n IH]; intros iov_addr size vm Hbufs.
  - reflexivity.
  - cbn [iov_buffers] in Hbufs. cbn [writev_loop]. bind_inv Hbufs.
    rewrite Ha. cbn [mbind result_bind].
    destruct (struct_iovec_unpack a) as [iov_base iov_len].
    destruct (iov_len =? 0) eqn:E.
    + apply IH. assumption.
    + bind_inv Hbufs. bind_inv Hbufs. discriminate.
Qed.

(** X19: [sys_writev] writes the buffers of its [iovcnt] records in
    order, passing over the records of length zero, and, when the host
    takes every buffer whole, returns the total number of bytes.  When
    every record has length zero it returns 0 without looking at the
    descriptor, so also for a descriptor number that does not exist. *)
Theorem sys_writev_gathers (h : Host) (vm : VM) (bufs : list (list Z)) :
  let fd := Reg.wrap32 (reg vm 3) in
  let iov_addr := Reg.wrap32 (reg vm 1) in
  let iovcnt := Reg.wrap32 (reg vm 2) in
  iov_buffers (mem vm) (Z.to_nat iovcnt) iov_addr = Ok bufs →
  (∀ fno, fileno vm fd = Ok fno →
     (∀ buf, os_write h fno buf = Ok (Z.of_nat (length buf))) →
     ∃ vm', sys_writev h vm = Ok vm' ∧
       eax vm' = Reg.wrap32 (total_length bufs) ∧
       host_log vm' = host_log vm ++ (CallWrite fno <$> bufs)) ∧
  (bufs = [] → sys_writev h vm = Ok (__return 0 vm)).
Proof.
  intros fd iov_addr iovcnt Hbufs. split.
  - intros fno Hfd Hhost. unfold sys_writev. rewrite (args3 "sus" _ eq_refl).
    fold fd iov_addr iovcnt.
    rewrite (writev_loop_gathers h fd fno _ Hhost _ _ _ _ Hfd Hbufs).
    cbn [mbind result_bind]. eexists. split; [reflexivity |].
    split; [reflexivity |].
    cbn [host_log __return with_reg]. apply logged_log.
  - intros ->. unfold sys_writev. rewrite (args3 "sus" _ eq_refl).
    fold fd iov_addr iovcnt.
    rewrite (writev_loop_nothing h fd _ _ _ _ Hbufs). reflexivity.
Qed.

(** Three records at 0: "hi" at 24, an empty one, "!" at 26; written to
    descriptor 1.  And one empty record written to descriptor 7. *)
Lemma sys_writev_gathers_witness :
  let image := [24; 0; 0; 0; 2; 0; 0; 0;  0; 0; 0; 0; 0; 0; 0; 0;
                26; 0; 0; 0; 1; 0; 0; 0;  104; 105; 33] in
  let vm := machine 32 image (regs_of [146; 0; 3; 1]) 0 0 in
  let v7 := machine 32 image (regs_of [146; 8; 1; 7]) 0 0 in
  (∃ vm', sys_writev plain_host vm = Ok vm' ∧ eax vm' = 3 ∧
          host_log vm' = [CallWrite 1 [104; 105]; CallWrite 1 [33]]) ∧
  sys_writev plain_host v7 = Ok (__return 0 v7).
Proof.
  intros image vm v7. split.
  - destruct (sys_writev_gathers plain_host vm [[104; 105]; [33]] eq_refl) as [H _].
    destruct (H 1 eq_refl (λ buf, eq_refl)) as (vm' & Hrun & Heax & Hlog).
    exists vm'. split; [exact Hrun |]. split; [exact Heax | exact Hlog].
  - destruct (sys_writev_gathers plain_host v7 [] eq_refl) as [_ H].
    exact (H eq_refl).
Defined.

(** X20: [sys_ioctl] answers one request only, the one of type 'T',
    number 19 and no direction, whatever its size field, and only for a
    descriptor number within the table, be the slot open or free: it
    stores the eight bytes of the packed window size (256 rows, 256
    columns, 0, 0, as 16-bit little-endian fields) and returns 0.  Any other request, and a descriptor number past the end of the
    table, return -1 with memory untouched. *)
Theorem sys_ioctl_winsize (vm : VM) :
  let fd := Reg.wrap32 (reg vm 3) in
  let request := Reg.wrap32 (reg vm 1) in
  let data_addr := Reg.wrap32 (reg vm 2) in
  (asks_winsize request = false ∨ Z.of_nat (length (descriptors vm)) ≤ fd →
     sys_ioctl vm = Ok (__return (-1) vm)) ∧
  (asks_winsize request = true → fd < Z.of_nat (length (descriptors vm)) →
     ∀ m', Memory.set_bytes (mem vm) data_addr winsize_packed = Ok m' →
       sys_ioctl vm = Ok (__return 0 (with_mem vm m')) ∧
       Memory.get_bytes m' data_addr 8 = Ok winsize_packed).
Proof.
  intros fd request data_addr.
  pose proof (wrap32_nonneg (reg vm 3)) as [Hnn _]. fold fd in Hnn.
  split.
  - intros Hcase. unfold sys_ioctl. rewrite (args3 "suu" _ eq_refl).
    fold fd request data_addr. cbv zeta. fold (asks_winsize request).
    destruct (asks_winsize request) eqn:E; [| reflexivity].
    destruct Hcase as [Hf | Hge]; [discriminate |].
    rewrite (descriptor_out_of_range vm fd Hnn Hge). reflexivity.
  - intros Hask Hlt m' Hset. split.
    + unfold sys_ioctl. rewrite (args3 "suu" _ eq_refl).
      fold fd request data_addr. cbv zeta. fold (asks_winsize request).
      rewrite Hask. unfold descriptor.
      destruct (descriptors vm !! Z.to_nat fd) as [d |] eqn:Hd.
      * rewrite Hset. reflexivity.
      * apply lookup_ge_None in Hd. lia.
    + exact (get_bytes_set_bytes _ _ _ _ Hset).
Qed.

(** TIOCGWINSZ (0x5413) on descriptor 1 after it has been closed, with
    the data at 4; the same request with a size field (0x00085413); and
    TCGETS (0x5401) *)
Lemma sys_ioctl_winsize_witness :
  let closed := [Some sys_stdin; None; Some sys_stderr] in
  let vm := with_descriptors (machine 16 [] (regs_of [54; 0x5413; 4; 1]) 0 0) closed in
  let vs := machine 16 [] (regs_of [54; 0x00085413; 4; 1]) 0 0 in
  let vt := machine 16 [] (regs_of [54; 0x5401; 4; 1]) 0 0 in
  (∃ vm', sys_ioctl vm = Ok vm' ∧ eax vm' = 0 ∧
          Memory.get_bytes (mem vm') 4 8 = Ok [0; 1; 0; 1; 0; 0; 0; 0]) ∧
  (∃ vm', sys_ioctl vs = Ok vm' ∧ eax vm' = 0) ∧
  sys_ioctl vt = Ok (__return (-1) vt).
Proof.
  intros closed vm vs vt. split; [| split].
  - destruct (sys_ioctl_winsize vm) as [_ H].
    destruct (H eq_refl eq_refl _ eq_refl) as (Hrun & Hget).
    eexists. split; [exact Hrun |]. split; [reflexivity | exact Hget].
  - destruct (sys_ioctl_winsize vs) as [_ H].
    destruct (H eq_refl eq_refl _ eq_refl) as (Hrun & _).
    eexists. split; [exact Hrun | reflexivity].
  - apply (sys_ioctl_winsize vt). left. reflexivity.
Defined.

End WritevIoctl.

(** ** CALL, RET and POP *)

Section CallRet.

Import Internals Dispatch.

Lemma operand_size_32 (vm : VM) : current_mode vm = 0%nat → operand_size vm = Ok 4.
Proof. intros H. unfold operand_size. rewrite H. reflexivity. Qed.

Lemma operand_size_cases (vm : VM) (sz : Z) :
  operand_size vm = Ok sz → sz = 4 ∨ sz = 2.
Proof.
  unfold operand_size, sizes.
  destruct (current_mode vm) as [| [| n]]; cbn; intros [= <-]; auto.
Qed.

(** X21: the near relative [_call] encodes its return address as a
    signed integer of the operand size, so it raises [OverflowError],
    instead of calling, whenever the address after the displacement is
    2^(8 sz - 1) or more: from 0x8000 on in 16-bit mode. *)
Theorem call_return_address_overflow (vm : VM) (sz : Z) (raw : list Z) :
  operand_size vm = Ok sz →
  Memory.get_bytes (mem vm) (eip vm) sz = Ok raw →
  2 ^ (8 * sz - 1) ≤ eip vm + sz →
  _call 0xE8 vm = Raise OverflowError.
Proof.
  intros Hsz Hraw Hbig. unfold _call. rewrite Hsz. cbn [mbind result_bind].
  change (0xE8 =? 0xE8) with true. cbv iota. rewrite Hraw.
  cbn [mbind result_bind]. cbn [eip with_eip].
  unfold Util.to_bytes_signed.
  destruct (operand_size_cases _ _ Hsz) as [-> | ->];
    match goal with
    | |- context [?a && ?b && ?c] =>
        replace (a && b && c) with false; [reflexivity |]
    end; symmetry; rewrite !andb_false_iff, !Z.ltb_ge; right; exact Hbig.
Qed.

(** 16-bit mode, the displacement at 0x7FFE: the return address would be
    0x8000 *)
Lemma call_return_address_overflow_witness :
  let vm := mkVM 0x7FFE (regs_of [0; 0; 0; 0; 0x100])
              (Memory.mk 0x10000 (λ _, 0) 0) 1
              [Some sys_stdin; Some sys_stdout; Some sys_stderr] true 0 None [] in
  _call 0xE8 vm = Raise OverflowError.
Proof.
  intros vm.
  apply (call_return_address_overflow vm 2 [0; 0]); [reflexivity | reflexivity |].
  vm_compute. discriminate.
Defined.

Lemma stack_push_pop (vm : VM) (data : list Z) :
  let esp := Reg.wrap32 (reg vm 4) in
  let w := Z.of_nat (length data) in
  0 ≤ esp - w → esp ≤ Memory.size (mem vm) →
  ∃ vm1, stack_push data vm = Ok vm1 ∧ eip vm1 = eip vm ∧
    current_mode vm1 = current_mode vm ∧
    ∃ vm2, stack_pop w vm1 = Ok (data, vm2) ∧
      Reg.get_int (reg vm2) 4 4 = Ok esp ∧ eip vm2 = eip vm ∧
      current_mode vm2 = current_mode vm.
Proof.
  intros esp w Hlow Hhigh.
  pose proof (wrap32_nonneg (reg vm 4)) as Hesp. fold esp in Hesp.
  assert (0 ≤ w) as Hw by (unfold w; lia).
  destruct (Memory.set_bytes (mem vm) (esp - w) data) as [m |] eqn:Hset.
  2: { unfold Memory.set_bytes, Memory.in_range in Hset. fold w in Hset.
       destruct ((0 <=? esp - w) && (0 <=? w) && (esp - w + w <=? Memory.size (mem vm)))
         eqn:E; [discriminate | lia]. }
  pose proof (get_bytes_set_bytes _ _ _ _ Hset) as Hget. fold w in Hget.
  assert (Reg.wrap32 (Reg.wrap32 (esp - w)) = esp - w) as Hsub.
  { rewrite (wrap32_small (esp - w)) by lia. apply wrap32_small. lia. }
  eexists. split; [| split; [| split]].
  - unfold stack_push. fold w. unfold Reg.get_int. cbn [Z.eqb Pos.eqb].
    cbn [mbind result_bind]. fold esp. rewrite Hset. cbn [mbind result_bind].
    reflexivity.
  - reflexivity.
  - reflexivity.
  - eexists. split; [| split; [| split]].
    + unfold stack_pop. cbn [reg with_reg with_mem mem].
      unfold Reg.get_int, Reg.set_int, Reg.upd. cbn [Z.eqb Pos.eqb].
      rewrite Hsub. cbn [mbind result_bind]. rewrite Hget.
      cbn [mbind result_bind]. reflexivity.
    + cbn [reg with_reg]. unfold Reg.get_int, Reg.upd. cbn [Z.eqb Pos.eqb].
      f_equal. replace (esp - w + w) with esp by lia.
      rewrite (wrap32_small esp) by exact Hesp. apply wrap32_small. exact Hesp.
    + reflexivity.
    + reflexivity.
Qed.

(** X22: in 32-bit mode a near relative [_call] followed by [_ret]
    comes back to the address after the call's displacement, with the
    stack pointer as it was before the call; the call itself lands at
    that address plus the displacement taken modulo 2^32. *)
Theorem call_then_ret (vm : VM) (raw : list Z) :
  let esp := Reg.wrap32 (reg vm 4) in
  current_mode vm = 0%nat →
  Memory.get_bytes (mem vm) (eip vm) 4 = Ok raw →
  0 ≤ eip vm + 4 < 2 ^ 31 →
  4 ≤ esp → esp ≤ Memory.size (mem vm) →
  ∃ vm1 vm2,
    _call 0xE8 vm = Ok (true, vm1) ∧
    eip vm1 = eip vm + 4 + Util.to_int raw true mod 2 ^ 32 ∧
    _ret 0xC3 vm1 = Ok (true, vm2) ∧
    eip vm2 = eip vm + 4 ∧
    Reg.get_int (reg vm2) 4 4 = Ok esp.
Proof.
  intros esp Hmode Hraw Heip Hlow Hhigh.
  set (ret := Util.le_digits 4 (eip vm + 4)).
  assert (Util.to_bytes_signed (eip vm + 4) 4 = Ok ret) as Hret.
  { unfold Util.to_bytes_signed.
    assert ((0 <? 4) && (- 2 ^ (8 * 4 - 1) <=? eip vm + 4) &&
            (eip vm + 4 <? 2 ^ (8 * 4 - 1)) = true) as ->.
    { rewrite !andb_true_iff, Z.leb_le, !Z.ltb_lt. lia. }
    unfold ret. rewrite Z.mod_small by lia. reflexivity. }
  assert (Z.of_nat (length ret) = 4) as Hlen
    by (unfold ret; rewrite le_digits_length; reflexivity).
  destruct (stack_push_pop (with_eip vm (eip vm + 4)) ret)
    as (vm1 & Hpush & Heip1 & Hmode1 & vm2 & Hpop & Hesp2 & Heip2 & Hmode2).
  { rewrite Hlen. cbn [reg with_eip]. fold esp. lia. }
  { cbn [reg with_eip mem]. fold esp. lia. }
  rewrite Hlen in Hpop.
  assert (Z.land (Util.to_int ret true) (mask 4) = eip vm + 4) as Hback.
  { unfold ret. rewrite (to_int_signed_digits 4) by lia.
    destruct (2 ^ (8 * 4 - 1) <=? eip vm + 4) eqn:E; [lia |].
    unfold mask. change (Z.shiftl 1 (4 * 8) - 1) with (2 ^ 32 - 1).
    rewrite land_maxval by lia. apply Z.mod_small. lia. }
  exists (with_eip vm1 (eip vm + 4 + Z.land (Util.to_int raw true) (mask 4))).
  exists (with_eip vm2 (eip vm + 4)).
  split; [| split; [| split; [| split]]].
  - unfold _call. rewrite (operand_size_32 _ Hmode). cbn [mbind result_bind].
    change (0xE8 =? 0xE8) with true. cbv iota. rewrite Hraw.
    cbn [mbind result_bind]. cbn [eip with_eip]. rewrite Hret.
    cbn [mbind result_bind]. rewrite Hpush. reflexivity.
  - cbn [eip with_eip]. f_equal. unfold mask.
    change (Z.shiftl 1 (4 * 8) - 1) with (2 ^ 32 - 1). apply land_maxval. lia.
  - unfold _ret, operand_size. cbn [current_mode with_eip]. rewrite Hmode1.
    cbn [current_mode with_eip]. rewrite Hmode. cbn [lookup list_lookup sizes].
    cbn [mbind result_bind]. change (0xC3 =? 0xC3) with true. cbv iota.
    assert (stack_pop 4 (with_eip vm1 (eip vm + 4 + Z.land (Util.to_int raw true) (mask 4)))
            = Ok (ret, with_eip vm2 (eip vm + 4 + Z.land (Util.to_int raw true) (mask 4)))) as ->.
    { unfold stack_pop in *. cbn [reg mem with_eip] in *.
      destruct (Reg.get_int (reg vm1) 4 4); [| discriminate].
      cbn [mbind result_bind] in *.
      destruct (Memory.get_bytes (mem vm1) a 4); [| discriminate].
      cbn [mbind result_bind] in *.
      destruct (Reg.set_int (reg vm1) 4 4 (a + 4)); [| discriminate].
      cbn [mbind result_bind] in *. injection Hpop as -> <-. reflexivity. }
    cbn [mbind result_bind]. rewrite Hback. reflexivity.
  - reflexivity.
  - exact Hesp2.
Qed.

(** E8 at 0 with the displacement 8, the stack pointer at 32: the call
    lands at 5 + 8 and the return at 5 *)
Lemma call_then_ret_witness :
  let vm := with_eip (machine 64 [0xE8; 8; 0; 0; 0] (regs_of [0; 0; 0; 0; 32]) 0 0) 1 in
  ∃ vm1 vm2,
    _call 0xE8 vm = Ok (true, vm1) ∧ eip vm1 = 13 ∧
    _ret 0xC3 vm1 = Ok (true, vm2) ∧ eip vm2 = 5 ∧
    Reg.get_int (reg vm2) 4 4 = Ok 32.
Proof.
  intros vm.
  destruct (call_then_ret vm [8; 0; 0; 0])
    as (vm1 & vm2 & Hcall & Heip1 & Hret & Heip2 & Hesp);
    [reflexivity | reflexivity | vm_compute; split; [discriminate | reflexivity]
    | vm_compute; discriminate | vm_compute; discriminate |].
  exists vm1, vm2. repeat split; assumption.
Defined.

Lemma stack_pop_frame (w : Z) (vm vm' : VM) (data : list Z) :
  stack_pop w vm = Ok (data, vm') → mem vm' = mem vm.
Proof.
  unfold stack_pop. intros H. do 3 bind_inv H. injection H as _ <-. reflexivity.
Qed.

(** X23: [_pop] never stores to memory: whatever the opcode and the
    operand, the value popped is handed to [reg.set] (both branches of
    the 0x8F form do so) and the memory is left as it was. *)
Theorem pop_never_writes_memory (op : Z) (vm vm' : VM) :
  _pop op vm = Ok (true, vm') → mem vm' = mem vm.
Proof.
  unfold _pop. intros H. bind_inv H.
  destruct (op =? 0x8F).
  - bind_inv H. destruct a0 as [[[[type loc] sz] R] vm1].
    pose proof (process_ModRM_frame _ _ _ _ _ _ Ha0) as Hvm1.
    cbv beta iota in H. destruct (negb (R.1.2 =? 0)); [discriminate |].
    bind_inv H. destruct a0 as [data vm2]. apply stack_pop_frame in Ha1.
    cbv beta iota in H.
    destruct (negb type); bind_inv H; injection H as <-;
      cbn [mem with_reg]; rewrite Ha1, Hvm1; reflexivity.
  - destruct (in_range 0x58 (0x58 + 8) op); [| discriminate].
    bind_inv H. destruct a0 as [data vm2]. apply stack_pop_frame in Ha0.
    cbv beta iota in H. bind_inv H. injection H as <-.
    cbn [mem with_reg]. exact Ha0.
Qed.

(** 8F C3 pops the word 7 from the stack at 8 into EBX *)
Lemma pop_never_writes_memory_witness :
  let vm := with_eip (machine 64 [0x8F; 0xC3; 0; 0; 0; 0; 0; 0; 7; 0; 0; 0]
                        (regs_of [0; 0; 0; 0; 8]) 0 0) 1 in
  ∃ vm', _pop 0x8F vm = Ok (true, vm') ∧ mem vm' = mem vm ∧
         Reg.get_int (reg vm') 3 4 = Ok 7.
Proof.
  intros vm. eexists. split; [reflexivity |]. split; [| reflexivity].
  eapply (pop_never_writes_memory 0x8F vm). reflexivity.
Defined.

(** X24: outside the group opcodes a dispatcher that answers [False]
    returns the state it was given: always for [_ret] and [_int], for
    [_mov] on every opcode but 0xC6 and 0xC7, for [_pop] on every opcode
    but 0x8F, and for [_jmp], [_push] and [_call] on every opcode but
    0xFF. *)
Theorem false_leaves_state (k : imported) (h : Host) (m : mnemonic) (op : Z)
    (vm vm' : VM) :
  match m with
  | Ret | Int => True
  | Mov => op ≠ 0xC6 ∧ op ≠ 0xC7
  | Pop => op ≠ 0x8F
  | Jmp | Push | Call => op ≠ 0xFF
  end →
  dispatch k h m op vm = Ok (false, vm') → vm' = vm.
Proof.
  destruct m; cbn [dispatch]; intros Hop H.
  - destruct Hop. eapply mov_false_untouched; eassumption.
  - unfold _jmp in H. bind_inv H.
    destruct (op =? 0xEB); [exfalso; exact (accept_not_false _ _ H) |].
    destruct (op =? 0xE9); [exfalso; exact (accept_not_false _ _ H) |].
    destruct (op =? 0xFF) eqn:E; [lia |].
    destruct (op =? 0xEA); [discriminate |].
    injection H as <-. reflexivity.
  - eapply int_false_untouched; eassumption.
  - unfold _push in H. bind_inv H.
    destruct (op =? 0xFF) eqn:E; [lia |].
    destruct (in_range 0x50 0x58 op).
    { bind_inv H. exfalso. exact (accept_not_false _ _ H). }
    destruct (op =? 0x6A).
    { bind_inv H. exfalso. exact (accept_not_false _ _ H). }
    destruct (op =? 0x68).
    { bind_inv H. exfalso. exact (accept_not_false _ _ H). }
    injection H as <-. reflexivity.
  - unfold _pop in H. bind_inv H.
    destruct (op =? 0x8F) eqn:E; [lia |].
    destruct (in_range 0x58 (0x58 + 8) op).
    { bind_inv H. destruct a0. cbv beta iota in H. bind_inv H. discriminate. }
    injection H as <-. reflexivity.
  - unfold _call in H. bind_inv H.
    destruct (op =? 0xE8).
    { do 3 bind_inv H. discriminate. }
    destruct (op =? 0xFF) eqn:E; [lia |].
    destruct (op =? 0x9A); [discriminate |].
    injection H as <-. reflexivity.
  - eapply ret_false_untouched; eassumption.
Qed.

(** 0x90 is no MOV and no PUSH *)
Lemma false_leaves_state_witness :
  let vm := machine 16 [0xC8] Reg.zero 0 0 in
  _mov 0x90 vm = Ok (false, vm) ∧ _push 0x90 vm = Ok (false, vm).
Proof.
  intros vm. split.
  - assert (∃ v, _mov 0x90 vm = Ok (false, v)) as [v Hv] by (eexists; reflexivity).
    rewrite Hv. do 2 f_equal.
    apply (false_leaves_state idle_imports plain_host Mov 0x90 vm v); [split; discriminate | exact Hv].
  - assert (∃ v, _push 0x90 vm = Ok (false, v)) as [v Hv] by (eexists; reflexivity).
    rewrite Hv. do 2 f_equal.
    apply (false_leaves_state idle_imports plain_host Push 0x90 vm v); [discriminate | exact Hv].
Defined.

End CallRet.

(** ** The floor of the break *)

Section BreakFloor.

Import Kernel.

(** [floor_goal] reads the break and [code_segment_end] of a state built
    by the setters. *)
Ltac floor_goal :=
  repeat match goal with
  | H : Memory.set_bytes _ _ _ = Ok _ |- _ => apply set_bytes_frame in H as [? ?]
  | H : Memory.set _ _ _ _ = Ok _ |- _ =>
      unfold Memory.set in H; apply set_bytes_frame in H as [? ?]
  | H : open_file _ _ _ _ = Ok _ |- _ =>
      apply open_file_frame in H as (? & ? & ? & ? & ? & ?)
  end;
  unfold __return, with_exit, log_call, with_mem, with_reg,
    with_descriptors, with_eip, Memory.with_program_break in *;
  cbn [code_segment_end mem Memory.program_break] in *;
  try congruence; try lia.

(** X25: every handler of the syscall table but [sys_munmap] (0x5b)
    keeps the break at or above [code_segment_end]: if it was so before
    the call, it is so when the handler returns. *)
Theorem syscalls_keep_floor (h : Host) (code : Z)
    (handler : Host → VM → result VM) (vm vm' : VM) :
  (code, handler) ∈ syscalls → code ≠ 0x5b →
  code_segment_end vm ≤ program_break vm →
  handler h vm = Ok vm' →
  code_segment_end vm' ≤ program_break vm'.
Proof.
  intros Hin Hcode Hinv Hrun. unfold syscalls in Hin. unfold program_break in *.
  repeat (apply elem_of_cons in Hin as [[= -> ->] | Hin]);
    [.. | apply elem_of_nil in Hin; contradiction].
  - unfold sys_exit in Hrun. simpl in Hrun. repeat step Hrun; floor_goal.
  - unfold sys_read in Hrun. simpl in Hrun. repeat step Hrun; floor_goal.
  - unfold sys_write in Hrun. simpl in Hrun. repeat step Hrun; floor_goal.
  - exact (sys_brk_keeps_floor vm vm' Hinv Hrun).
  - unfold sys_exit_group, sys_exit in Hrun. simpl in Hrun.
    repeat step Hrun; floor_goal.
  - unfold sys_writev in Hrun. simpl in Hrun. bind_inv Hrun.
    destruct a as [size vm1]. injection Hrun as <-.
    apply writev_loop_frame in Ha as ((F1 & F2 & F3 & F4 & F5) & Hm & _).
    floor_goal.
  - unfold sys_llseek in Hrun. simpl in Hrun. repeat step Hrun; floor_goal.
  - unfold sys_ioctl in Hrun. rewrite (args3 "suu" vm eq_refl) in Hrun.
    cbv beta iota zeta in Hrun. repeat step Hrun; floor_goal.
  - unfold sys_open in Hrun. simpl in Hrun. repeat step Hrun;
      try match goal with
      | H : (if ?c then _ else _) = Ok _ |- _ => destruct c
      end; floor_goal.
  - unfold sys_close in Hrun. simpl in Hrun. repeat step Hrun; floor_goal.
  - exact (sys_mmap_pgoff_keeps_floor vm vm' Hinv Hrun).
  - contradiction.
Qed.

(** mmap of 8 anonymous bytes with the break at code_segment_end = 8;
    the flags and the protection carry bits (0x40, 0x8) that no member
    of [MAP_FLAGS] and [MAP_PROT] has, and the run returns *)
Lemma syscalls_keep_floor_witness :
  let vm := machine 32 [] (regs_of [192; 8; 0xB; 0; 0; 0; 0x62; 0]) 8 8 in
  ∃ vm', sys_mmap_pgoff vm = Ok vm' ∧ code_segment_end vm' ≤ program_break vm'.
Proof.
  intros vm. eexists. split; [reflexivity |].
  apply (syscalls_keep_floor plain_host 0xc0 (λ _, sys_mmap_pgoff) vm).
  - unfold syscalls. rewrite !elem_of_cons. do 10 right. left. reflexivity.
  - discriminate.
  - vm_compute. discriminate.
  - reflexivity.
Defined.

End BreakFloor.
